(** * Azure RBAC roles and assignments exporter

    A shallow embedding of
    [scripts/azure/python/export_rbac_roles_and_assignments.py], of the
    functions of [scripts/common/python/logging_utils.py] it calls and of
    [scripts/bootstrap/doctor.py], followed by the properties established
    on that embedding.

    Layout of the development:
    - [Py]: the Python primitives the script relies on ([in], [split],
      [replace], [strip], [str], slices, insertion-ordered dictionaries);
    - the objects returned by the Azure and Graph clients, and the tenant
      that answers the script's requests;
    - the script, function by function, in the order of the source;
    - the theorems. *)

From Stdlib Require Import ZArith List String Ascii DecimalString Bool Lia.
From stdpp Require Import base gmap strings list.
Import ListNotations.

Local Open Scope string_scope.
Local Open Scope list_scope.
Local Open Scope Z_scope.

(* ===================================================================== *)
(** * Python primitives *)
(* ===================================================================== *)

Module Py.

(** ** Strings

    A [string] stands for a [str] all of whose characters are ASCII: the
    identifiers, scopes, paths and column names the script handles. What
    Python does on other characters (the Unicode white space that
    [str.strip] removes, the escapes of [repr]) is outside the model. *)

(** [sub in s] for two [str]. *)
Fixpoint str_contains (sub s : string) : bool :=
  String.prefix sub s
  || match s with
     | EmptyString => false
     | String _ s' => str_contains sub s'
     end.

(** [s.split(sep)] for a non-empty separator: a left-to-right scan for
    non-overlapping occurrences. [skip] counts the characters of an
    occurrence still to be passed over, [cur] is the piece being read.
    (Python raises [ValueError] on an empty separator; the script only
    splits on literals.) *)
Fixpoint split_go (sep : string) (skip : nat) (cur s : string) : list string :=
  match s with
  | EmptyString => [cur]
  | String c s' =>
      match skip with
      | S k => split_go sep k cur s'
      | O =>
          if String.prefix sep s
          then cur :: split_go sep (String.length sep - 1) EmptyString s'
          else split_go sep 0 (cur +:+ String c EmptyString) s'
      end
  end.

Definition split (sep s : string) : list string := split_go sep 0 EmptyString s.

(** [s.replace(old, new)] for a non-empty [old]: every non-overlapping
    occurrence, left to right. *)
Fixpoint replace_go (old new : string) (skip : nat) (s : string) : string :=
  match s with
  | EmptyString => EmptyString
  | String c s' =>
      match skip with
      | S k => replace_go old new k s'
      | O =>
          if String.prefix old s
          then new +:+ replace_go old new (String.length old - 1) s'
          else String c (replace_go old new 0 s')
      end
  end.

Definition replace (old new s : string) : string := replace_go old new 0 s.

(** [sep.join(l)]. *)
Fixpoint join (sep : string) (l : list string) : string :=
  match l with
  | [] => EmptyString
  | [x] => x
  | x :: l' => x +:+ sep +:+ join sep l'
  end.

(** The ASCII characters [str.strip()] removes: [\t], [\n], [\x0b],
    [\x0c], [\r], the separators [\x1c] to [\x1f] and the space. *)
Definition is_space (c : ascii) : bool :=
  let n := nat_of_ascii c in
  ((9 <=? n)%nat && (n <=? 13)%nat) || ((28 <=? n)%nat && (n <=? 32)%nat).

Fixpoint lstrip (s : string) : string :=
  match s with
  | EmptyString => EmptyString
  | String c s' => if is_space c then lstrip s' else s
  end.

Fixpoint rstrip (s : string) : string :=
  match s with
  | EmptyString => EmptyString
  | String c s' =>
      match rstrip s' with
      | EmptyString => if is_space c then EmptyString else String c EmptyString
      | r => String c r
      end
  end.

Definition strip (s : string) : string := rstrip (lstrip s).

(** [str(n)] for an [int]. *)
Definition str_of_Z (n : Z) : string := NilZero.string_of_int (Z.to_int n).
Definition str_of_nat (n : nat) : string := NilZero.string_of_uint (Nat.to_uint n).

(** [repr(s)] for a [str]: single quotes, or double quotes when [s] has a
    single quote and no double quote; the quote in use and the backslash
    are escaped, control characters are written [\t], [\n], [\r] or
    [\xNN]. *)
Definition backslash : ascii := ascii_of_nat 92.
Definition double_quote : ascii := ascii_of_nat 34.
Definition single_quote : ascii := ascii_of_nat 39.

Fixpoint has_char (c : ascii) (s : string) : bool :=
  match s with
  | EmptyString => false
  | String b s' => Ascii.eqb b c || has_char c s'
  end.

Definition hex_digit (n : nat) : ascii :=
  nth n (list_ascii_of_string "0123456789abcdef") "0"%char.

Definition repr_char (quote c : ascii) : string :=
  let n := nat_of_ascii c in
  if Ascii.eqb c quote || Ascii.eqb c backslash
  then String backslash (String c EmptyString)
  else if (n =? 9)%nat then String backslash "t"
  else if (n =? 10)%nat then String backslash "n"
  else if (n =? 13)%nat then String backslash "r"
  else if (n <? 32)%nat || (n =? 127)%nat
  then String backslash
         (String "x" (String (hex_digit (n / 16)) (String (hex_digit (n mod 16)) EmptyString)))
  else String c EmptyString.

Definition repr_str (s : string) : string :=
  let quote :=
    if has_char single_quote s && negb (has_char double_quote s)
    then double_quote else single_quote in
  String quote
    (fold_right (fun c acc => repr_char quote c +:+ acc) (String quote EmptyString)
       (list_ascii_of_string s)).

(** Truthiness of a [str] and of an [Optional[str]]. *)
Definition str_truthy (s : string) : bool := negb (String.eqb s EmptyString).

Definition opt_truthy (o : option string) : bool :=
  match o with Some s => str_truthy s | None => false end.

(** [o or d] where [o : Optional[str]] and [d : str]. *)
Definition or_else (o : option string) (d : string) : string :=
  match o with
  | Some s => if str_truthy s then s else d
  | None => d
  end.

(** ** Values stored in the script's records *)

Inductive value : Type :=
  | VNone
  | VBool (b : bool)
  | VInt (n : Z)
  | VStr (s : string).

#[global] Instance value_eq_dec : EqDecision value.
Proof. solve_decision. Defined.

(** [str(v)]. *)
Definition str (v : value) : string :=
  match v with
  | VNone => "None"
  | VBool true => "True"
  | VBool false => "False"
  | VInt n => str_of_Z n
  | VStr s => s
  end.

Definition truthy (v : value) : bool :=
  match v with
  | VNone => false
  | VBool b => b
  | VInt n => negb (n =? 0)
  | VStr s => str_truthy s
  end.

Definition of_opt (o : option string) : value :=
  match o with Some s => VStr s | None => VNone end.

(** ** Dictionaries

    A [dict] keeps its keys in insertion order, and the emitters read the
    column order off the first row, so a dictionary is an association list
    without repeated keys: assignment to an existing key keeps its place,
    assignment to a new key appends. *)

Definition dict (V : Type) : Type := list (string * V).

Fixpoint get {V} (k : string) (d : dict V) : option V :=
  match d with
  | [] => None
  | (k', v) :: d' => if String.eqb k' k then Some v else get k d'
  end.

Fixpoint set {V} (k : string) (v : V) (d : dict V) : dict V :=
  match d with
  | [] => [(k, v)]
  | (k', v') :: d' =>
      if String.eqb k' k then (k', v) :: d' else (k', v') :: set k v d'
  end.

Definition has {V} (k : string) (d : dict V) : bool :=
  match get k d with Some _ => true | None => false end.

Definition keys {V} (d : dict V) : list string := map fst d.
Definition values {V} (d : dict V) : list V := map snd d.

(** [d.get(k, default)]. *)
Definition get_or {V} (k : string) (default : V) (d : dict V) : V :=
  match get k d with Some v => v | None => default end.

(** [d.update(items)], the items in order. *)
Definition update {V} (items : list (string * V)) (d : dict V) : dict V :=
  fold_left (fun acc kv => set (fst kv) (snd kv) acc) items d.

(** ** Lists *)

(** [l[:stop]] for an [int] stop. *)
Definition slice_to {A} (stop : Z) (l : list A) : list A :=
  if 0 <=? stop then take (Z.to_nat stop) l
  else take (length l - Z.to_nat (- stop))%nat l.

(** [x in l] for a list of [str]. *)
Definition mem (x : string) (l : list string) : bool :=
  existsb (String.eqb x) l.

(** Truthiness of an [Optional[int]] ([--limit]). *)
Definition limit_set (o : option Z) : bool :=
  match o with Some n => negb (n =? 0) | None => false end.

(** [limit and count >= limit]. *)
Definition limit_reached (o : option Z) (count : Z) : bool :=
  match o with Some n => negb (n =? 0) && (n <=? count) | None => false end.

End Py.

(** ** Paths

    [pathlib.Path] on a POSIX system, as far as the script and
    [logging_utils] use it: a path is a root ([/], [//] or none) and its
    components; empty components and [.] are dropped when a string is
    parsed, [..] is kept. *)
Module Path.

Record t : Type := mk {
  root : string;
  parts : list string
}.

Definition root_of (s : string) : string :=
  if String.prefix "///" s then "/"
  else if String.prefix "//" s then "//"
  else if String.prefix "/" s then "/"
  else "".

Definition components (s : string) : list string :=
  List.filter (fun c => negb (String.eqb c "") && negb (String.eqb c "."))
    (Py.split "/" s).

(** [Path(s)] *)
Definition of_str (s : string) : t := mk (root_of s) (components s).

(** [str(p)] *)
Definition str (p : t) : string :=
  match parts p with
  | [] => if String.eqb (root p) "" then "." else root p
  | _ :: _ => root p +:+ Py.join "/" (parts p)
  end.

(** [p / s]: a rooted [s] replaces [p]. *)
Definition join (p : t) (s : string) : t :=
  let q := of_str s in
  if String.eqb (root q) "" then mk (root p) (parts p ++ parts q) else q.

(** [p.parent] *)
Definition parent (p : t) : t :=
  match parts p with
  | [] => p
  | _ :: _ => mk (root p) (removelast (parts p))
  end.

End Path.

(* ===================================================================== *)
(** * Objects exchanged with the collaborators *)
(* ===================================================================== *)

(** A call to a client either returns or raises an [Exception] whose text
    is [err]. Iterating a paged listing that fails part-way is [Raised]
    too: every caller builds its list in a local that is dropped when the
    exception arrives. *)
Inductive reply (A : Type) : Type :=
  | Returned (a : A)
  | Raised (err : string).
Arguments Returned {A} a.
Arguments Raised {A} err.

(** The records built by [get_management_groups], [get_subscriptions] and
    [get_resource_groups]: dictionaries with a fixed set of keys, copied
    attribute by attribute from the client's objects. *)
Record management_group : Type := {
  mg_id : string;
  mg_name : string;
  mg_display_name : string;
  mg_type : string
}.

Record subscription : Type := {
  sub_id : string;
  sub_subscription_id : string;
  sub_display_name : string;
  sub_state : string
}.

Record resource_group_obj : Type := {
  rgo_id : string;
  rgo_name : string;
  rgo_location : string
}.

Record resource_group : Type := {
  rg_id : string;
  rg_name : string;
  rg_location : string;
  rg_subscription_id : string
}.

(** A role definition as the authorization client returns it.
    [rd_permissions] is the length of the permission list when there is
    one. *)
Record role_definition_obj : Type := {
  rd_role_name : option string;
  rd_id : string;
  rd_role_type : option string;
  rd_description : option string;
  rd_permissions : option nat;
  rd_assignable_scopes : option (list string)
}.

(** A role assignment as the authorization client returns it. [ra_scope]
    is the scope the assignment was made at (its native scope), an
    attribute of the client's object that [get_role_assignments] does not
    read. [ra_principal_type] is the attribute already passed through
    [str]; [ra_created_on] is the timestamp already passed through
    [isoformat]. *)
Record role_assignment_obj : Type := {
  ra_id : string;
  ra_scope : string;
  ra_role_definition_id : string;
  ra_principal_id : string;
  ra_principal_type : option string;
  ra_additional_properties : option (Py.dict Py.value);
  ra_condition : option string;
  ra_condition_version : option string;
  ra_created_on : option string
}.

(** Directory objects. *)
Record user_obj : Type := {
  u_display_name : option string;
  u_user_principal_name : option string
}.

Record application_obj : Type := {
  app_display_name : option string;
  app_app_id : option string
}.

(** A group member. [m_user_principal_name] is [None] when the object
    has no such attribute, [Some None] when the attribute holds [None]. *)
Record member_obj : Type := {
  m_id : string;
  m_additional_data : Py.dict Py.value;
  m_display_name : option string;
  m_user_principal_name : option (option string)
}.

(** The tenant: what the management clients answer. *)
Record tenant : Type := {
  management_groups_list : reply (list management_group);
  subscriptions_list : reply (list subscription);
  resource_groups_list : string -> reply (list resource_group_obj);
  role_definitions_list : string -> reply (list role_definition_obj);
  role_assignments_list_for_scope : string -> bool -> reply (list role_assignment_obj)
}.

(** The directory: what the Graph client answers. A members response is
    [None] when it is falsy or has no [value]. *)
Record directory : Type := {
  users_get : string -> reply user_obj;
  applications_get : string -> reply application_obj;
  members_get : string -> reply (option (list member_obj));
  transitive_members_get : string -> reply (option (list member_obj))
}.

Inductive credential : Type :=
  | DefaultAzureCredential
  | AzureCliCredential.

Definition credential_name (c : credential) : string :=
  match c with
  | DefaultAzureCredential => "DefaultAzureCredential"
  | AzureCliCredential => "AzureCliCredential"
  end.

(** The machine the script runs on.
    - [HAS_OPENPYXL], [HAS_GRAPH]: the optional modules.
    - [default_get_token], [cli_get_token]: what token acquisition answers.
    - [which_pwsh], [bootstrap_run]: PowerShell for [--bootstrap], and what
      [subprocess.run] gives when it is launched: the return code, or the
      exception raised.
    - [utc_date], [run_id]: the date and the identifier [init_logging]
      names the log files with; [utc_timestamp]: the clock reading used
      for the default output directory.
    - [mkdir_error], [open_error]: the directories that cannot be made
      and the paths that cannot be opened for writing, with the text of
      the exception.
    - [cell_error]: the values [openpyxl] refuses to put in a cell (a
      string with a control character), with the text of the exception.
    - [set_order]: the order in which a [set] of these strings is
      iterated in this process, a permutation of its argument. *)
Record host : Type := {
  HAS_OPENPYXL : bool;
  HAS_GRAPH : bool;
  default_get_token : reply unit;
  cli_get_token : reply unit;
  which_pwsh : option string;
  bootstrap_run : reply Z;
  utc_date : string;
  run_id : string;
  utc_timestamp : string;
  mkdir_error : string -> option string;
  open_error : string -> option string;
  cell_error : Py.value -> option string;
  set_order : list string -> list string
}.

(* ===================================================================== *)
(** * Command line *)
(* ===================================================================== *)

Inductive membership_mode : Type :=
  | direct
  | transitive.

#[global] Instance membership_mode_eq_dec : EqDecision membership_mode.
Proof. solve_decision. Defined.

(** The namespace [argparse] returns, one field per option declared in
    [setup_argument_parser]. *)
Module Args.
Record t : Type := mk {
  subscriptions : option (list string);
  include_resources : bool;
  expand_group_members : bool;
  redact : bool;
  markdown_top : Z;
  no_resolve_principals : bool;
  confirm_large_scan : bool;
  output_path : option string;
  safe_mode : bool;
  max_concurrency : Z;
  limit : option Z;
  discover_subscriptions : bool;
  traverse_management_groups : bool;
  group_members_top : Z;
  group_membership_mode : membership_mode;
  json : bool;
  bootstrap : bool
}.

(** [args.subscriptions = subs]. *)
Definition with_subscriptions (subs : option (list string)) (a : t) : t :=
  mk subs (include_resources a) (expand_group_members a) (redact a)
     (markdown_top a) (no_resolve_principals a) (confirm_large_scan a)
     (output_path a) (safe_mode a) (max_concurrency a) (limit a)
     (discover_subscriptions a) (traverse_management_groups a)
     (group_members_top a) (group_membership_mode a) (json a) (bootstrap a).

(** Truthiness of [args.subscriptions]. *)
Definition has_subscriptions (a : t) : bool :=
  match subscriptions a with
  | Some (_ :: _) => true
  | _ => false
  end.
End Args.

(** Constants. *)
Definition DEFAULT_MAX_CONCURRENCY : Z := 4.
Definition DEFAULT_MARKDOWN_TOP : Z := 200.
Definition DEFAULT_GROUP_MEMBERS_TOP : Z := 500.
Definition LARGE_SUBSCRIPTION_THRESHOLD : Z := 25.
Definition LARGE_RESOURCE_GROUP_THRESHOLD : Z := 200.

(** The parser's defaults, with no option given. *)
Definition default_args : Args.t :=
  Args.mk None false false false DEFAULT_MARKDOWN_TOP false false None true
          DEFAULT_MAX_CONCURRENCY None false false DEFAULT_GROUP_MEMBERS_TOP
          direct false false.

Definition REDACTED : string := "[REDACTED]".

(* ===================================================================== *)
(** * What a run acts on *)
(* ===================================================================== *)

(** A row of a report: a role definition or a role assignment. *)
Definition row : Type := Py.dict Py.value.

(** Requests sent to the collaborators, in the order they are issued. *)
Inductive request : Type :=
  | GetToken (c : credential)
  | ListManagementGroups
  | ListSubscriptions
  | ListResourceGroups (subscription_id : string)
  | ListRoleDefinitions (scope : string)
  | ListRoleAssignments (scope : string) (include_inherited : bool)
  | GraphUser (principal_id : string)
  | GraphApplication (principal_id : string)
  | GraphMembers (group_id : string)
  | GraphTransitiveMembers (group_id : string).

(** The logger is set to [INFO]; of its records the model keeps the
    warnings and the errors, with their text. [debug] records are dropped
    by the logger itself; [info] records narrate progress (one of them
    prints the whole namespace) and are not kept here. A trace without a
    [Log] record therefore means that no warning and no error was logged,
    not that the log is empty. *)
Inductive level : Type :=
  | WARNING
  | ERROR.

(** What a run does, in order: the requests it sends, the warnings and
    errors it logs, and the set-up of the log by [init_logging], which
    makes the log directory and opens the two log files in it. *)
Inductive event : Type :=
  | Request (r : request)
  | Log (l : level) (msg : string)
  | LogDirectory (path : string)
  | LogFile (path : string).

(** [index.json]. *)
Record index_data : Type := {
  ix_role_definitions_csv : string;
  ix_role_assignments_csv : string;
  ix_role_assignments_xlsx : option string;
  ix_role_assignments_md : option string;
  ix_rows_role_definitions : nat;
  ix_rows_role_assignments : nat;
  ix_per_subscription : Py.dict nat
}.

(** A file in the output directory, by what was written into it.
    - [CsvFile]: the header and the records handed to the [csv] writer,
      each a list of cells in header order (UTF-8 with BOM, every cell
      quoted by the writer).
    - [XlsxFile]: the rows appended to the sheet [Data], the header first.
    - [MarkdownFile]: the strings passed to [mdfile.write], as the table
      head (header and separator, or nothing), the data rows and the
      footer; the text of the file is their concatenation.
    - [JsonFile]: the array handed to [json.dump].
    - [IndexFile]: [index.json]. *)
Inductive artifact : Type :=
  | CsvFile (header : list string) (records : list (list string))
  | XlsxFile (sheet : list (list Py.value))
  | MarkdownFile (head : list string) (data_rows : list string) (footer : string)
  | JsonFile (array : list row)
  | IndexFile (ix : index_data).

(** The run summary written next to the logs ([run_id], the timings and
    the path are left out). *)
Record run_summary : Type := {
  sm_processed_management_groups : Z;
  sm_processed_subscriptions : Z;
  sm_processed_resource_groups : Z;
  sm_scopes_skipped : list string;
  sm_roles_count : nat;
  sm_assignments_count : nat;
  sm_warnings : list string;
  sm_errors : list string;
  sm_success : bool;
  sm_credential_type : string;
  sm_arguments : Args.t
}.

(** Everything a run can change: the files of the output tree and the
    directories made for it by [new_output_paths], the trace (requests,
    log records, set-up of the log), the module-level [principal_cache],
    and the summary document. *)
Record world : Type := mkWorld {
  files : gmap string artifact;
  dirs : list string;
  trace : list event;
  principal_cache : gmap string (string * string);
  summary : option run_summary
}.

Definition empty_world : world := mkWorld ∅ [] [] ∅ None.

Definition set_files (f : gmap string artifact) (w : world) : world :=
  mkWorld f (dirs w) (trace w) (principal_cache w) (summary w).
Definition set_dirs (d : list string) (w : world) : world :=
  mkWorld (files w) d (trace w) (principal_cache w) (summary w).
Definition set_trace (t : list event) (w : world) : world :=
  mkWorld (files w) (dirs w) t (principal_cache w) (summary w).
Definition set_principal_cache (c : gmap string (string * string)) (w : world) : world :=
  mkWorld (files w) (dirs w) (trace w) c (summary w).
Definition set_summary (s : option run_summary) (w : world) : world :=
  mkWorld (files w) (dirs w) (trace w) (principal_cache w) s.

(** ** Computations on the world *)

Definition M (A : Type) : Type := world -> A * world.

Definition ret {A} (a : A) : M A := fun w => (a, w).

Definition bind {A B} (m : M A) (k : A -> M B) : M B :=
  fun w => let (a, w') := m w in k a w'.

Notation "'let*' x ':=' m 'in' k" := (bind m (fun x => k))
  (at level 10, x pattern, m at level 100, k at level 200).
Notation "m ';;;' k" := (bind m (fun _ => k))
  (at level 100, k at level 200, right associativity).

Definition emit (e : event) : M unit :=
  fun w => (tt, set_trace (trace w ++ [e]) w).

Definition send (r : request) : M unit := emit (Request r).
Definition warning (msg : string) : M unit := emit (Log WARNING msg).
Definition error (msg : string) : M unit := emit (Log ERROR msg).

(** The requests of a trace, and those sent to the directory. *)
Definition requests (t : list event) : list request :=
  omap (fun e => match e with Request r => Some r | _ => None end) t.

Definition is_directory_request (r : request) : bool :=
  match r with
  | GraphUser _ | GraphApplication _ | GraphMembers _ | GraphTransitiveMembers _ => true
  | _ => false
  end.

Definition directory_calls (w : world) : nat :=
  length (filter (fun r => is_directory_request r = true) (requests (trace w))).

(* ===================================================================== *)
(** * The script *)
(* ===================================================================== *)

(** ** [validate_arguments]

    [inl code] is [sys.exit(code)]; otherwise the namespace comes back with
    [--subscriptions] split on commas, stripped, and emptied of blanks. *)
Definition validate_arguments (args : Args.t) : Z + Args.t :=
  if negb (Args.has_subscriptions args)
     && negb (Args.discover_subscriptions args)
     && negb (Args.traverse_management_groups args)
  then inl 1
  else if bool_decide (Args.group_membership_mode args = transitive)
          && negb (Args.confirm_large_scan args)
  then inl 1
  else
    match Args.subscriptions args with
    | Some ((_ :: _) as subs) =>
        let expanded_subs := flat_map (Py.split ",") subs in
        inr (Args.with_subscriptions
               (Some (map Py.strip
                        (List.filter (fun sub => Py.str_truthy (Py.strip sub)) expanded_subs)))
               args)
    | _ => inr args
    end.

(** ** [preflight_check] *)
Definition preflight_check (h : host) : M (option credential) :=
  send (GetToken DefaultAzureCredential) ;;;
  match default_get_token h with
  | Returned _ => ret (Some DefaultAzureCredential)
  | Raised e1 =>
      warning ("DefaultAzureCredential failed: " +:+ e1) ;;;
      send (GetToken AzureCliCredential) ;;;
      match cli_get_token h with
      | Returned _ => ret (Some AzureCliCredential)
      | Raised e2 =>
          error ("AzureCliCredential failed: " +:+ e2) ;;;
          error "Authentication failed. Please run 'az login' or ensure SSO is configured." ;;;
          ret None
      end
  end.

(** ** [get_management_groups] *)
Definition get_management_groups (t : tenant) : M (list management_group) :=
  send ListManagementGroups ;;;
  match management_groups_list t with
  | Returned mg_list => ret mg_list
  | Raised e => warning ("Failed to list management groups: " +:+ e) ;;; ret []
  end.

(** ** [get_subscriptions] *)
Definition get_subscriptions (t : tenant) (subscription_ids : option (list string))
  : M (list subscription) :=
  send ListSubscriptions ;;;
  match subscriptions_list t with
  | Returned subs =>
      ret (List.filter
             (fun sub =>
                match subscription_ids with
                | Some ((_ :: _) as ids) => Py.mem (sub_subscription_id sub) ids
                | _ => true
                end)
             subs)
  | Raised e => warning ("Failed to list subscriptions: " +:+ e) ;;; ret []
  end.

(** ** [get_resource_groups] *)
Definition get_resource_groups (t : tenant) (subscription_id : string)
  : M (list resource_group) :=
  send (ListResourceGroups subscription_id) ;;;
  match resource_groups_list t subscription_id with
  | Returned rgs =>
      ret (map (fun rg => {| rg_id := rgo_id rg; rg_name := rgo_name rg;
                             rg_location := rgo_location rg;
                             rg_subscription_id := subscription_id |}) rgs)
  | Raised e =>
      warning ("Failed to list resource groups for " +:+ subscription_id +:+ ": " +:+ e) ;;;
      ret []
  end.

(** ** [get_role_definitions] *)
Definition role_definition_row (role_def : role_definition_obj) : row :=
  [ ("roleDefinitionName", Py.of_opt (rd_role_name role_def));
    ("roleDefinitionId", Py.VStr (rd_id role_def));
    ("isCustom", Py.VBool (negb (Py.opt_truthy (rd_role_type role_def))));
    ("description", Py.VStr (Py.or_else (rd_description role_def) ""));
    ("permissionsCount",
       Py.VInt (match rd_permissions role_def with Some n => Z.of_nat n | None => 0 end));
    ("assignableScopes",
       Py.VStr (match rd_assignable_scopes role_def with
                | Some ((_ :: _) as scopes) => Py.join ";" scopes
                | _ => ""
                end)) ].

Definition get_role_definitions (t : tenant) (scope : string) : M (list row) :=
  send (ListRoleDefinitions scope) ;;;
  match role_definitions_list t scope with
  | Returned role_defs => ret (map role_definition_row role_defs)
  | Raised e =>
      warning ("Failed to list role definitions at " +:+ scope +:+ ": " +:+ e) ;;; ret []
  end.

(** ** [get_role_assignments]

    The loop body first classifies the queried scope (source lines 319 to
    338): scope type, subscription id and resource group, read off the
    path. [Py.split] never returns an empty list, so [sub_part[0]] and
    [split('/')[0]] always exist. *)
Definition classify_scope (scope : string) : string * string * string :=
  if Py.str_contains "/providers/Microsoft.Management/managementGroups/" scope then
    ("ManagementGroup", "", "")
  else if Py.str_contains "/subscriptions/" scope
          && Py.str_contains "/resourceGroups/" scope then
    match Py.split "/subscriptions/" scope with
    | _ :: p1 :: _ =>
        let sub_part := Py.split "/resourceGroups/" p1 in
        ("ResourceGroup", hd "" sub_part, hd "" (tl sub_part))
    | _ => ("ResourceGroup", "", "")
    end
  else if Py.str_contains "/subscriptions/" scope then
    match Py.split "/subscriptions/" scope with
    | _ :: p1 :: _ => ("Subscription", hd "" (Py.split "/" p1), "")
    | _ => ("Subscription", "", "")
    end
  else ("Unknown", "", "").

(** The value stored under [inherited]: what the provider put in
    [additional_properties], [False] without it. *)
Definition provider_inherited (assignment : role_assignment_obj) : Py.value :=
  match ra_additional_properties assignment with
  | Some ((_ :: _) as props) => Py.get_or "inherited" (Py.VBool false) props
  | _ => Py.VBool false
  end.

Definition role_assignment_row (scope : string) (assignment : role_assignment_obj) : row :=
  let '(scope_type, subscription_id, resource_group) := classify_scope scope in
  [ ("scope", Py.VStr scope);
    ("scopeType", Py.VStr scope_type);
    ("subscriptionId", Py.VStr subscription_id);
    ("resourceGroup", Py.VStr resource_group);
    ("roleDefinitionId", Py.VStr (ra_role_definition_id assignment));
    ("roleDefinitionName", Py.VStr "");
    ("assignmentId", Py.VStr (ra_id assignment));
    ("principalId", Py.VStr (ra_principal_id assignment));
    ("principalType", Py.VStr (Py.or_else (ra_principal_type assignment) "Unknown"));
    ("principalDisplayName", Py.VStr "");
    ("principalUPNOrAppId", Py.VStr "");
    ("inherited", provider_inherited assignment);
    ("condition", Py.VStr (Py.or_else (ra_condition assignment) ""));
    ("conditionVersion", Py.VStr (Py.or_else (ra_condition_version assignment) ""));
    ("createdOn", Py.VStr (Py.or_else (ra_created_on assignment) "")) ].

Definition get_role_assignments (t : tenant) (scope : string) (include_inherited : bool)
  : M (list row) :=
  send (ListRoleAssignments scope include_inherited) ;;;
  match role_assignments_list_for_scope t scope include_inherited with
  | Returned assignments => ret (map (role_assignment_row scope) assignments)
  | Raised e =>
      warning ("Failed to list role assignments at " +:+ scope +:+ ": " +:+ e) ;;; ret []
  end.

(** ** [resolve_principal]

    The cache is looked up by [principal_id] before anything else; both
    other paths store their result under [principal_id] before returning.
    An exception from the directory is caught (and logged at [debug]), the
    identifiers staying as they were. *)
Definition directory_lookup (h : host) (d : directory)
  (principal_id principal_type : string) : M (string * string) :=
  if HAS_GRAPH h
     && Py.mem principal_type ["User"; "ServicePrincipal"]%string then
    if String.eqb principal_type "User" then
      send (GraphUser principal_id) ;;;
      match users_get d principal_id with
      | Returned user =>
          ret (Py.or_else (u_display_name user) principal_id,
               Py.or_else (u_user_principal_name user) principal_id)
      | Raised _ => ret (principal_id, principal_id)
      end
    else if String.eqb principal_type "ServicePrincipal" then
      send (GraphApplication principal_id) ;;;
      match applications_get d principal_id with
      | Returned app =>
          ret (Py.or_else (app_display_name app) principal_id,
               Py.or_else (app_app_id app) principal_id)
      | Raised _ => ret (principal_id, principal_id)
      end
    else ret (principal_id, principal_id)
  else ret (principal_id, principal_id).

Definition cache_store (principal_id : string) (result : string * string) : M unit :=
  fun w => (tt, set_principal_cache (<[principal_id := result]> (principal_cache w)) w).

Definition resolve_principal (h : host) (d : directory)
  (principal_id principal_type : string) (no_resolve redact : bool)
  : M (string * string) :=
  fun w =>
    match principal_cache w !! principal_id with
    | Some cached => (cached, w)
    | None =>
        (if no_resolve then
           let result :=
             if redact then (REDACTED, REDACTED) else (principal_id, principal_id) in
           cache_store principal_id result ;;; ret result
         else
           let* resolved := directory_lookup h d principal_id principal_type in
           let result := if redact then (REDACTED, REDACTED) else resolved in
           cache_store principal_id result ;;; ret result) w
    end.

(** ** [expand_group_members] *)
Record member : Type := {
  memberPrincipalId : string;
  memberType : string;
  memberDisplayName : string;
  memberUPN : Py.value
}.

Definition member_of (m : member_obj) : member :=
  {| memberPrincipalId := m_id m;
     memberType :=
       Py.replace "#microsoft.graph." ""
         (Py.str (Py.get_or "@odata.type" (Py.VStr "Unknown") (m_additional_data m)));
     memberDisplayName := Py.or_else (m_display_name m) (m_id m);
     memberUPN :=
       match m_user_principal_name m with
       | Some upn => Py.of_opt upn
       | None => Py.VStr ""
       end |}.

Definition expand_group_members (h : host) (d : directory) (group_id : string)
  (top : Z) (mode : membership_mode) : M (list member) :=
  if negb (HAS_GRAPH h) then
    warning "Microsoft Graph SDK not available for group expansion" ;;; ret []
  else
    let response :=
      match mode with
      | direct => members_get d group_id
      | transitive => transitive_members_get d group_id
      end in
    send (match mode with
          | direct => GraphMembers group_id
          | transitive => GraphTransitiveMembers group_id
          end) ;;;
    match response with
    | Returned (Some value) => ret (map member_of (Py.slice_to top value))
    | Returned None => ret []
    | Raised e =>
        warning ("Failed to expand group " +:+ group_id +:+ ": " +:+ e) ;;; ret []
    end.

(** ** [check_large_tenant_thresholds] *)
Definition total_rg_count (resource_groups_per_sub : Py.dict (list resource_group)) : Z :=
  fold_right Z.add 0
    (map (fun rgs => Z.of_nat (length rgs)) (Py.values resource_groups_per_sub)).

Definition check_large_tenant_thresholds (subscriptions : list subscription)
  (resource_groups_per_sub : Py.dict (list resource_group)) (args : Args.t) : M bool :=
  let sub_count := Z.of_nat (length subscriptions) in
  let total_rg_count := total_rg_count resource_groups_per_sub in
  if (LARGE_SUBSCRIPTION_THRESHOLD <? sub_count)
     || (LARGE_RESOURCE_GROUP_THRESHOLD <? total_rg_count)
     || (Args.include_resources args && negb (Args.has_subscriptions args))
  then
    if negb (Args.confirm_large_scan args) then
      warning "LARGE TENANT DETECTED - Safety rail triggered!" ;;;
      warning ("  Subscriptions: " +:+ Py.str_of_Z sub_count +:+ " (threshold: "
               +:+ Py.str_of_Z LARGE_SUBSCRIPTION_THRESHOLD +:+ ")") ;;;
      warning ("  Resource Groups: " +:+ Py.str_of_Z total_rg_count +:+ " (threshold: "
               +:+ Py.str_of_Z LARGE_RESOURCE_GROUP_THRESHOLD +:+ ")") ;;;
      warning "  Use --confirm-large-scan to proceed with large tenant enumeration" ;;;
      ret false
    else ret true
  else ret true.

(** ** The emitters

    Each of the four writers starts with the same redaction block: a copy
    of every row in which [principalUPNOrAppId] and [memberUPN], when the
    row has them, are overwritten with the sentinel. *)
Definition redact_row (r : row) : row :=
  fold_left
    (fun redacted_row key =>
       if Py.has key redacted_row
       then Py.set key (Py.VStr REDACTED) redacted_row
       else redacted_row)
    ["principalUPNOrAppId"; "memberUPN"]%string r.

Definition redact_rows (data : list row) : list row := map redact_row data.

Definition put_file (filename : string) (a : artifact) : M unit :=
  fun w => (tt, set_files (<[filename := a]> (files w)) w).

Definition nl : string := String "010"%char EmptyString.

(** *** [write_csv]

    [csv.DictWriter] with the first row's keys as field names and the
    default [extrasaction='raise']: a record is the row's values in header
    order, [''] for a missing key, and a row with a key outside the header
    raises [ValueError], whose text lists the offending keys in the order
    a [set] yields them. [writerows] consumes the rows one by one, so the
    rows before the offending one are in the file when the exception
    reaches the handler of [write_csv]. *)
Definition csv_cell (v : Py.value) : string :=
  match v with
  | Py.VNone => ""
  | _ => Py.str v
  end.

Definition wrong_fields (fieldnames : list string) (rowdict : row) : list string :=
  List.filter (fun k => negb (Py.mem k fieldnames)) (Py.keys rowdict).

Definition dict_to_list (fieldnames : list string) (rowdict : row) : list string :=
  map (fun key => csv_cell (Py.get_or key (Py.VStr "") rowdict)) fieldnames.

Fixpoint writerows (h : host) (fieldnames : list string) (rowdicts : list row)
  : list (list string) * option string :=
  match rowdicts with
  | [] => ([], None)
  | rowdict :: rest =>
      match wrong_fields fieldnames rowdict with
      | [] =>
          let (written, exn) := writerows h fieldnames rest in
          (dict_to_list fieldnames rowdict :: written, exn)
      | wrong =>
          ([], Some ("dict contains fields not in fieldnames: "
                     +:+ Py.join ", " (map Py.repr_str (set_order h wrong))))
      end
  end.

Definition write_csv (h : host) (data : list row) (filename : string) (redact : bool)
  : M unit :=
  match data with
  | [] => warning ("No data to write to " +:+ filename)
  | _ :: _ =>
      let data := if redact then redact_rows data else data in
      match open_error h filename with
      | Some e => error ("Failed to write CSV " +:+ filename +:+ ": " +:+ e)
      | None =>
          let fieldnames := match data with r0 :: _ => Py.keys r0 | [] => [] end in
          let (records, exn) := writerows h fieldnames data in
          put_file filename (CsvFile fieldnames records) ;;;
          match exn with
          | Some e => error ("Failed to write CSV " +:+ filename +:+ ": " +:+ e)
          | None => ret tt
          end
      end
  end.

(** *** [write_xlsx]

    [openpyxl], when it is there, has its [Workbook]. The workbook lives
    in memory until [wb.save]: [ws.append] raises at the first cell
    [openpyxl] refuses, before anything is saved, and [wb.save] raises on a
    path that cannot be written. *)
Definition first_error {A} (f : A -> option string) (l : list A) : option string :=
  fold_right (fun x rest => match f x with Some e => Some e | None => rest end) None l.

(** [ws.append(cells)] *)
Definition append_error (h : host) (cells : list Py.value) : option string :=
  first_error (cell_error h) cells.

Definition write_xlsx (h : host) (data : list row) (filename : string) (redact : bool)
  : M unit :=
  if negb (HAS_OPENPYXL h) then ret tt
  else
    match data with
    | [] => warning ("No data to write to " +:+ filename)
    | _ :: _ =>
        let data := if redact then redact_rows data else data in
        let headers := match data with r0 :: _ => Py.keys r0 | [] => [] end in
        let sheet :=
          map Py.VStr headers
          :: map (fun r => map (fun header => Py.get_or header (Py.VStr "") r) headers) data in
        match first_error (append_error h) sheet with
        | Some e => error ("Failed to write XLSX " +:+ filename +:+ ": " +:+ e)
        | None =>
            match open_error h filename with
            | Some e => error ("Failed to write XLSX " +:+ filename +:+ ": " +:+ e)
            | None => put_file filename (XlsxFile sheet)
            end
        end
    end.

(** *** [write_markdown] *)
Definition markdown_row (headers : list string) (r : row) : string :=
  "| " +:+ Py.join " | " (map (fun header => Py.str (Py.get_or header (Py.VStr "") r)) headers)
  +:+ " |" +:+ nl.

Definition markdown_head (headers : list string) : list string :=
  [ "| " +:+ Py.join " | " headers +:+ " |" +:+ nl;
    "|" +:+ Py.join "|" (map (fun _ => "---") headers) +:+ "|" +:+ nl ]%string.

Definition markdown_footer (shown total : nat) : string :=
  nl +:+ "*Showing first " +:+ Py.str_of_nat shown +:+ " rows of "
  +:+ Py.str_of_nat total +:+ " total*" +:+ nl.

Definition write_markdown (h : host) (data : list row) (filename : string) (top : Z)
  (redact : bool) : M unit :=
  match data with
  | [] => warning ("No data to write to " +:+ filename)
  | _ :: _ =>
      let limited_data := Py.slice_to top data in
      let limited_data := if redact then redact_rows limited_data else limited_data in
      match open_error h filename with
      | Some e => error ("Failed to write Markdown " +:+ filename +:+ ": " +:+ e)
      | None =>
          let footer := markdown_footer (length limited_data) (length data) in
          match limited_data with
          | r0 :: _ =>
              let headers := Py.keys r0 in
              put_file filename
                (MarkdownFile (markdown_head headers)
                              (map (markdown_row headers) limited_data) footer)
          | [] => put_file filename (MarkdownFile [] [] footer)
          end
      end
  end.

(** The text of a Markdown file. *)
Definition markdown_text (head data_rows : list string) (footer : string) : string :=
  fold_right String.append EmptyString (head ++ data_rows ++ [footer]).

(** *** [write_json] *)
Definition write_json (h : host) (data : list row) (filename : string) (redact : bool)
  : M unit :=
  match data with
  | [] => warning ("No data to write to " +:+ filename)
  | _ :: _ =>
      let data := if redact then redact_rows data else data in
      match open_error h filename with
      | Some e => error ("Failed to write JSON " +:+ filename +:+ ": " +:+ e)
      | None => put_file filename (JsonFile data)
      end
  end.

(** *** [write_index_file] *)
Definition write_index_file (h : host) (ix : index_data) (filename : string) : M unit :=
  match open_error h filename with
  | Some e => error ("Failed to write index file " +:+ filename +:+ ": " +:+ e)
  | None => put_file filename (IndexFile ix)
  end.

(* ===================================================================== *)
(** * [logging_utils] *)
(* ===================================================================== *)

(** The value of a statement that may raise. *)
Inductive result (A : Type) : Type :=
  | Ok (a : A)
  | Exc (e : string).
Arguments Ok {A} a.
Arguments Exc {A} e.

(** ** [init_logging]

    The log directory is [logs/<date>]; the text log, the JSON-lines log
    and the summary are named after the script and the run. The directory
    is made first, then each [FileHandler] opens its file; an exception
    from any of the three leaves [init_logging], with what was done before
    it in place. *)
Record log_paths : Type := {
  lp_text : string;
  lp_jsonl : string;
  lp_summary : string
}.

Definition logs_dir (h : host) : Path.t := Path.join (Path.of_str "logs") (utc_date h).

Definition log_paths_of (h : host) (script_name : string) : log_paths :=
  let stem := Py.replace "/" "_" script_name +:+ "_" +:+ run_id h in
  {| lp_text := Path.str (Path.join (logs_dir h) (stem +:+ ".log"));
     lp_jsonl := Path.str (Path.join (logs_dir h) (stem +:+ ".jsonl"));
     lp_summary := Path.str (Path.join (logs_dir h) (stem +:+ "_summary.json")) |}.

Definition init_logging (h : host) (script_name : string) : M (result log_paths) :=
  let paths := log_paths_of h script_name in
  match mkdir_error h (Path.str (logs_dir h)) with
  | Some e => ret (Exc e)
  | None =>
      emit (LogDirectory (Path.str (logs_dir h))) ;;;
      match open_error h (lp_text paths) with
      | Some e => ret (Exc e)
      | None =>
          emit (LogFile (lp_text paths)) ;;;
          match open_error h (lp_jsonl paths) with
          | Some e => ret (Exc e)
          | None => emit (LogFile (lp_jsonl paths)) ;;; ret (Ok paths)
          end
      end
  end.

(** ** [write_summary]

    Making the parent directory, opening the file and dumping the document
    are inside one [try]: a failure is logged and the summary is not
    written. *)
Definition write_summary (h : host) (s : run_summary) (summary_path : string) : M unit :=
  match mkdir_error h (Path.str (Path.parent (Path.of_str summary_path))) with
  | Some e => error ("Failed to write summary: " +:+ e)
  | None =>
      match open_error h summary_path with
      | Some e => error ("Failed to write summary: " +:+ e)
      | None => fun w => (tt, set_summary (Some s) w)
      end
  end.

(** ** [new_output_paths]

    [mkdir] is not guarded: its exception leaves the function. *)
Record output_paths : Type := {
  op_base : string;
  op_role_definitions : string;
  op_role_assignments : string;
  op_role_assignments_xlsx : string;
  op_role_assignments_md : string;
  op_index : string
}.

Definition new_output_paths (h : host) (base_path : option string)
  : M (result output_paths) :=
  let base_path :=
    match base_path with
    | Some p => p
    | None => "output/azure/export_rbac_roles_and_assignments_" +:+ utc_timestamp h
    end in
  let output_dir := Path.of_str base_path in
  match mkdir_error h (Path.str output_dir) with
  | Some e => ret (Exc e)
  | None =>
      fun w =>
        (Ok {| op_base := Path.str output_dir;
               op_role_definitions := Path.str (Path.join output_dir "role_definitions.csv");
               op_role_assignments := Path.str (Path.join output_dir "role_assignments.csv");
               op_role_assignments_xlsx :=
                 Path.str (Path.join output_dir "role_assignments.xlsx");
               op_role_assignments_md := Path.str (Path.join output_dir "role_assignments.md");
               op_index := Path.str (Path.join output_dir "index.json") |},
         set_dirs (dirs w ++ [Path.str output_dir]) w)
  end.

(* ===================================================================== *)
(** * [main] *)
(* ===================================================================== *)

(** How the process ends: [sys.exit(code)], or an exception nothing
    catches. *)
Inductive outcome : Type :=
  | Exit (code : Z)
  | Uncaught (exn : string).

(** [r[k]]: a missing key raises [KeyError], whose text is the quoted
    key. *)
Definition item (k : string) (r : row) : result Py.value :=
  match Py.get k r with
  | Some v => Ok v
  | None => Exc ("'" +:+ k +:+ "'")
  end.

(** Loops with [break]. *)
Inductive ctl : Type :=
  | Continue
  | Break.

Fixpoint for_each {A S} (body : A -> S -> M (S * ctl)) (l : list A) (s : S) : M S :=
  match l with
  | [] => ret s
  | x :: l' =>
      let* sc := body x s in
      match snd sc with
      | Break => ret (fst sc)
      | Continue => for_each body l' (fst sc)
      end
  end.

(** The locals of [main] that the traversal fills. *)
Record collected : Type := mkCollected {
  all_role_definitions : list row;
  all_role_assignments : list row;
  processed_management_groups : Z;
  processed_subscriptions : Z;
  processed_resource_groups : Z;
  scopes_skipped : list string;
  errors : list string;
  warnings : list string
}.

Definition nothing_collected : collected := mkCollected [] [] 0 0 0 [] [] [].

Definition extend_role_definitions (role_defs : list row) (c : collected) : collected :=
  mkCollected (all_role_definitions c ++ role_defs) (all_role_assignments c)
    (processed_management_groups c) (processed_subscriptions c)
    (processed_resource_groups c) (scopes_skipped c) (errors c) (warnings c).

Definition extend_role_assignments (assignments : list row) (c : collected) : collected :=
  mkCollected (all_role_definitions c) (all_role_assignments c ++ assignments)
    (processed_management_groups c) (processed_subscriptions c)
    (processed_resource_groups c) (scopes_skipped c) (errors c) (warnings c).

Definition set_all_role_assignments (assignments : list row) (c : collected) : collected :=
  mkCollected (all_role_definitions c) assignments
    (processed_management_groups c) (processed_subscriptions c)
    (processed_resource_groups c) (scopes_skipped c) (errors c) (warnings c).

Definition count_management_group (c : collected) : collected :=
  mkCollected (all_role_definitions c) (all_role_assignments c)
    (processed_management_groups c + 1) (processed_subscriptions c)
    (processed_resource_groups c) (scopes_skipped c) (errors c) (warnings c).

Definition count_subscription (c : collected) : collected :=
  mkCollected (all_role_definitions c) (all_role_assignments c)
    (processed_management_groups c) (processed_subscriptions c + 1)
    (processed_resource_groups c) (scopes_skipped c) (errors c) (warnings c).

Definition count_resource_group (c : collected) : collected :=
  mkCollected (all_role_definitions c) (all_role_assignments c)
    (processed_management_groups c) (processed_subscriptions c)
    (processed_resource_groups c + 1) (scopes_skipped c) (errors c) (warnings c).

(** The handler of a per-scope [try]: the message goes to the log and to
    [errors], the tag to [scopes_skipped]. *)
Definition skip_scope (error_msg tag : string) (c : collected) : M collected :=
  error error_msg ;;;
  ret (mkCollected (all_role_definitions c) (all_role_assignments c)
         (processed_management_groups c) (processed_subscriptions c)
         (processed_resource_groups c) (scopes_skipped c ++ [tag])
         (errors c ++ [error_msg]) (warnings c)).

(** "Mark inherited assignments": the loop run on the rows a query
    returned, before they are merged. The subscript raises on a row
    without a [scope]. *)
Fixpoint mark_inherited (scope : string) (assignments : list row) : result (list row) :=
  match assignments with
  | [] => Ok []
  | assignment :: rest =>
      match item "scope" assignment with
      | Exc e => Exc e
      | Ok s =>
          let assignment :=
            if bool_decide (s <> Py.VStr scope)
            then Py.set "inherited" (Py.VBool true) assignment
            else assignment in
          match mark_inherited scope rest with
          | Exc e => Exc e
          | Ok rest => Ok (assignment :: rest)
          end
      end
  end.

(** One turn of "Process management groups". *)
Definition process_management_group (args : Args.t) (t : tenant)
  (mg : management_group) (c : collected) : M (collected * ctl) :=
  let mg_id := mg_name mg in
  let scope := "/providers/Microsoft.Management/managementGroups/" +:+ mg_id in
  let* role_defs := get_role_definitions t scope in
  let c := extend_role_definitions role_defs c in
  let* assignments := get_role_assignments t scope true in
  match mark_inherited scope assignments with
  | Ok assignments =>
      let c := count_management_group (extend_role_assignments assignments c) in
      if Py.limit_reached (Args.limit args) (processed_management_groups c)
      then ret (c, Break)
      else ret (c, Continue)
  | Exc e =>
      let* c := skip_scope ("Failed to process management group " +:+ mg_name mg +:+ ": " +:+ e)
                           ("MG:" +:+ mg_name mg) c in
      ret (c, Continue)
  end.

(** One turn of the loop over the resource groups of a subscription. *)
Definition process_resource_group (args : Args.t) (t : tenant) (sub_id : string)
  (rg : resource_group) (c : collected) : M (collected * ctl) :=
  let rg_scope := "/subscriptions/" +:+ sub_id +:+ "/resourceGroups/" +:+ rg_name rg in
  let* rg_assignments := get_role_assignments t rg_scope true in
  match mark_inherited rg_scope rg_assignments with
  | Ok rg_assignments =>
      let c := count_resource_group (extend_role_assignments rg_assignments c) in
      if Py.limit_reached (Args.limit args) (processed_resource_groups c)
      then ret (c, Break)
      else ret (c, Continue)
  | Exc e =>
      let* c := skip_scope ("Failed to process resource group " +:+ rg_name rg +:+ " in "
                            +:+ sub_id +:+ ": " +:+ e)
                           ("RG:" +:+ rg_name rg +:+ ":" +:+ sub_id) c in
      ret (c, Continue)
  end.

(** One turn of "Process subscriptions". *)
Definition process_subscription (args : Args.t) (t : tenant)
  (resource_groups_per_sub : Py.dict (list resource_group))
  (sub : subscription) (c : collected) : M (collected * ctl) :=
  let sub_id := sub_subscription_id sub in
  let scope := "/subscriptions/" +:+ sub_id in
  let* role_defs := get_role_definitions t scope in
  let c := extend_role_definitions role_defs c in
  let* assignments := get_role_assignments t scope true in
  match mark_inherited scope assignments with
  | Ok assignments =>
      let c := count_subscription (extend_role_assignments assignments c) in
      let* c :=
        match Py.get sub_id resource_groups_per_sub with
        | Some rgs =>
            if Args.include_resources args
            then for_each (process_resource_group args t sub_id) rgs c
            else ret c
        | None => ret c
        end in
      if Py.limit_reached (Args.limit args) (processed_subscriptions c)
      then ret (c, Break)
      else ret (c, Continue)
  | Exc e =>
      let* c := skip_scope ("Failed to process subscription " +:+ sub_subscription_id sub
                            +:+ ": " +:+ e)
                           ("SUB:" +:+ sub_subscription_id sub) c in
      ret (c, Continue)
  end.

(** "Collect all data": the traversal of the scopes. *)
Definition aggregate (args : Args.t) (t : tenant)
  (management_groups : list management_group) (subscriptions : list subscription)
  (resource_groups_per_sub : Py.dict (list resource_group)) : M collected :=
  let* c :=
    if Args.traverse_management_groups args
    then for_each (process_management_group args t) management_groups nothing_collected
    else ret nothing_collected in
  for_each (process_subscription args t resource_groups_per_sub) subscriptions c.

(** ** After the traversal *)

(** [r[k]] where the row holds a [str] (the rows built by
    [role_assignment_row] do, under [principalId] and [principalType]);
    any other value is read through [str]. *)
Definition item_str (k : string) (r : row) : result string :=
  match item k r with
  | Ok v => Ok (Py.str v)
  | Exc e => Exc e
  end.

(** One turn of "Resolve principal names". The handler logs at [debug],
    formatting [assignment['principalId']] again: when that subscript is
    what raised, it raises once more and nothing catches it. *)
Definition resolve_assignment (args : Args.t) (h : host) (d : directory)
  (assignment : row) : M (result row) :=
  match item_str "principalId" assignment with
  | Exc e => ret (Exc e)
  | Ok principal_id =>
      match item_str "principalType" assignment with
      | Exc _ => ret (Ok assignment)
      | Ok principal_type =>
          let* resolved :=
            resolve_principal h d principal_id principal_type
              (Args.no_resolve_principals args) (Args.redact args) in
          ret (Ok (Py.set "principalUPNOrAppId" (Py.VStr (snd resolved))
                     (Py.set "principalDisplayName" (Py.VStr (fst resolved)) assignment)))
      end
  end.

(** A loop that rewrites the rows in place and stops at the first
    exception that escapes its body. *)
Fixpoint for_rows (body : row -> M (result row)) (rows : list row)
  : M (result (list row)) :=
  match rows with
  | [] => ret (Ok [])
  | r :: rest =>
      let* r' := body r in
      match r' with
      | Exc e => ret (Exc e)
      | Ok r' =>
          let* rest' := for_rows body rest in
          match rest' with
          | Exc e => ret (Exc e)
          | Ok rest' => ret (Ok (r' :: rest'))
          end
      end
  end.

Definition resolve_principals (args : Args.t) (h : host) (d : directory)
  (assignments : list row) : M (result (list row)) :=
  match assignments with
  | _ :: _ =>
      if negb (Args.no_resolve_principals args)
      then for_rows (resolve_assignment args h d) assignments
      else ret (Ok assignments)
  | [] => ret (Ok assignments)
  end.

(** One turn of "Expand group members". Both subscripts escape: the first
    is outside the [try], the second is repeated by the handler. *)
Definition expand_assignment (args : Args.t) (h : host) (d : directory)
  (assignment : row) : M (result row) :=
  match item "principalType" assignment with
  | Exc e => ret (Exc e)
  | Ok principal_type =>
      if bool_decide (principal_type = Py.VStr "Group") then
        match item_str "principalId" assignment with
        | Exc e => ret (Exc e)
        | Ok principal_id =>
            let* members :=
              expand_group_members h d principal_id
                (Args.group_members_top args) (Args.group_membership_mode args) in
            match members with
            | first_member :: _ =>
                ret (Ok (Py.update
                           [ ("memberPrincipalId", Py.VStr (memberPrincipalId first_member));
                             ("memberType", Py.VStr (memberType first_member));
                             ("memberDisplayName", Py.VStr (memberDisplayName first_member));
                             ("memberUPN",
                                if Args.redact args then Py.VStr REDACTED
                                else memberUPN first_member) ]
                           (Py.set "memberCount" (Py.VInt (Z.of_nat (length members)))
                              assignment)))
            | [] => ret (Ok assignment)
            end
        end
      else ret (Ok assignment)
  end.

Definition expand_groups (args : Args.t) (h : host) (d : directory)
  (assignments : list row) : M (result (list row)) :=
  match assignments with
  | _ :: _ =>
      if Args.expand_group_members args
      then for_rows (expand_assignment args h d) assignments
      else ret (Ok assignments)
  | [] => ret (Ok assignments)
  end.

(** "Write per-subscription files": the rows by [subscriptionId], in order
    of first appearance. *)
Definition group_by_subscription (assignments : list row) : Py.dict (list row) :=
  fold_left
    (fun sub_assignments assignment =>
       let sub_id := Py.get_or "subscriptionId" (Py.VStr "") assignment in
       if Py.truthy sub_id
       then Py.set (Py.str sub_id)
              (Py.get_or (Py.str sub_id) [] sub_assignments ++ [assignment])%list
              sub_assignments
       else sub_assignments)
    assignments [].

Fixpoint write_per_subscription (args : Args.t) (h : host) (paths : output_paths)
  (sub_assignments : Py.dict (list row)) : M unit :=
  match sub_assignments with
  | [] => ret tt
  | (sub_id, assignments) :: rest =>
      let sub_file :=
        Py.replace ".csv" ("_" +:+ sub_id +:+ ".csv") (op_role_assignments paths) in
      write_csv h assignments sub_file (Args.redact args) ;;;
      (if HAS_OPENPYXL h
       then write_xlsx h assignments (Py.replace ".csv" ".xlsx" sub_file) (Args.redact args)
       else ret tt) ;;;
      write_per_subscription args h paths rest
  end.

(** "Write outputs" up to the index file. *)
Definition write_outputs (args : Args.t) (h : host) (paths : output_paths)
  (c : collected) : M unit :=
  write_csv h (all_role_definitions c) (op_role_definitions paths) (Args.redact args) ;;;
  write_csv h (all_role_assignments c) (op_role_assignments paths) (Args.redact args) ;;;
  (if HAS_OPENPYXL h
   then write_xlsx h (all_role_assignments c) (op_role_assignments_xlsx paths)
          (Args.redact args)
   else ret tt) ;;;
  (if 0 <? Args.markdown_top args
   then write_markdown h (all_role_assignments c) (op_role_assignments_md paths)
          (Args.markdown_top args) (Args.redact args)
   else ret tt) ;;;
  (if Args.json args
   then
     write_json h (all_role_definitions c)
       (Py.replace ".csv" ".json" (op_role_definitions paths)) (Args.redact args) ;;;
     write_json h (all_role_assignments c)
       (Py.replace ".csv" ".json" (op_role_assignments paths)) (Args.redact args)
   else ret tt) ;;;
  let sub_assignments := group_by_subscription (all_role_assignments c) in
  write_per_subscription args h paths sub_assignments ;;;
  write_index_file h
    {| ix_role_definitions_csv := op_role_definitions paths;
       ix_role_assignments_csv := op_role_assignments paths;
       ix_role_assignments_xlsx :=
         if HAS_OPENPYXL h then Some (op_role_assignments_xlsx paths) else None;
       ix_role_assignments_md :=
         if 0 <? Args.markdown_top args then Some (op_role_assignments_md paths) else None;
       ix_rows_role_definitions := length (all_role_definitions c);
       ix_rows_role_assignments := length (all_role_assignments c);
       ix_per_subscription :=
         map (fun kv => (fst kv, length (snd kv))) sub_assignments |}
    (op_index paths).

(** The name [main] gives [init_logging]. *)
Definition script_name : string := "azure/export_rbac_roles_and_assignments".

(** The summary and the exit code. The summary goes to
    [log_paths['summary']], the path [init_logging] returned. *)
Definition finish (args : Args.t) (h : host) (cred : credential) (c : collected)
  : M outcome :=
  write_summary h
    {| sm_processed_management_groups := processed_management_groups c;
       sm_processed_subscriptions := processed_subscriptions c;
       sm_processed_resource_groups := processed_resource_groups c;
       sm_scopes_skipped := scopes_skipped c;
       sm_roles_count := length (all_role_definitions c);
       sm_assignments_count := length (all_role_assignments c);
       sm_warnings := warnings c;
       sm_errors := errors c;
       sm_success := bool_decide (errors c = []);
       sm_credential_type := credential_name cred;
       sm_arguments := args |}
    (lp_summary (log_paths_of h script_name)) ;;;
  match errors c with
  | _ :: _ =>
      error ("Run completed with " +:+ Py.str_of_nat (length (errors c)) +:+ " errors") ;;;
      ret (Exit 1)
  | [] =>
      match warnings c, scopes_skipped c with
      | [], [] => ret (Exit 0)
      | _, _ =>
          warning ("Run completed with " +:+ Py.str_of_nat (length (warnings c))
                   +:+ " warnings") ;;;
          ret (Exit 2)
      end
  end.

(** ** The phases of [main] *)

(** "Get resource groups per subscription". *)
Definition enumerate_resource_groups (args : Args.t) (t : tenant)
  (subscriptions : list subscription) : M (Py.dict (list resource_group)) :=
  if Args.include_resources args || Py.limit_set (Args.limit args) then
    for_each
      (fun sub resource_groups_per_sub =>
         let sub_id := sub_subscription_id sub in
         let* rgs := get_resource_groups t sub_id in
         let resource_groups_per_sub := Py.set sub_id rgs resource_groups_per_sub in
         if Py.limit_reached (Args.limit args)
              (Z.of_nat (length resource_groups_per_sub))
         then ret (resource_groups_per_sub, Break)
         else ret (resource_groups_per_sub, Continue))
      subscriptions []
  else ret [].

(** Where a run stands when it reaches the safety rail, or the code it
    has already exited with, or the exception that has ended it. *)
Inductive stage : Type :=
  | Aborted (code : Z)
  | Crashed (exn : string)
  | Discovered (args : Args.t) (cred : credential)
      (management_groups : list management_group)
      (subscriptions : list subscription)
      (resource_groups_per_sub : Py.dict (list resource_group)).

(** "Check if bootstrap is requested": the stage the run ends in, if it
    ends here. Nothing guards [subprocess.run]. *)
Definition bootstrap (args : Args.t) (h : host) : option stage :=
  if Args.bootstrap args then
    match which_pwsh h with
    | None => Some (Aborted 1)
    | Some pwsh =>
        match bootstrap_run h with
        | Raised e => Some (Crashed e)
        | Returned returncode =>
            if negb (returncode =? 0) then Some (Aborted 1) else None
        end
    end
  else None.

(** "Get management groups if requested", "Get subscriptions" and "Get
    resource groups per subscription". *)
Definition discover (args : Args.t) (t : tenant) (cred : credential) : M stage :=
  let* management_groups :=
    if Args.traverse_management_groups args
    then
      let* mgs := get_management_groups t in
      match mgs with
      | [] => warning "No management groups found or access denied" ;;; ret mgs
      | _ :: _ => ret mgs
      end
    else ret [] in
  let* subscriptions :=
    if Args.has_subscriptions args
    then get_subscriptions t (Args.subscriptions args)
    else if Args.discover_subscriptions args
            || Args.traverse_management_groups args
    then get_subscriptions t None
    else ret [] in
  match subscriptions with
  | [] => error "No subscriptions found or accessible" ;;; ret (Aborted 1)
  | _ :: _ =>
      let* resource_groups_per_sub :=
        enumerate_resource_groups args t subscriptions in
      ret (Discovered args cred management_groups subscriptions
             resource_groups_per_sub)
  end.

(** From the command line to the end of discovery. Neither
    [subprocess.run] nor [init_logging] is inside a [try]. *)
Definition main_until_rail (args : Args.t) (h : host) (t : tenant) : M stage :=
  match validate_arguments args with
  | inl code => ret (Aborted code)
  | inr args =>
      match bootstrap args h with
      | Some st => ret st
      | None =>
          let* logging := init_logging h script_name in
          match logging with
          | Exc e => ret (Crashed e)
          | Ok log_paths =>
              let* credential := preflight_check h in
              match credential with
              | None => ret (Aborted 1)
              | Some cred => discover args t cred
              end
          end
      end
  end.

(** The merged collection the emitters receive: the traversal, then the
    principal names, then the group members. *)
Definition collect (args : Args.t) (h : host) (t : tenant) (d : directory)
  (management_groups : list management_group) (subscriptions : list subscription)
  (resource_groups_per_sub : Py.dict (list resource_group)) : M (result collected) :=
  let* c := aggregate args t management_groups subscriptions resource_groups_per_sub in
  let* resolved := resolve_principals args h d (all_role_assignments c) in
  match resolved with
  | Exc e => ret (Exc e)
  | Ok assignments =>
      let* expanded := expand_groups args h d assignments in
      match expanded with
      | Exc e => ret (Exc e)
      | Ok assignments => ret (Ok (set_all_role_assignments assignments c))
      end
  end.

(** From "Generate output paths" to the end. [new_output_paths] is not
    inside a [try] either. *)
Definition main_after_rail (args : Args.t) (h : host) (t : tenant) (d : directory)
  (cred : credential) (management_groups : list management_group)
  (subscriptions : list subscription)
  (resource_groups_per_sub : Py.dict (list resource_group)) : M outcome :=
  let* output_paths := new_output_paths h (Args.output_path args) in
  match output_paths with
  | Exc e => ret (Uncaught e)
  | Ok paths =>
      let* collected :=
        collect args h t d management_groups subscriptions resource_groups_per_sub in
      match collected with
      | Exc e => ret (Uncaught e)
      | Ok c =>
          write_outputs args h paths c ;;;
          finish args h cred c
      end
  end.

(** "Check large tenant thresholds" and what follows. *)
Definition main_from_rail (args : Args.t) (h : host) (t : tenant) (d : directory)
  (cred : credential) (management_groups : list management_group)
  (subscriptions : list subscription)
  (resource_groups_per_sub : Py.dict (list resource_group)) : M outcome :=
  let* proceed := check_large_tenant_thresholds subscriptions resource_groups_per_sub args in
  if negb proceed then
    error "Large tenant safety rail triggered - exiting" ;;; ret (Exit 2)
  else
    main_after_rail args h t d cred management_groups subscriptions resource_groups_per_sub.

Definition main (args : Args.t) (h : host) (t : tenant) (d : directory) : M outcome :=
  let* st := main_until_rail args h t in
  match st with
  | Aborted code => ret (Exit code)
  | Crashed e => ret (Uncaught e)
  | Discovered args cred management_groups subscriptions resource_groups_per_sub =>
      main_from_rail args h t d cred management_groups subscriptions resource_groups_per_sub
  end.

(* ===================================================================== *)
(** * Sample tenants and runs *)
(* ===================================================================== *)

Module Sample.

Definition mg1_scope : string := "/providers/Microsoft.Management/managementGroups/mg1".
Definition abc_scope : string := "/subscriptions/abc".
Definition rg1_scope : string := "/subscriptions/abc/resourceGroups/rg1".

Definition sub_abc : subscription :=
  {| sub_id := abc_scope; sub_subscription_id := "abc";
     sub_display_name := "Production"; sub_state := "Enabled" |}.

(** Two assignments the provider returns for a query at [abc_scope]: one
    made at the subscription, one made at the management group above it
    and reaching the subscription by inheritance. Neither carries
    [additional_properties]. *)
Definition native_assignment : role_assignment_obj :=
  {| ra_id := abc_scope +:+ "/providers/Microsoft.Authorization/roleAssignments/a1";
     ra_scope := abc_scope;
     ra_role_definition_id := "/providers/Microsoft.Authorization/roleDefinitions/reader";
     ra_principal_id := "p-user";
     ra_principal_type := Some "User";
     ra_additional_properties := None;
     ra_condition := None;
     ra_condition_version := None;
     ra_created_on := Some "2024-01-01T00:00:00" |}.

Definition inherited_assignment : role_assignment_obj :=
  {| ra_id := mg1_scope +:+ "/providers/Microsoft.Authorization/roleAssignments/a2";
     ra_scope := mg1_scope;
     ra_role_definition_id := "/providers/Microsoft.Authorization/roleDefinitions/owner";
     ra_principal_id := "p-group";
     ra_principal_type := Some "Group";
     ra_additional_properties := None;
     ra_condition := None;
     ra_condition_version := None;
     ra_created_on := None |}.

Definition reader_role : role_definition_obj :=
  {| rd_role_name := Some "Reader";
     rd_id := "/providers/Microsoft.Authorization/roleDefinitions/reader";
     rd_role_type := Some "BuiltInRole";
     rd_description := Some "View all resources";
     rd_permissions := Some 1%nat;
     rd_assignable_scopes := Some ["/"]%string |}.

(** A tenant with the single subscription [abc]. *)
Definition small_tenant : tenant :=
  {| management_groups_list := Returned [];
     subscriptions_list := Returned [sub_abc];
     resource_groups_list := fun _ => Returned [];
     role_definitions_list := fun _ => Returned [reader_role];
     role_assignments_list_for_scope := fun scope _ =>
       if String.eqb scope abc_scope
       then Returned [native_assignment; inherited_assignment]
       else Returned [] |}.

(** The same tenant when the assignments of [abc] cannot be listed. *)
Definition failing_tenant : tenant :=
  {| management_groups_list := Returned [];
     subscriptions_list := Returned [sub_abc];
     resource_groups_list := fun _ => Returned [];
     role_definitions_list := fun _ => Returned [reader_role];
     role_assignments_list_for_scope := fun _ _ => Raised "(AuthorizationFailed)" |}.

(** A tenant with [n] subscriptions [s0], [s1], ... and nothing in them. *)
Definition numbered_sub (i : nat) : subscription :=
  let name := "s" +:+ Py.str_of_nat i in
  {| sub_id := "/subscriptions/" +:+ name; sub_subscription_id := name;
     sub_display_name := name; sub_state := "Enabled" |}.

Definition wide_tenant (n : nat) : tenant :=
  {| management_groups_list := Returned [];
     subscriptions_list := Returned (map numbered_sub (seq 0 n));
     resource_groups_list := fun _ => Returned [];
     role_definitions_list := fun _ => Returned [];
     role_assignments_list_for_scope := fun _ _ => Returned [] |}.

(** The tenant with the single subscription [abc] and [n] resource groups
    [rg0], [rg1], ... in it. *)
Definition numbered_rg (i : nat) : resource_group_obj :=
  let name := "rg" +:+ Py.str_of_nat i in
  {| rgo_id := "/subscriptions/abc/resourceGroups/" +:+ name; rgo_name := name;
     rgo_location := "westeurope" |}.

Definition deep_tenant (n : nat) : tenant :=
  {| management_groups_list := Returned [];
     subscriptions_list := Returned [sub_abc];
     resource_groups_list := fun _ => Returned (map numbered_rg (seq 0 n));
     role_definitions_list := fun _ => Returned [];
     role_assignments_list_for_scope := fun _ _ => Returned [] |}.

Definition a_directory : directory :=
  {| users_get := fun _ =>
       Returned {| u_display_name := Some "Ada"; u_user_principal_name := Some "ada@example.org" |};
     applications_get := fun _ => Raised "not found";
     members_get := fun _ =>
       Returned (Some [ {| m_id := "m1";
                           m_additional_data :=
                             [("@odata.type", Py.VStr "#microsoft.graph.user")];
                           m_display_name := Some "Bob";
                           m_user_principal_name := Some (Some "bob@example.org") |} ]);
     transitive_members_get := fun _ => Returned None |}.

(** [openpyxl] refuses a string with a control character other than
    [\t], [\n] and [\r]. *)
Definition illegal_character (c : ascii) : bool :=
  let n := nat_of_ascii c in
  (n <=? 8)%nat || (n =? 11)%nat || (n =? 12)%nat || ((14 <=? n)%nat && (n <=? 31)%nat).

Definition illegal_cell (v : Py.value) : option string :=
  match v with
  | Py.VStr s =>
      if existsb illegal_character (list_ascii_of_string s)
      then Some (s +:+ " cannot be used in worksheets.")
      else None
  | _ => None
  end.

(** A host on which everything works. *)
Definition a_host : host :=
  {| HAS_OPENPYXL := true;
     HAS_GRAPH := true;
     default_get_token := Returned tt;
     cli_get_token := Returned tt;
     which_pwsh := None;
     bootstrap_run := Returned 0;
     utc_date := "20240101";
     run_id := "0f8fad5b-d9cb-469f-a165-70867728950e";
     utc_timestamp := "20240101_000000";
     mkdir_error := fun _ => None;
     open_error := fun _ => None;
     cell_error := illegal_cell;
     set_order := fun l => l |}.

(** [--subscriptions abc --json --output-path out] *)
Definition args_abc : Args.t :=
  Args.mk (Some ["abc"]%string) false false false DEFAULT_MARKDOWN_TOP false false
          (Some "out") true DEFAULT_MAX_CONCURRENCY None false false
          DEFAULT_GROUP_MEMBERS_TOP direct true false.

(** [--discover-subscriptions], with or without [--confirm-large-scan]. *)
Definition args_discover (confirm : bool) : Args.t :=
  Args.mk None false false false DEFAULT_MARKDOWN_TOP false confirm
          (Some "out") true DEFAULT_MAX_CONCURRENCY None true false
          DEFAULT_GROUP_MEMBERS_TOP direct false false.

(** [--subscriptions abc --include-resources], with or without
    [--confirm-large-scan]. *)
Definition args_resources (confirm : bool) : Args.t :=
  Args.mk (Some ["abc"]%string) true false false DEFAULT_MARKDOWN_TOP false confirm
          (Some "out") true DEFAULT_MAX_CONCURRENCY None false false
          DEFAULT_GROUP_MEMBERS_TOP direct false false.

(** [--subscriptions abc --group-membership-mode transitive] *)
Definition args_transitive : Args.t :=
  Args.mk (Some ["abc"]%string) false true false DEFAULT_MARKDOWN_TOP false false
          (Some "out") true DEFAULT_MAX_CONCURRENCY None false false
          DEFAULT_GROUP_MEMBERS_TOP transitive false false.

(** Rows for the emitters. *)
Definition user_row : row :=
  [ ("principalId", Py.VStr "p-user");
    ("principalUPNOrAppId", Py.VStr "ada@example.org");
    ("memberUPN", Py.VStr "bob@example.org") ]%string.

Definition plain_row (i : nat) : row :=
  [ ("assignmentId", Py.VStr ("a" +:+ Py.str_of_nat i)) ]%string.

End Sample.

(* ===================================================================== *)
(** * Vocabulary of the properties *)
(* ===================================================================== *)

(** The fields redaction covers. *)
Definition redacted_keys : list string := ["principalUPNOrAppId"; "memberUPN"]%string.

(** A row whose redacted fields, where present, hold the sentinel. *)
Definition is_redacted (r : row) : bool :=
  forallb
    (fun key =>
       match Py.get key r with
       | Some v => bool_decide (v = Py.VStr REDACTED)
       | None => true
       end)
    redacted_keys.



(** The resource groups the tenant lists for a subscription, as records,
    none when the listing fails; and the number of resource groups in the
    dictionary discovery has filled. *)
Definition listed_resource_groups (t : tenant) (sub_id : string) : list resource_group :=
  match resource_groups_list t sub_id with
  | Returned rgs =>
      map (fun rg => {| rg_id := rgo_id rg; rg_name := rgo_name rg;
                        rg_location := rgo_location rg;
                        rg_subscription_id := sub_id |}) rgs
  | Raised _ => []
  end.

Definition enumerated_resource_groups (resource_groups_per_sub : Py.dict (list resource_group))
  : nat :=
  length (concat (Py.values resource_groups_per_sub)).

(** [queried w scope]: the assignments of [scope] have been asked for. *)
Definition queried (w : world) (scope : string) : Prop :=
  In (Request (ListRoleAssignments scope true)) (trace w).

(** [from_provider t w r]: the row [r] was built from an assignment the
    provider returned to a query that has been sent. *)
Definition from_provider (t : tenant) (w : world) (r : row) : Prop :=
  exists scope assignments assignment,
    queried w scope
    /\ role_assignments_list_for_scope t scope true = Returned assignments
    /\ In assignment assignments
    /\ r = role_assignment_row scope assignment.

(** What the traversal maintains: every merged row comes from the
    provider, and nothing has been recorded as skipped or failed. *)
Definition traversal_invariant (t : tenant) (c : collected) (w : world) : Prop :=
  Forall (from_provider t w) (all_role_assignments c)
  /\ scopes_skipped c = []
  /\ errors c = []
  /\ warnings c = [].

(** [origin t w r]: the row [r] stands for an assignment the provider
    returned to a query at the scope in its [scope] field, and its
    [inherited] field is the value the provider supplied. *)
Definition origin (t : tenant) (w : world) (r : row) : Prop :=
  exists scope assignments assignment,
    queried w scope
    /\ role_assignments_list_for_scope t scope true = Returned assignments
    /\ In assignment assignments
    /\ Py.get "scope" r = Some (Py.VStr scope)
    /\ Py.get "inherited" r = Some (provider_inherited assignment).

(** The fields nothing touches after the traversal, and rows that agree
    on them. *)
Definition kept_fields : list string :=
  ["scope"; "inherited"; "principalId"; "principalType"]%string.

Definition keeps_fields (r r' : row) : Prop :=
  Forall (fun k => Py.get k r' = Py.get k r) kept_fields.

(** A row that has the two fields the later loops subscript. *)
Definition has_principal (r : row) : Prop :=
  is_Some (Py.get "principalId" r) /\ is_Some (Py.get "principalType" r).

(** A computation that forgets nothing of what has been sent or logged. *)
Definition keeps_trace {A} (m : M A) : Prop :=
  forall w e, In e (trace w) -> In e (trace (m w).2).

(** The output directory of a run, as a path and as [new_output_paths]
    prints it; the path of the summary; and the exception, if any, that keeps
    [write_summary] from writing it. *)
Definition output_path_of (h : host) (base_path : option string) : Path.t :=
  Path.of_str
    match base_path with
    | Some p => p
    | None => "output/azure/export_rbac_roles_and_assignments_" +:+ utc_timestamp h
    end.

Definition output_dir (h : host) (args : Args.t) : string :=
  Path.str (output_path_of h (Args.output_path args)).

Definition summary_path (h : host) : string := lp_summary (log_paths_of h script_name).



(** [says P m]: whatever [m] adds to the trace satisfies [P], and it adds
    at the end. *)
Definition says {A} (P : event -> Prop) (m : M A) : Prop :=
  forall w, exists evs, trace (m w).2 = trace w ++ evs /\ Forall P evs.

(** Events that are not a request to the directory, and events that are
    not a listing of resource groups. *)
Definition not_directory (e : event) : Prop :=
  match e with
  | Request r => is_directory_request r = false
  | _ => True
  end.

Definition not_resource_groups (e : event) : Prop :=
  match e with
  | Request (ListResourceGroups _) => False
  | _ => True
  end.

(** One turn of the redaction loop of the emitters. *)
Definition redact_key (redacted_row : row) (key : string) : row :=
  if Py.has key redacted_row
  then Py.set key (Py.VStr REDACTED) redacted_row
  else redacted_row.

(** [touches_only filename m]: of the world, [m] changes at most the file
    [filename] and the log. *)
Definition touches_only (filename : string) (m : M unit) : Prop :=
  forall w,
    delete filename (files (m w).2) = delete filename (files w)
    /\ dirs (m w).2 = dirs w
    /\ principal_cache (m w).2 = principal_cache w
    /\ summary (m w).2 = summary w
    /\ requests (trace (m w).2) = requests (trace w).



(** The principals looked up in the directory by the events of a trace,
    in order. *)
Definition lookup_ids (evs : list event) : list string :=
  omap (fun e => match e with
                 | Request (GraphUser id) | Request (GraphApplication id) => Some id
                 | _ => None
                 end) evs.

(** A cache that holds nothing but the redacted pair. *)
Definition cache_redacted (w : world) : Prop :=
  map_Forall (fun _ pair => pair = (REDACTED, REDACTED)) (principal_cache w).

(** What the resolution loop maintains, from the world [w0] it started
    in: no principal is looked up twice, and a principal that is looked up
    was not in the cache at the start and is in it afterwards. *)
Definition lookups_once (w0 w : world) : Prop :=
  exists evs,
    trace w = trace w0 ++ evs
    /\ NoDup (lookup_ids evs)
    /\ Forall (fun id => is_Some (principal_cache w !! id)
                         /\ principal_cache w0 !! id = None) (lookup_ids evs)
    /\ forall id, is_Some (principal_cache w0 !! id) -> is_Some (principal_cache w !! id).

(** The request [expand_group_members] sends for a mode. *)
Definition members_request (mode : membership_mode) (group_id : string) : request :=
  match mode with
  | direct => GraphMembers group_id
  | transitive => GraphTransitiveMembers group_id
  end.

(** The assignments that belong in the per-subscription file of [sub_id]:
    those whose [subscriptionId] is truthy and prints as [sub_id]. *)
Definition of_subscription (sub_id : string) (assignment : row) : bool :=
  let v := Py.get_or "subscriptionId" (Py.VStr "") assignment in
  Py.truthy v && String.eqb (Py.str v) sub_id.

(** One turn of the loop that builds the per-subscription partition. *)
Definition group_step (sub_assignments : Py.dict (list row)) (assignment : row)
  : Py.dict (list row) :=
  let sub_id := Py.get_or "subscriptionId" (Py.VStr "") assignment in
  if Py.truthy sub_id
  then Py.set (Py.str sub_id)
         (Py.get_or (Py.str sub_id) [] sub_assignments ++ [assignment])
         sub_assignments
  else sub_assignments.

(** The scopes [main] queries for a management group and for a
    subscription, the two requests it sends for such a scope, the scopes
    whose role definitions a trace asks for, and the number of scopes a
    loop under [--limit n] gets through at most. *)
Definition mg_scope (mg : management_group) : string :=
  "/providers/Microsoft.Management/managementGroups/" +:+ mg_name mg.

Definition sub_scope (sub : subscription) : string :=
  "/subscriptions/" +:+ sub_subscription_id sub.

Definition scope_requests (scope : string) : list request :=
  [ListRoleDefinitions scope; ListRoleAssignments scope true].

Definition definition_query (e : event) : option string :=
  match e with
  | Request (ListRoleDefinitions scope) => Some scope
  | _ => None
  end.

Definition definition_queries (evs : list event) : list string :=
  omap definition_query evs.

Definition stop_after (n : Z) : nat := Z.to_nat (Z.max n 1).


(** A value [openpyxl] takes in a cell, and a path that can be opened for
    writing. *)
Definition accepted (h : host) (v : Py.value) : bool :=
  match cell_error h v with None => true | Some _ => false end.

Definition writable (h : host) (filename : string) : bool :=
  match open_error h filename with None => true | Some _ => false end.

(** [no_char c s]: the character [c] does not occur in [s]. *)
Fixpoint no_char (c : ascii) (s : string) : bool :=
  match s with
  | EmptyString => true
  | String b s' => negb (Ascii.eqb b c) && no_char c s'
  end.

Abbreviation slash := ("/"%char) (only parsing).
Abbreviation comma := (","%char) (only parsing).


(** The world of the sample run [--subscriptions abc] on [Sample.a_host]
    when it reaches the rail. *)
Definition discovered_abc : world :=
  set_trace
    [ LogDirectory "logs/20240101";
      LogFile ("logs/20240101/azure_export_rbac_roles_and_assignments_"
               +:+ "0f8fad5b-d9cb-469f-a165-70867728950e.log");
      LogFile ("logs/20240101/azure_export_rbac_roles_and_assignments_"
               +:+ "0f8fad5b-d9cb-469f-a165-70867728950e.jsonl");
      Request (GetToken DefaultAzureCredential);
      Request ListSubscriptions ]
    empty_world.


(* ===================================================================== *)
(** * [scripts/bootstrap/doctor.py] *)
(* ===================================================================== *)

Module Doctor.

(** What the script reads of the interpreter it runs in.  [imports name]
    tells whether [__import__(name)] returns rather than raises
    [ImportError]. *)
Record interpreter : Type := {
  version : string;
  imports : string -> bool;
  real_prefix : bool;
  base_prefix : option string;
  prefix : string;
  requirements_file : string;
  requirements_file_exists : bool
}.

Definition required_packages : list string :=
  ["azure-identity"; "azure-mgmt-authorization"; "azure-mgmt-resource";
   "azure-mgmt-managementgroups"]%string.

Definition optional_packages : list string := ["msgraph-sdk"; "openpyxl"]%string.

Fixpoint times (s : string) (n : nat) : string :=
  match n with
  | O => EmptyString
  | S n' => s +:+ times s n'
  end.

(** [package.replace('-', '_').split('.')[0]] *)
Definition module_name (package : string) : string :=
  hd EmptyString (Py.split "." (Py.replace "-" "_" package)).

(** The printed lines and the list of missing packages, after one turn of
    the loop over the required packages. *)
Definition check_required (py : interpreter) (st : list string * list string)
  (package : string) : list string * list string :=
  let '(out, missing_required) := st in
  if imports py (module_name package)
  then (out ++ ["  ✓ " +:+ package], missing_required)
  else (out ++ ["  ✗ " +:+ package +:+ " (MISSING)"], missing_required ++ [package]).

Definition check_optional (py : interpreter) (out : list string) (package : string)
  : list string :=
  if imports py (module_name package)
  then out ++ ["  ✓ " +:+ package]
  else out ++ ["  ○ " +:+ package +:+ " (optional)"].

(** [main] returns the printed lines and the exit status. *)
Definition main (py : interpreter) : list string * Z :=
  let out :=
    ["Python Doctor Check"; times "=" 50; "Python version: " +:+ version py;
     nl +:+ "Required packages:"]%string in
  let '(out, missing_required) :=
    fold_left (check_required py) required_packages (out, []) in
  let out := out ++ [nl +:+ "Optional packages:"] in
  let out := fold_left (check_optional py) optional_packages out in
  let in_venv :=
    real_prefix py
    || match base_prefix py with
       | Some b => negb (String.eqb b (prefix py))
       | None => false
       end in
  let out :=
    out ++ [nl +:+ "Virtual environment: " +:+ (if in_venv then "Yes" else "No")] in
  let out :=
    out ++ [if requirements_file_exists py
            then "Requirements file: " +:+ requirements_file py
            else "Requirements file: Not found"] in
  let out := out ++ [nl +:+ times "=" 50] in
  match missing_required with
  | _ :: _ =>
      (out
       ++ ["Status: FAILED - " +:+ Py.str_of_nat (length missing_required)
           +:+ " required packages missing";
           "Missing packages:"]
       ++ map (fun package => "  - " +:+ package) missing_required,
       1)
  | [] => (out ++ ["Status: OK - All required packages found"], 0)
  end.

(** The module names the loop over the required packages tries. *)
Definition probed : list string := map module_name required_packages.

End Doctor.

(* ===================================================================== *)
(** * Properties *)
(* ===================================================================== *)

(** ** The Python primitives on sample inputs *)

Example split_sub : Py.split "/subscriptions/" "/subscriptions/abc" = [""; "abc"]%string.
Proof. reflexivity. Qed.

Example split_trailing : Py.split "," "a,b," = ["a"; "b"; ""]%string.
Proof. reflexivity. Qed.

Example replace_csv :
  Py.replace ".csv" "_s1.csv" "out/role_assignments.csv" = "out/role_assignments_s1.csv"%string.
Proof. reflexivity. Qed.

Example strip_ws : Py.strip "  ab c  " = "ab c"%string.
Proof. reflexivity. Qed.

Example slice_neg : Py.slice_to (-1) [1; 2; 3] = [1; 2].
Proof. reflexivity. Qed.


(** ** Dictionaries *)

Section Dict.
Context {V : Type}.
Implicit Types (d : Py.dict V) (k : string) (v : V).

Lemma get_set_eq k v d : Py.get k (Py.set k v d) = Some v.
Proof.
  induction d as [|[k' v'] d IH]; simpl.
  - by rewrite String.eqb_refl.
  - destruct (String.eqb k' k) eqn:E; simpl; rewrite E; [done | exact IH].
Qed.

Lemma get_set_ne k k' v d : k <> k' -> Py.get k' (Py.set k v d) = Py.get k' d.
Proof.
  intros Hne. induction d as [|[k0 v0] d IH]; simpl.
  - destruct (String.eqb k k') eqn:E; [|done].
    apply String.eqb_eq in E. contradiction.
  - destruct (String.eqb k0 k) eqn:E; simpl.
    + apply String.eqb_eq in E. subst k0.
      destruct (String.eqb k k') eqn:E'; [|done].
      apply String.eqb_eq in E'. contradiction.
    + by rewrite IH.
Qed.

Lemma get_set k k' v d :
  Py.get k' (Py.set k v d) = if String.eqb k k' then Some v else Py.get k' d.
Proof.
  destruct (String.eqb k k') eqn:E.
  - apply String.eqb_eq in E. subst. apply get_set_eq.
  - apply String.eqb_neq in E. by apply get_set_ne.
Qed.

Lemma has_true k d : Py.has k d = true <-> exists v, Py.get k d = Some v.
Proof.
  unfold Py.has. destruct (Py.get k d) as [v|].
  - split; eauto.
  - split; [discriminate | intros [v Hv]; discriminate].
Qed.

End Dict.

(** ** Computations that only talk

    Most of the script sends requests and writes log records and does
    nothing else to the world. *)

Definition extends (w w' : world) : Prop :=
  exists evs, w' = set_trace (trace w ++ evs) w.

Definition talks_only {A} (m : M A) : Prop := forall w, extends w (snd (m w)).

Lemma extends_refl w : extends w w.
Proof. exists []. rewrite app_nil_r. by destruct w. Qed.

Lemma extends_trans w1 w2 w3 : extends w1 w2 -> extends w2 w3 -> extends w1 w3.
Proof.
  intros [e1 ->] [e2 ->]. exists (e1 ++ e2). simpl. by rewrite app_assoc.
Qed.

Lemma extends_files w w' : extends w w' -> files w' = files w.
Proof. by intros [evs ->]. Qed.

Lemma extends_dirs w w' : extends w w' -> dirs w' = dirs w.
Proof. by intros [evs ->]. Qed.

Lemma extends_cache w w' : extends w w' -> principal_cache w' = principal_cache w.
Proof. by intros [evs ->]. Qed.

Lemma extends_summary w w' : extends w w' -> summary w' = summary w.
Proof. by intros [evs ->]. Qed.

Lemma extends_In w w' e : extends w w' -> In e (trace w) -> In e (trace w').
Proof. intros [evs ->] Hin. simpl. apply in_or_app. by left. Qed.

Lemma talks_only_ret {A} (a : A) : talks_only (ret a).
Proof. intros w. apply extends_refl. Qed.

Lemma talks_only_bind {A B} (m : M A) (k : A -> M B) :
  talks_only m -> (forall a, talks_only (k a)) -> talks_only (bind m k).
Proof.
  intros Hm Hk w. unfold bind. specialize (Hm w).
  destruct (m w) as [a w1]. eapply extends_trans; [exact Hm | apply Hk].
Qed.

Lemma talks_only_emit e : talks_only (emit e).
Proof. intros w. by exists [e]. Qed.

Lemma talks_only_for_each {A S} (body : A -> S -> M (S * ctl)) l :
  (forall x s, talks_only (body x s)) -> forall s, talks_only (for_each body l s).
Proof.
  intros Hbody. induction l as [|x l IH]; intros s; simpl.
  - apply talks_only_ret.
  - apply talks_only_bind; [apply Hbody|].
    intros [s' []]; simpl; [apply IH | apply talks_only_ret].
Qed.

Create HintDb talk.
#[local] Hint Resolve talks_only_ret talks_only_bind talks_only_emit
  talks_only_for_each : talk.
#[local] Hint Unfold send warning error : talk.

Ltac talk :=
  repeat first
    [ apply talks_only_ret
    | apply talks_only_emit
    | apply talks_only_bind; [|intros ?]
    | apply talks_only_for_each; intros ? ?
    | progress autounfold with talk
    | match goal with
      | |- talks_only (match ?x with _ => _ end) => destruct x
      | |- talks_only (if ?b then _ else _) => destruct b
      end ].

Lemma talks_only_preflight_check h : talks_only (preflight_check h).
Proof. unfold preflight_check. talk. Qed.

Lemma talks_only_get_management_groups t : talks_only (get_management_groups t).
Proof. unfold get_management_groups. talk. Qed.

Lemma talks_only_get_subscriptions t ids : talks_only (get_subscriptions t ids).
Proof. unfold get_subscriptions. talk. Qed.

Lemma talks_only_get_resource_groups t sub : talks_only (get_resource_groups t sub).
Proof. unfold get_resource_groups. talk. Qed.

Lemma talks_only_get_role_definitions t scope : talks_only (get_role_definitions t scope).
Proof. unfold get_role_definitions. talk. Qed.

Lemma talks_only_get_role_assignments t scope inc :
  talks_only (get_role_assignments t scope inc).
Proof. unfold get_role_assignments. talk. Qed.


Lemma talks_only_enumerate_resource_groups args t subs :
  talks_only (enumerate_resource_groups args t subs).
Proof.
  unfold enumerate_resource_groups. talk.
Qed.

Lemma talks_only_init_logging h name : talks_only (init_logging h name).
Proof. unfold init_logging. talk. Qed.

Lemma talks_only_discover args t cred : talks_only (discover args t cred).
Proof.
  unfold discover.
  apply talks_only_bind.
  { destruct (Args.traverse_management_groups args); [|apply talks_only_ret].
    apply talks_only_bind; [apply talks_only_get_management_groups|].
    intros mgs. talk. }
  intros mgs. apply talks_only_bind.
  { destruct (Args.has_subscriptions args); [apply talks_only_get_subscriptions|].
    destruct (_ || _); [apply talks_only_get_subscriptions | apply talks_only_ret]. }
  intros [|sub subs]; [talk|].
  apply talks_only_bind; [apply talks_only_enumerate_resource_groups|].
  intros rgs. apply talks_only_ret.
Qed.

Lemma talks_only_main_until_rail args h t : talks_only (main_until_rail args h t).
Proof.
  unfold main_until_rail.
  destruct (validate_arguments args) as [code|args']; [apply talks_only_ret|].
  destruct (bootstrap args' h); [apply talks_only_ret|].
  apply talks_only_bind; [apply talks_only_init_logging|].
  intros [paths|e]; [|apply talks_only_ret].
  apply talks_only_bind; [apply talks_only_preflight_check|].
  intros [cred|]; [apply talks_only_discover | apply talks_only_ret].
Qed.

(** ** Scope classification *)

(** C5. The classifier, a function of the scope path alone, answers
    [ManagementGroup] for a management-group path, [Subscription] with the
    subscription id for a subscription path, and [ResourceGroup] with the
    subscription id and the resource group for a resource-group path; the
    three columns of a row built by [get_role_assignments] are what the
    classifier says of the queried scope, whatever the provider's object
    holds. *)
Theorem C5_scope_classification :
  classify_scope "/providers/Microsoft.Management/managementGroups/mg1"
    = ("ManagementGroup", "", "")%string
  /\ classify_scope "/subscriptions/abc" = ("Subscription", "abc", "")%string
  /\ classify_scope "/subscriptions/abc/resourceGroups/rg1"
    = ("ResourceGroup", "abc", "rg1")%string
  /\ forall scope assignment,
       let r := role_assignment_row scope assignment in
       Py.get "scopeType" r = Some (Py.VStr (classify_scope scope).1.1)
       /\ Py.get "subscriptionId" r = Some (Py.VStr (classify_scope scope).1.2)
       /\ Py.get "resourceGroup" r = Some (Py.VStr (classify_scope scope).2).
Proof.
  repeat split; try reflexivity;
    unfold role_assignment_row; destruct (classify_scope scope) as [[ty sub] rg];
    reflexivity.
Qed.

(** ** The principal cache *)

Lemma talks_only_directory_lookup h d pid ty : talks_only (directory_lookup h d pid ty).
Proof. unfold directory_lookup. talk. Qed.

Lemma resolve_principal_cached h d pid ty nr rd w cached :
  principal_cache w !! pid = Some cached ->
  resolve_principal h d pid ty nr rd w = (cached, w).
Proof. intros Hc. unfold resolve_principal. by rewrite Hc. Qed.

Lemma resolve_principal_fresh h d pid ty nr rd w :
  principal_cache w !! pid = None ->
  let out := resolve_principal h d pid ty nr rd w in
  principal_cache (snd out) !! pid = Some (fst out)
  /\ (rd = true -> fst out = (REDACTED, REDACTED)).
Proof.
  intros Hc. unfold resolve_principal. rewrite Hc.
  destruct nr; simpl.
  - unfold bind, cache_store, ret; simpl. rewrite lookup_insert_eq.
    split; [done|]. by intros ->.
  - unfold bind.
    destruct (directory_lookup h d pid ty w) as [resolved w1].
    unfold cache_store, ret; simpl. rewrite lookup_insert_eq.
    split; [done|]. by intros ->.
Qed.

Lemma resolve_principal_stores h d pid ty nr rd w :
  let out := resolve_principal h d pid ty nr rd w in
  principal_cache (snd out) !! pid = Some (fst out).
Proof.
  destruct (principal_cache w !! pid) as [cached|] eqn:Hc.
  - by rewrite (resolve_principal_cached _ _ _ _ _ _ _ _ Hc).
  - by apply resolve_principal_fresh.
Qed.

(** C4. Whatever the state of the cache, a second call of
    [resolve_principal] for the same principal id, with any principal type
    and any flags, returns the pair the first call returned and leaves the
    world as the first call left it: no request, so no directory call, and
    the same cache. The cache is a map on principal ids, and after the
    first call it holds the returned pair under the id. When the id was
    not cached and redaction is on, the pair returned and cached is the
    sentinel twice; when it was cached, the cached pair is returned. *)
Theorem C4_resolver_cache (h : host) (d : directory) (principal_id : string)
  (ty1 ty2 : string) (nr1 nr2 rd1 rd2 : bool) (w : world) :
  let first := resolve_principal h d principal_id ty1 nr1 rd1 w in
  let second := resolve_principal h d principal_id ty2 nr2 rd2 (snd first) in
  fst second = fst first
  /\ snd second = snd first
  /\ directory_calls (snd second) = directory_calls (snd first)
  /\ principal_cache (snd first) !! principal_id = Some (fst first)
  /\ match principal_cache w !! principal_id with
     | Some cached => fst first = cached
     | None => if rd1 then fst first = (REDACTED, REDACTED) else True
     end.
Proof.
  intros first second.
  assert (Hstored : principal_cache (snd first) !! principal_id = Some (fst first))
    by apply resolve_principal_stores.
  assert (Hsecond : second = (fst first, snd first))
    by (subst second; by apply resolve_principal_cached).
  rewrite Hsecond. simpl. repeat split; [done|].
  destruct (principal_cache w !! principal_id) as [cached|] eqn:Hc.
  - subst first. by rewrite (resolve_principal_cached _ _ _ _ _ _ _ _ Hc).
  - destruct rd1; [|done].
    by apply (resolve_principal_fresh h d principal_id ty1 nr1 true w Hc).
Qed.

(** The first lookup of a user goes to the directory once; the second,
    asked as a service principal and without redaction, goes nowhere. *)
Example resolver_call_count :
  let first := resolve_principal Sample.a_host Sample.a_directory "p-user" "User"
                 false true empty_world in
  let second := resolve_principal Sample.a_host Sample.a_directory "p-user"
                  "ServicePrincipal" false false (snd first) in
  directory_calls (snd first) = 1%nat
  /\ directory_calls (snd second) = 1%nat
  /\ fst second = (REDACTED, REDACTED).
Proof. vm_compute. repeat split. Qed.

(** ** Emitters on an empty collection *)

(** C10. Called with an empty list, each of [write_csv], [write_xlsx],
    [write_markdown] and [write_json] leaves every file of the output tree
    as it was: no file is created and none is changed. *)
Theorem C10_empty_data_writes_nothing (h : host) (filename : string) (top : Z)
  (redact : bool) (w : world) :
  files (snd (write_csv h [] filename redact w)) = files w
  /\ files (snd (write_xlsx h [] filename redact w)) = files w
  /\ files (snd (write_markdown h [] filename top redact w)) = files w
  /\ files (snd (write_json h [] filename redact w)) = files w.
Proof.
  repeat split; try reflexivity.
  unfold write_xlsx. by destruct (HAS_OPENPYXL h).
Qed.

(** ** Argument validation and the safety rail *)

Lemma validate_arguments_flags args args' :
  validate_arguments args = inr args' ->
  Args.confirm_large_scan args' = Args.confirm_large_scan args
  /\ Args.group_membership_mode args' = Args.group_membership_mode args
  /\ Args.include_resources args' = Args.include_resources args.
Proof.
  unfold validate_arguments.
  destruct (_ && _ && _); [discriminate|].
  destruct (_ && _); [discriminate|].
  destruct (Args.subscriptions args) as [[|s subs]|]; intros [= <-]; done.
Qed.

(** A run that reaches the rail has come through validation, the
    bootstrap, the set-up of the log, authentication and discovery. *)
Lemma main_until_rail_reached args h t w args' cred mgs subs rgs w' :
  main_until_rail args h t w = (Discovered args' cred mgs subs rgs, w') ->
  validate_arguments args = inr args'
  /\ bootstrap args' h = None
  /\ exists paths w1 w2,
       init_logging h script_name w = (Ok paths, w1)
       /\ preflight_check h w1 = (Some cred, w2)
       /\ discover args' t cred w2 = (Discovered args' cred mgs subs rgs, w').
Proof.
  unfold main_until_rail.
  destruct (validate_arguments args) as [code|a]; [discriminate|].
  destruct (bootstrap a h) as [st|] eqn:Hboot.
  { unfold ret. intros [= -> _]. revert Hboot. unfold bootstrap.
    destruct (Args.bootstrap a); [|discriminate].
    destruct (which_pwsh h); [|discriminate].
    destruct (bootstrap_run h) as [rc|e]; [|discriminate].
    destruct (negb _); discriminate. }
  unfold bind.
  destruct (init_logging h script_name w) as [[paths|e] w1] eqn:Hlog; [|discriminate].
  destruct (preflight_check h w1) as [[c|] w2] eqn:Hpre; [|discriminate].
  intros Hd.
  assert (a = args' /\ c = cred) as [-> ->].
  { revert Hd. unfold discover, bind.
    destruct (if Args.traverse_management_groups a then _ else _) as [m w3].
    destruct (if Args.has_subscriptions a then _ else _) as [[|s ss] w4].
    - simpl. discriminate.
    - destruct (enumerate_resource_groups a t (s :: ss) w4) as [r w5].
      unfold ret. by intros [= -> -> _ _ _ _]. }
  split; [done|]. split; [done|]. exists paths, w1, w2. by rewrite Hpre.
Qed.

Lemma main_until_rail_validated args h t w args' cred mgs subs rgs w' :
  main_until_rail args h t w = (Discovered args' cred mgs subs rgs, w') ->
  validate_arguments args = inr args'.
Proof. intros H. by apply main_until_rail_reached in H as [? _]. Qed.

(** C6, as the code has it. With [--group-membership-mode transitive] and
    without [--confirm-large-scan], [main] exits with code 1 and leaves the
    world untouched: no request has been sent, no file or directory
    created. *)
Theorem C6_transitive_requires_confirmation (args : Args.t) (h : host) (t : tenant)
  (d : directory) (w : world) :
  Args.group_membership_mode args = transitive ->
  Args.confirm_large_scan args = false ->
  main args h t d w = (Exit 1, w).
Proof.
  intros Hmode Hconfirm.
  unfold main, main_until_rail, validate_arguments.
  rewrite Hmode, Hconfirm. simpl.
  by destruct (_ && _ && _).
Qed.

Lemma C6_transitive_requires_confirmation_witness :
  main Sample.args_transitive Sample.a_host Sample.small_tenant Sample.a_directory
       empty_world
  = (Exit 1, empty_world).
Proof.
  apply (C6_transitive_requires_confirmation Sample.args_transitive); reflexivity.
Defined.

(** C6, as stated, fails: the exit code of such a run is not 2. *)
Lemma C6_exit_code_is_not_2 :
  Args.group_membership_mode Sample.args_transitive = transitive
  /\ Args.confirm_large_scan Sample.args_transitive = false
  /\ fst (main Sample.args_transitive Sample.a_host Sample.small_tenant
               Sample.a_directory empty_world) <> Exit 2.
Proof. repeat split. vm_compute. discriminate. Qed.

(** *** What discovery finds *)

Lemma sublist_List_filter {A} (f : A -> bool) (l : list A) :
  sublist (List.filter f l) l.
Proof.
  induction l as [|x l IH]; [constructor|].
  cbn [List.filter]. destruct (f x); by constructor.
Qed.

Lemma get_subscriptions_listing t ids w :
  (get_subscriptions t ids w).1 <> [] ->
  exists listing,
    subscriptions_list t = Returned listing
    /\ sublist (get_subscriptions t ids w).1 listing.
Proof.
  unfold get_subscriptions, bind, send, warning, emit, ret.
  destruct (subscriptions_list t) as [listing|e]; [|done].
  intros _. exists listing. split; [done|]. apply sublist_List_filter.
Qed.

Lemma get_resource_groups_listed t sub_id w :
  (get_resource_groups t sub_id w).1 = listed_resource_groups t sub_id.
Proof.
  unfold get_resource_groups, listed_resource_groups, bind, send, warning, emit, ret.
  by destruct (resource_groups_list t sub_id).
Qed.

Lemma total_rg_count_enumerated rgs :
  total_rg_count rgs = Z.of_nat (enumerated_resource_groups rgs).
Proof.
  unfold total_rg_count, enumerated_resource_groups, Py.values.
  induction rgs as [|[k l] rgs IH]; [done|].
  cbn [map fold_right concat snd]. rewrite IH, length_app. lia.
Qed.

Lemma for_each_invariant_In {A S} (I : S -> world -> Prop) (body : A -> S -> M (S * ctl))
  (l : list A) :
  (forall x s w, In x l -> I s w -> I (body x s w).1.1 (body x s w).2) ->
  forall s w, I s w -> I (for_each body l s w).1 (for_each body l s w).2.
Proof.
  induction l as [|x l IH]; intros Hbody s w Hs; simpl; [done|].
  unfold bind. pose proof (Hbody x s w (or_introl eq_refl) Hs) as Hx.
  destruct (body x s w) as [[s' c] w1]. simpl in *.
  destruct c; [|done]. apply IH; [|done].
  intros y s0 w0 Hy. apply Hbody. by right.
Qed.

(** Every entry of the dictionary discovery fills is the tenant's listing
    for one of the discovered subscriptions. *)
Lemma enumerate_resource_groups_listed args t subs w sub_id l :
  Py.get sub_id (enumerate_resource_groups args t subs w).1 = Some l ->
  In sub_id (map sub_subscription_id subs) /\ l = listed_resource_groups t sub_id.
Proof.
  unfold enumerate_resource_groups.
  destruct (_ || _); [|discriminate].
  revert sub_id l.
  apply (for_each_invariant_In
           (fun (rgs : Py.dict (list resource_group)) (_ : world) =>
              forall sub_id l,
                Py.get sub_id rgs = Some l ->
                In sub_id (map sub_subscription_id subs)
                /\ l = listed_resource_groups t sub_id)); [|discriminate].
  intros sub rgs w0 Hin Hrgs sub_id l. unfold bind.
  pose proof (get_resource_groups_listed t (sub_subscription_id sub) w0) as Hl.
  destruct (get_resource_groups t (sub_subscription_id sub) w0) as [found w1].
  simpl in Hl. subst found.
  assert (Hset : Py.get sub_id
                   (Py.set (sub_subscription_id sub)
                      (listed_resource_groups t (sub_subscription_id sub)) rgs) = Some l ->
                 In sub_id (map sub_subscription_id subs)
                 /\ l = listed_resource_groups t sub_id).
  { rewrite get_set. destruct (String.eqb_spec (sub_subscription_id sub) sub_id) as [<-|_].
    - intros [= <-]. split; [by apply in_map|done].
    - apply Hrgs. }
  by destruct (Py.limit_reached _ _).
Qed.

Lemma limit_not_reached o count : Py.limit_set o = false -> Py.limit_reached o count = false.
Proof. destruct o as [n|]; [|done]. simpl. by intros ->. Qed.

(** With [--include-resources] and no [--limit], it has the listing of
    every discovered subscription. *)
Lemma enumerate_resource_groups_complete args t subs w sub :
  Args.include_resources args = true ->
  Py.limit_set (Args.limit args) = false ->
  In sub subs ->
  Py.get (sub_subscription_id sub) (enumerate_resource_groups args t subs w).1
  = Some (listed_resource_groups t (sub_subscription_id sub)).
Proof.
  intros Hinc Hlim Hin. unfold enumerate_resource_groups. rewrite Hinc. cbn [orb].
  set (body := fun (sub : subscription) (rgs : Py.dict (list resource_group)) => _).
  assert (Hstep : forall x l acc w0,
             for_each body (x :: l) acc w0
             = for_each body l
                 (Py.set (sub_subscription_id x)
                    (listed_resource_groups t (sub_subscription_id x)) acc)
                 (get_resource_groups t (sub_subscription_id x) w0).2).
  { intros x l acc w0. cbn [for_each]. unfold bind at 1. subst body. cbv beta.
    unfold bind at 1.
    pose proof (get_resource_groups_listed t (sub_subscription_id x) w0) as Hl.
    destruct (get_resource_groups t (sub_subscription_id x) w0) as [found w1].
    simpl in Hl. subst found.
    by rewrite (limit_not_reached _ _ Hlim). }
  assert (H : forall l acc w0 sub_id,
             (In sub_id (map sub_subscription_id l) ->
              Py.get sub_id (for_each body l acc w0).1
              = Some (listed_resource_groups t sub_id))
             /\ (~ In sub_id (map sub_subscription_id l) ->
                 Py.get sub_id (for_each body l acc w0).1 = Py.get sub_id acc)).
  { clearbody body. induction l as [|x l IH]; intros acc w0 sub_id.
    { split; [done|]. by intros _. }
    rewrite Hstep.
    set (acc' := Py.set _ _ acc). set (w1 := (get_resource_groups _ _ w0).2).
    destruct (IH acc' w1 sub_id) as [IHin IHout].
    destruct (in_dec string_dec sub_id (map sub_subscription_id l)) as [Hl|Hl].
    - split; [intros _; by apply IHin|].
      intros Hnot. exfalso. apply Hnot. by right.
    - rewrite (IHout Hl). subst acc'. rewrite get_set.
      destruct (String.eqb_spec (sub_subscription_id x) sub_id) as [<-|Hne].
      + split; [done|]. intros Hnot. exfalso. apply Hnot. by left.
      + split; [|done]. intros [Heq|Hin']; [done|]. by destruct Hl. }
  apply H. by apply in_map.
Qed.

(** *** The rail *)

(** C2. A run that has finished discovery knows the subscriptions the
    tenant lists (those asked for, when ids were given) and, in
    [resource_groups_per_sub], the resource groups the tenant lists for the
    subscriptions it enumerated: all the discovered subscriptions under
    [--include-resources] without [--limit]. When there are more than 25
    such subscriptions, or more than 200 such resource groups, then
    without [--confirm-large-scan] [main] exits with code 2 having created
    no file and no directory in the output tree and written no summary,
    and with [--confirm-large-scan] the run goes on with everything that
    follows the rail. *)
Theorem C2_safety_rail (args : Args.t) (h : host) (t : tenant) (d : directory)
  (w : world) (args' : Args.t) (cred : credential)
  (management_groups : list management_group) (subscriptions : list subscription)
  (resource_groups_per_sub : Py.dict (list resource_group)) (w' : world) :
  main_until_rail args h t w
    = (Discovered args' cred management_groups subscriptions resource_groups_per_sub, w') ->
  25 < Z.of_nat (length subscriptions)
  \/ 200 < Z.of_nat (enumerated_resource_groups resource_groups_per_sub) ->
  (exists listing,
     subscriptions_list t = Returned listing /\ sublist subscriptions listing)
  /\ (forall sub_id rgs,
        Py.get sub_id resource_groups_per_sub = Some rgs ->
        In sub_id (map sub_subscription_id subscriptions)
        /\ rgs = listed_resource_groups t sub_id)
  /\ (Args.include_resources args = true ->
      Py.limit_set (Args.limit args) = false ->
      forall sub,
        In sub subscriptions ->
        Py.get (sub_subscription_id sub) resource_groups_per_sub
        = Some (listed_resource_groups t (sub_subscription_id sub)))
  /\ if Args.confirm_large_scan args
     then main args h t d w
          = main_after_rail args' h t d cred management_groups subscriptions
              resource_groups_per_sub w'
     else fst (main args h t d w) = Exit 2
          /\ files (snd (main args h t d w)) = files w
          /\ dirs (snd (main args h t d w)) = dirs w
          /\ summary (snd (main args h t d w)) = summary w.
Proof.
  intros Hreach Hlarge.
  pose proof (main_until_rail_reached _ _ _ _ _ _ _ _ _ _ Hreach)
    as (Hval & _ & paths & w1 & w2 & _ & _ & Hdisc).
  destruct (validate_arguments_flags _ _ Hval) as (Hconfirm & _ & Hinc).
  assert (Hlimit : Args.limit args' = Args.limit args).
  { revert Hval. unfold validate_arguments.
    destruct (_ && _ && _); [discriminate|].
    destruct (bool_decide _ && _); [discriminate|].
    destruct (Args.subscriptions args) as [[|s subs]|]; intros [= <-]; done. }
  assert (Hfound :
    (exists ids w0, (get_subscriptions t ids w0).1 = subscriptions /\ subscriptions <> [])
    /\ exists w0, (enumerate_resource_groups args' t subscriptions w0).1
                  = resource_groups_per_sub).
  { revert Hdisc. unfold discover, bind.
    destruct (if Args.traverse_management_groups args' then _ else _) as [m w3].
    destruct (if Args.has_subscriptions args' then _ else _) as [l w4] eqn:Hsubs.
    destruct l as [|s ss]; [simpl; discriminate|].
    destruct (enumerate_resource_groups args' t (s :: ss) w4) as [r w5] eqn:Hrg.
    unfold ret. intros [= _ <- <-]. split.
    - destruct (Args.has_subscriptions args').
      + exists (Args.subscriptions args'), w3. by rewrite Hsubs.
      + destruct (_ || _); [|discriminate]. exists None, w3. by rewrite Hsubs.
    - exists w4. by rewrite Hrg. }
  destruct Hfound as [(ids & w0 & Hsubs & Hne) (w3 & Henum)].
  split.
  { rewrite <- Hsubs in Hne |- *. by apply get_subscriptions_listing. }
  split.
  { intros sub_id rgs. rewrite <- Henum. apply enumerate_resource_groups_listed. }
  split.
  { intros Hi Hl sub Hsub. rewrite <- Henum.
    apply enumerate_resource_groups_complete; [by rewrite Hinc | by rewrite Hlimit | done]. }
  pose proof (talks_only_main_until_rail args h t w) as Hext.
  rewrite Hreach in Hext. simpl in Hext.
  assert (Htrip :
    (LARGE_SUBSCRIPTION_THRESHOLD <? Z.of_nat (length subscriptions))
    || (LARGE_RESOURCE_GROUP_THRESHOLD <? total_rg_count resource_groups_per_sub)
    || (Args.include_resources args' && negb (Args.has_subscriptions args')) = true).
  { unfold LARGE_SUBSCRIPTION_THRESHOLD, LARGE_RESOURCE_GROUP_THRESHOLD.
    rewrite total_rg_count_enumerated.
    destruct Hlarge as [Hs|Hr].
    - apply Z.ltb_lt in Hs. by rewrite Hs.
    - apply Z.ltb_lt in Hr. rewrite Hr. by rewrite orb_true_r. }
  unfold main, bind. rewrite Hreach. unfold main_from_rail, bind.
  unfold check_large_tenant_thresholds. rewrite Htrip, Hconfirm.
  destruct (Args.confirm_large_scan args); simpl.
  - reflexivity.
  - rewrite <- (extends_files _ _ Hext), <- (extends_dirs _ _ Hext),
      <- (extends_summary _ _ Hext).
    repeat split.
Qed.

Lemma C2_safety_rail_witness :
  (fst (main (Sample.args_discover false) Sample.a_host (Sample.wide_tenant 26)
             Sample.a_directory empty_world) = Exit 2
   /\ files (snd (main (Sample.args_discover false) Sample.a_host (Sample.wide_tenant 26)
                       Sample.a_directory empty_world)) = ∅
   /\ dirs (snd (main (Sample.args_discover false) Sample.a_host (Sample.wide_tenant 26)
                      Sample.a_directory empty_world)) = []
   /\ summary (snd (main (Sample.args_discover false) Sample.a_host (Sample.wide_tenant 26)
                         Sample.a_directory empty_world)) = None)
  /\ (fst (main (Sample.args_resources false) Sample.a_host (Sample.deep_tenant 201)
                Sample.a_directory empty_world) = Exit 2
      /\ files (snd (main (Sample.args_resources false) Sample.a_host
                          (Sample.deep_tenant 201) Sample.a_directory empty_world)) = ∅
      /\ dirs (snd (main (Sample.args_resources false) Sample.a_host
                         (Sample.deep_tenant 201) Sample.a_directory empty_world)) = []
      /\ summary (snd (main (Sample.args_resources false) Sample.a_host
                            (Sample.deep_tenant 201) Sample.a_directory empty_world))
         = None).
Proof.
  split.
  - eapply (C2_safety_rail (Sample.args_discover false) Sample.a_host
              (Sample.wide_tenant 26) Sample.a_directory empty_world).
    + vm_compute. reflexivity.
    + left. vm_compute. reflexivity.
  - eapply (C2_safety_rail (Sample.args_resources false) Sample.a_host
              (Sample.deep_tenant 201) Sample.a_directory empty_world).
    + vm_compute. reflexivity.
    + right. vm_compute. reflexivity.
Defined.

(** With the flag, the same tenants are processed to the end; and 200
    resource groups do not trip the rail. *)
Example confirmed_large_scan_proceeds :
  fst (main (Sample.args_discover true) Sample.a_host (Sample.wide_tenant 26)
            Sample.a_directory empty_world) = Exit 0
  /\ fst (main (Sample.args_resources true) Sample.a_host (Sample.deep_tenant 201)
              Sample.a_directory empty_world) = Exit 0
  /\ fst (main (Sample.args_resources false) Sample.a_host (Sample.deep_tenant 200)
              Sample.a_directory empty_world) = Exit 0.
Proof. vm_compute. by split_and!. Qed.

(** What the code counts: the entries of the dictionary, so the groups of
    the subscriptions it enumerated. *)
Example resource_groups_counted :
  total_rg_count
    [ ("s1", [ {| rg_id := "a"; rg_name := "a"; rg_location := "x";
                  rg_subscription_id := "s1" |} ]);
      ("s2", [ {| rg_id := "b"; rg_name := "b"; rg_location := "x";
                  rg_subscription_id := "s2" |};
               {| rg_id := "c"; rg_name := "c"; rg_location := "x";
                  rg_subscription_id := "s2" |} ]) ]%string
  = 3.
Proof. reflexivity. Qed.

(** ** Redaction in the emitters *)



(** In a redacted row, a redacted field that is present reads as the
    sentinel in a CSV record, in a sheet and in a Markdown table. *)
Lemma redacted_cell r key :
  is_redacted r = true -> In key redacted_keys -> Py.has key r = true ->
  Py.get_or key (Py.VStr "") r = Py.VStr REDACTED
  /\ csv_cell (Py.get_or key (Py.VStr "") r) = REDACTED
  /\ Py.str (Py.get_or key (Py.VStr "") r) = REDACTED.
Proof.
  intros Hred Hkey Hhas.
  unfold is_redacted in Hred. rewrite forallb_forall in Hred.
  specialize (Hred key Hkey).
  apply has_true in Hhas as [v Hv]. rewrite Hv in Hred.
  apply bool_decide_eq_true in Hred. subst v.
  unfold Py.get_or. rewrite Hv. done.
Qed.



Lemma redact_rows_take n data : redact_rows (take n data) = take n (redact_rows data).
Proof. unfold redact_rows. by rewrite <- fmap_take. Qed.



(** The four files written for one row with both fields. *)
Example redacted_files :
  let w :=
    snd ((write_csv Sample.a_host [Sample.user_row] "a.csv" true ;;;
          write_xlsx Sample.a_host [Sample.user_row] "a.xlsx" true ;;;
          write_markdown Sample.a_host [Sample.user_row] "a.md" 200 true ;;;
          write_json Sample.a_host [Sample.user_row] "a.json" true) empty_world) in
  files w !! "a.csv"%string
    = Some (CsvFile ["principalId"; "principalUPNOrAppId"; "memberUPN"]
                    [["p-user"; "[REDACTED]"; "[REDACTED]"]])%string
  /\ files w !! "a.xlsx"%string
    = Some (XlsxFile [ [Py.VStr "principalId"; Py.VStr "principalUPNOrAppId";
                        Py.VStr "memberUPN"];
                       [Py.VStr "p-user"; Py.VStr "[REDACTED]"; Py.VStr "[REDACTED]"] ])
  /\ files w !! "a.md"%string
    = Some (MarkdownFile
              [ "| principalId | principalUPNOrAppId | memberUPN |" +:+ nl;
                "|---|---|---|" +:+ nl ]
              [ "| p-user | [REDACTED] | [REDACTED] |" +:+ nl ]
              (nl +:+ "*Showing first 1 rows of 1 total*" +:+ nl))%string
  /\ files w !! "a.json"%string
    = Some (JsonFile [ [ ("principalId", Py.VStr "p-user");
                         ("principalUPNOrAppId", Py.VStr "[REDACTED]");
                         ("memberUPN", Py.VStr "[REDACTED]") ] ])%string.
Proof. vm_compute. repeat split. Qed.

(** ** The Markdown table *)

Lemma append_empty_r (s : string) : s +:+ EmptyString = s.
Proof.
  induction s as [|c s IH]; [done|].
  change (String c (s +:+ EmptyString) = String c s). by rewrite IH.
Qed.

Lemma append_assoc (a b c : string) : a +:+ (b +:+ c) = (a +:+ b) +:+ c.
Proof.
  induction a as [|x a IH]; [done|].
  change (String x (a +:+ (b +:+ c)) = String x ((a +:+ b) +:+ c)). by rewrite IH.
Qed.

Lemma concat_snoc (l : list string) (x : string) :
  fold_right String.append EmptyString (l ++ [x])
  = fold_right String.append EmptyString l +:+ x.
Proof.
  induction l as [|y l IH]; simpl.
  - apply append_empty_r.
  - by rewrite IH, append_assoc.
Qed.

Lemma markdown_text_ends head data_rows footer :
  markdown_text head data_rows footer
  = fold_right String.append EmptyString (head ++ data_rows) +:+ footer.
Proof. unfold markdown_text. by rewrite app_assoc, concat_snoc. Qed.

Lemma take_min {A} (n : nat) (l : list A) : take (Nat.min (length l) n) l = take n l.
Proof.
  destruct (Nat.le_gt_cases (length l) n) as [Hle|Hgt].
  - rewrite Nat.min_l by done. by rewrite !take_ge by lia.
  - by rewrite Nat.min_r by lia.
Qed.

(** C8. For a non-empty collection of [M] records and a limit [N > 0],
    [write_markdown], when the file can be opened, writes the header line
    and the separator line of the first record's columns, then exactly
    [min M N] data rows, which are the first [min M N] records in order
    (redacted when redaction is on), each as a line of its cells
    [| c1 | c2 | ... |], and the text of the file ends with the footer
    [*Showing first min(M,N) rows of M total*] on a line of its own. *)
Theorem C8_markdown_rows_and_footer (h : host) (data : list row) (filename : string)
  (top : Z) (redact : bool) (w : world) :
  data <> [] ->
  0 < top ->
  open_error h filename = None ->
  let shown := Nat.min (length data) (Z.to_nat top) in
  let records := take shown (if redact then redact_rows data else data) in
  let headers := match records with r0 :: _ => Py.keys r0 | [] => [] end in
  let line := fun cells : list string => "| " +:+ Py.join " | " cells +:+ " |" +:+ nl in
  let head :=
    [ line headers;
      "|" +:+ Py.join "|" (map (fun _ => "---") headers) +:+ "|" +:+ nl ]%string in
  let data_rows :=
    map (fun r => line (map (fun header => Py.str (Py.get_or header (Py.VStr "") r)) headers))
        records in
  let footer :=
    nl +:+ "*Showing first " +:+ Py.str_of_nat shown +:+ " rows of "
    +:+ Py.str_of_nat (length data) +:+ " total*" +:+ nl in
  files (snd (write_markdown h data filename top redact w)) !! filename
    = Some (MarkdownFile head data_rows footer)
  /\ length data_rows = shown
  /\ markdown_text head data_rows footer
     = fold_right String.append EmptyString (head ++ data_rows) +:+ footer.
Proof.
  intros Hdata Htop Hopen shown records headers line head data_rows footer.
  destruct data as [|r0 data]; [done|].
  assert (Hlen : length records = shown).
  { subst records shown. destruct redact; unfold redact_rows;
      rewrite length_take, ?length_map; lia. }
  split; [|split; [subst data_rows; by rewrite length_map | apply markdown_text_ends]].
  unfold write_markdown. rewrite Hopen.
  assert (Hslice : Py.slice_to top (r0 :: data) = take (Z.to_nat top) (r0 :: data)).
  { unfold Py.slice_to. destruct (0 <=? top) eqn:E; [done|]. lia. }
  rewrite Hslice.
  assert (Hlimited :
    (if redact then redact_rows (take (Z.to_nat top) (r0 :: data))
     else take (Z.to_nat top) (r0 :: data)) = records).
  { subst records shown. destruct redact.
    - rewrite redact_rows_take.
      replace (length (r0 :: data)) with (length (redact_rows (r0 :: data)))
        by apply length_map.
      by rewrite take_min.
    - by rewrite take_min. }
  rewrite Hlimited, Hlen. fold footer.
  subst data_rows head headers. clearbody records.
  destruct records as [|r1 rest].
  - exfalso. subst shown. cbn [length] in Hlen. lia.
  - cbn [put_file snd files set_files]. by rewrite lookup_insert_eq.
Qed.

Lemma C8_markdown_rows_and_footer_witness :
  files (snd (write_markdown Sample.a_host (map Sample.plain_row (seq 0 5))
                "out/role_assignments.md" 3 false empty_world))
    !! "out/role_assignments.md"%string
    = Some (MarkdownFile
              [ "| assignmentId |" +:+ nl; "|---|" +:+ nl ]
              [ "| a0 |" +:+ nl; "| a1 |" +:+ nl; "| a2 |" +:+ nl ]
              (nl +:+ "*Showing first 3 rows of 5 total*" +:+ nl))%string
  /\ length [ "| a0 |" +:+ nl; "| a1 |" +:+ nl; "| a2 |" +:+ nl ]%string = 3%nat
  /\ markdown_text
       [ "| assignmentId |" +:+ nl; "|---|" +:+ nl ]
       [ "| a0 |" +:+ nl; "| a1 |" +:+ nl; "| a2 |" +:+ nl ]
       (nl +:+ "*Showing first 3 rows of 5 total*" +:+ nl)%string
     = fold_right String.append EmptyString
         ([ "| assignmentId |" +:+ nl; "|---|" +:+ nl ]
          ++ [ "| a0 |" +:+ nl; "| a1 |" +:+ nl; "| a2 |" +:+ nl ])%list
       +:+ (nl +:+ "*Showing first 3 rows of 5 total*" +:+ nl).
Proof.
  exact (C8_markdown_rows_and_footer Sample.a_host (map Sample.plain_row (seq 0 5))
           "out/role_assignments.md" 3 false empty_world
           ltac:(discriminate) ltac:(lia) eq_refl).
Defined.

(** The text of that file. *)
Example markdown_file_text :
  markdown_text
    [ "| assignmentId |" +:+ nl; "|---|" +:+ nl ]
    [ "| a0 |" +:+ nl; "| a1 |" +:+ nl; "| a2 |" +:+ nl ]
    (nl +:+ "*Showing first 3 rows of 5 total*" +:+ nl)%string
  = ("| assignmentId |" +:+ nl +:+ "|---|" +:+ nl
     +:+ "| a0 |" +:+ nl +:+ "| a1 |" +:+ nl +:+ "| a2 |" +:+ nl
     +:+ nl +:+ "*Showing first 3 rows of 5 total*" +:+ nl)%string.
Proof. reflexivity. Qed.

(** ** The traversal *)

Lemma for_each_invariant {A S} (I : S -> world -> Prop) (body : A -> S -> M (S * ctl)) :
  (forall x s w, I s w -> I (body x s w).1.1 (body x s w).2) ->
  forall l s w, I s w -> I (for_each body l s w).1 (for_each body l s w).2.
Proof.
  intros Hbody. induction l as [|x l IH]; intros s w Hs; simpl; [done|].
  unfold bind. specialize (Hbody x s w Hs).
  destruct (body x s w) as [[s' c] w']. simpl in *.
  destruct c; [by apply IH | done].
Qed.

Lemma role_assignment_row_scope scope assignment :
  Py.get "scope" (role_assignment_row scope assignment) = Some (Py.VStr scope).
Proof.
  unfold role_assignment_row. by destruct (classify_scope scope) as [[ty sub] rg].
Qed.

Lemma role_assignment_row_inherited scope assignment :
  Py.get "inherited" (role_assignment_row scope assignment)
  = Some (provider_inherited assignment).
Proof.
  unfold role_assignment_row. by destruct (classify_scope scope) as [[ty sub] rg].
Qed.

(** What [get_role_assignments] returns and what it does. *)
Lemma get_role_assignments_rows t scope inc w :
  (get_role_assignments t scope inc w).1
  = match role_assignments_list_for_scope t scope inc with
    | Returned assignments => map (role_assignment_row scope) assignments
    | Raised _ => []
    end.
Proof.
  unfold get_role_assignments, bind, send, emit, warning.
  by destruct (role_assignments_list_for_scope t scope inc).
Qed.

Lemma get_role_assignments_asks t scope inc w :
  In (Request (ListRoleAssignments scope inc)) (trace (get_role_assignments t scope inc w).2).
Proof.
  unfold get_role_assignments, bind, send, emit, warning.
  destruct (role_assignments_list_for_scope t scope inc); simpl;
    rewrite ?in_app_iff; simpl; tauto.
Qed.

(** The marking loop of [main] changes nothing in rows whose [scope] is
    the queried scope, and it never raises on them. *)
Lemma mark_inherited_queried scope rows :
  Forall (fun r => Py.get "scope" r = Some (Py.VStr scope)) rows ->
  mark_inherited scope rows = Ok rows.
Proof.
  induction 1 as [|r rows Hr _ IH]; simpl; [done|].
  unfold item. rewrite Hr, IH.
  rewrite bool_decide_eq_false_2; [done|]. by intros H; apply H.
Qed.

Lemma mark_inherited_get_role_assignments t scope inc w :
  mark_inherited scope (get_role_assignments t scope inc w).1
  = Ok (get_role_assignments t scope inc w).1.
Proof.
  apply mark_inherited_queried. rewrite get_role_assignments_rows.
  destruct (role_assignments_list_for_scope t scope inc) as [l|e]; [|constructor].
  apply List.Forall_forall. intros r Hin. apply in_map_iff in Hin as (a & <- & _).
  apply role_assignment_row_scope.
Qed.

Lemma from_provider_extends t w w' r :
  extends w w' -> from_provider t w r -> from_provider t w' r.
Proof.
  intros Hext (scope & l & a & Hq & Hl & Ha & ->).
  exists scope, l, a. repeat split; try done. by eapply extends_In.
Qed.

Lemma get_role_assignments_from_provider t scope w :
  Forall (from_provider t (get_role_assignments t scope true w).2)
         (get_role_assignments t scope true w).1.
Proof.
  rewrite get_role_assignments_rows.
  destruct (role_assignments_list_for_scope t scope true) as [l|e] eqn:Hl; [|constructor].
  apply List.Forall_forall. intros r Hin. apply in_map_iff in Hin as (a & <- & Ha).
  exists scope, l, a. repeat split; try done. apply get_role_assignments_asks.
Qed.

(** A query followed by the marking loop and the merge keeps the
    invariant; this is the common part of the three per-scope bodies. *)
Lemma query_and_merge_invariant t scope c w (count : collected -> collected) :
  (forall c', all_role_assignments (count c') = all_role_assignments c'
              /\ scopes_skipped (count c') = scopes_skipped c'
              /\ errors (count c') = errors c'
              /\ warnings (count c') = warnings c') ->
  traversal_invariant t c w ->
  let q := get_role_assignments t scope true w in
  mark_inherited scope q.1 = Ok q.1
  /\ traversal_invariant t (count (extend_role_assignments q.1 c)) q.2.
Proof.
  intros Hcount (Hrows & Hskip & Herr & Hwarn) q.
  split; [apply mark_inherited_get_role_assignments|].
  unfold traversal_invariant.
  destruct (Hcount (extend_role_assignments q.1 c)) as (-> & -> & -> & ->).
  repeat split; try done. simpl.
  apply Forall_app. split.
  - eapply Forall_impl; [exact Hrows|].
    intros r. apply from_provider_extends, talks_only_get_role_assignments.
  - apply get_role_assignments_from_provider.
Qed.

Lemma traversal_invariant_extends t c w w' :
  extends w w' -> traversal_invariant t c w -> traversal_invariant t c w'.
Proof.
  intros Hext (Hrows & Hrest). split; [|done].
  eapply Forall_impl; [exact Hrows|]. intros r. by apply from_provider_extends.
Qed.

Lemma traversal_invariant_role_definitions t c w role_defs :
  traversal_invariant t c w -> traversal_invariant t (extend_role_definitions role_defs c) w.
Proof. by intros (? & ? & ? & ?). Qed.

Lemma process_resource_group_invariant args t sub_id rg c w :
  traversal_invariant t c w ->
  traversal_invariant t (process_resource_group args t sub_id rg c w).1.1
                        (process_resource_group args t sub_id rg c w).2.
Proof.
  intros Hc. unfold process_resource_group, bind.
  set (rg_scope := "/subscriptions/" +:+ sub_id +:+ "/resourceGroups/" +:+ rg_name rg).
  destruct (query_and_merge_invariant t rg_scope c w count_resource_group) as [Hmark Hinv];
    [done | exact Hc |].
  destruct (get_role_assignments t rg_scope true w) as [rows w1]. simpl in *.
  rewrite Hmark. by destruct (Py.limit_reached _ _).
Qed.

Lemma process_management_group_invariant args t mg c w :
  traversal_invariant t c w ->
  traversal_invariant t (process_management_group args t mg c w).1.1
                        (process_management_group args t mg c w).2.
Proof.
  intros Hc. unfold process_management_group, bind.
  set (scope := "/providers/Microsoft.Management/managementGroups/" +:+ mg_name mg).
  pose proof (talks_only_get_role_definitions t scope w) as Hext.
  destruct (get_role_definitions t scope w) as [role_defs w1]. simpl in Hext.
  destruct (query_and_merge_invariant t scope (extend_role_definitions role_defs c) w1
              count_management_group) as [Hmark Hinv]; [done | |].
  { apply traversal_invariant_role_definitions. by eapply traversal_invariant_extends. }
  destruct (get_role_assignments t scope true w1) as [rows w2]. simpl in *.
  rewrite Hmark. by destruct (Py.limit_reached _ _).
Qed.

Lemma process_subscription_invariant args t rgs sub c w :
  traversal_invariant t c w ->
  traversal_invariant t (process_subscription args t rgs sub c w).1.1
                        (process_subscription args t rgs sub c w).2.
Proof.
  intros Hc. unfold process_subscription, bind.
  set (scope := "/subscriptions/" +:+ sub_subscription_id sub).
  pose proof (talks_only_get_role_definitions t scope w) as Hext.
  destruct (get_role_definitions t scope w) as [role_defs w1]. simpl in Hext.
  destruct (query_and_merge_invariant t scope (extend_role_definitions role_defs c) w1
              count_subscription) as [Hmark Hinv]; [done | |].
  { apply traversal_invariant_role_definitions. by eapply traversal_invariant_extends. }
  destruct (get_role_assignments t scope true w1) as [rows w2]. simpl in *.
  rewrite Hmark.
  set (c1 := count_subscription _) in *.
  assert (Hrg : forall m : M collected,
            (m = ret c1 \/ exists l, m = for_each
                 (process_resource_group args t (sub_subscription_id sub)) l c1) ->
            traversal_invariant t (m w2).1 (m w2).2).
  { intros m [-> | [l ->]]; [done|].
    apply (for_each_invariant (traversal_invariant t)); [|done].
    intros. by apply process_resource_group_invariant. }
  match goal with
  | |- context [let (a, w') := ?m w2 in _] =>
      specialize (Hrg m); destruct (m w2) as [c2 w3]
  end.
  simpl in Hrg.
  assert (Hinv2 : traversal_invariant t c2 w3).
  { apply Hrg. destruct (Py.get _ rgs); [|by left].
    destruct (Args.include_resources args); [right; eauto | by left]. }
  by destruct (Py.limit_reached _ _).
Qed.

(** Every row of the traversal's merged collection comes from the
    provider, and the traversal records no skipped scope and no error. *)
Lemma aggregate_invariant args t mgs subs rgs w :
  let out := aggregate args t mgs subs rgs w in
  traversal_invariant t out.1 out.2.
Proof.
  unfold aggregate, bind.
  assert (H0 : traversal_invariant t nothing_collected w).
  { repeat split. constructor. }
  assert (Hmg : forall m : M collected,
            (m = ret nothing_collected
             \/ m = for_each (process_management_group args t) mgs nothing_collected) ->
            traversal_invariant t (m w).1 (m w).2).
  { intros m [-> | ->]; [done|].
    apply (for_each_invariant (traversal_invariant t)); [|done].
    intros. by apply process_management_group_invariant. }
  match goal with
  | |- context [let (a, w') := ?m w in _] =>
      specialize (Hmg m); destruct (m w) as [c1 w1]
  end.
  simpl in Hmg.
  apply (for_each_invariant (traversal_invariant t)).
  - intros. by apply process_subscription_invariant.
  - apply Hmg. destruct (Args.traverse_management_groups args); tauto.
Qed.

(** ** From the traversal to the emitters *)

Lemma keeps_trace_talks_only {A} (m : M A) : talks_only m -> keeps_trace m.
Proof. intros Hm w e. apply extends_In, Hm. Qed.

Lemma keeps_trace_ret {A} (a : A) : keeps_trace (ret a).
Proof. by intros w e. Qed.

Lemma keeps_trace_bind {A B} (m : M A) (k : A -> M B) :
  keeps_trace m -> (forall a, keeps_trace (k a)) -> keeps_trace (bind m k).
Proof.
  intros Hm Hk w e He. unfold bind. specialize (Hm w e He).
  destruct (m w) as [a w1]. by apply Hk.
Qed.

Lemma keeps_trace_resolve_principal h d pid ty nr rd :
  keeps_trace (resolve_principal h d pid ty nr rd).
Proof.
  intros w e He. unfold resolve_principal.
  destruct (principal_cache w !! pid); [done|].
  destruct nr; [done|].
  unfold bind. pose proof (talks_only_directory_lookup h d pid ty w) as Hext.
  destruct (directory_lookup h d pid ty w) as [r w1]. simpl in *.
  by eapply extends_In.
Qed.

Lemma keeps_trace_expand_group_members h d gid top mode :
  keeps_trace (expand_group_members h d gid top mode).
Proof. apply keeps_trace_talks_only. unfold expand_group_members. talk. Qed.

Lemma keeps_trace_for_rows body rows :
  (forall r, keeps_trace (body r)) -> keeps_trace (for_rows body rows).
Proof.
  intros Hbody. induction rows as [|r rows IH]; simpl; [apply keeps_trace_ret|].
  apply keeps_trace_bind; [apply Hbody|].
  intros [r'|e]; [|apply keeps_trace_ret].
  apply keeps_trace_bind; [apply IH|].
  intros [rest|e]; apply keeps_trace_ret.
Qed.

Lemma keeps_trace_resolve_assignment args h d r :
  keeps_trace (resolve_assignment args h d r).
Proof.
  unfold resolve_assignment.
  destruct (item_str "principalId" r); [|apply keeps_trace_ret].
  destruct (item_str "principalType" r); [|apply keeps_trace_ret].
  apply keeps_trace_bind; [apply keeps_trace_resolve_principal|].
  intros. apply keeps_trace_ret.
Qed.

Lemma keeps_trace_expand_assignment args h d r :
  keeps_trace (expand_assignment args h d r).
Proof.
  unfold expand_assignment.
  destruct (item "principalType" r); [|apply keeps_trace_ret].
  destruct (bool_decide _); [|apply keeps_trace_ret].
  destruct (item_str "principalId" r); [|apply keeps_trace_ret].
  apply keeps_trace_bind; [apply keeps_trace_expand_group_members|].
  intros [|m ms]; apply keeps_trace_ret.
Qed.

Lemma for_rows_Forall2 (R : row -> row -> Prop) body :
  (forall r w r', (body r w).1 = Ok r' -> R r r') ->
  forall rows w rows', (for_rows body rows w).1 = Ok rows' -> Forall2 R rows rows'.
Proof.
  intros Hbody. induction rows as [|r rows IH]; intros w rows'; simpl.
  - intros [= <-]. constructor.
  - unfold bind. specialize (Hbody r w).
    destruct (body r w) as [[r'|e] w1]; simpl in *; [|discriminate].
    specialize (IH w1).
    destruct (for_rows body rows w1) as [[rest|e] w2]; simpl in *; [|discriminate].
    intros [= <-]. constructor; eauto.
Qed.

Lemma keeps_fields_refl r : keeps_fields r r.
Proof. by repeat constructor. Qed.

Lemma keeps_fields_get r r' k :
  keeps_fields r r' -> In k kept_fields -> Py.get k r' = Py.get k r.
Proof.
  unfold keeps_fields. rewrite List.Forall_forall. intros H Hin. by apply H.
Qed.

Lemma resolve_assignment_keeps args h d r w r' :
  (resolve_assignment args h d r w).1 = Ok r' -> keeps_fields r r'.
Proof.
  unfold resolve_assignment.
  destruct (item_str "principalId" r); [|discriminate].
  destruct (item_str "principalType" r); [|intros [= <-]; apply keeps_fields_refl].
  unfold bind. destruct (resolve_principal _ _ _ _ _ _ w) as [resolved w1].
  intros [= <-]. repeat constructor; by rewrite !get_set_ne.
Qed.

Lemma expand_assignment_keeps args h d r w r' :
  (expand_assignment args h d r w).1 = Ok r' -> keeps_fields r r'.
Proof.
  unfold expand_assignment.
  destruct (item "principalType" r); [|discriminate].
  destruct (bool_decide _); [|intros [= <-]; apply keeps_fields_refl].
  destruct (item_str "principalId" r); [|discriminate].
  unfold bind. destruct (expand_group_members _ _ _ _ _ w) as [[|m ms] w1].
  - intros [= <-]. apply keeps_fields_refl.
  - intros [= <-]. unfold Py.update. simpl. repeat constructor; by rewrite !get_set_ne.
Qed.

Lemma origin_of_provider t w r : from_provider t w r -> origin t w r.
Proof.
  intros (scope & l & a & Hq & Hl & Ha & ->). exists scope, l, a.
  repeat split; try done.
  - apply role_assignment_row_scope.
  - apply role_assignment_row_inherited.
Qed.

Lemma origin_kept t w w' r r' :
  (forall e, In e (trace w) -> In e (trace w')) ->
  keeps_fields r r' -> origin t w r -> origin t w' r'.
Proof.
  intros Htrace Hk (scope & l & a & Hq & Hl & Ha & Hscope & Hinh).
  exists scope, l, a. repeat split; try done.
  - by apply Htrace.
  - rewrite (keeps_fields_get r r' "scope" Hk); [done | simpl; tauto].
  - rewrite (keeps_fields_get r r' "inherited" Hk); [done | simpl; tauto].
Qed.

Lemma Forall_origin_kept t w w' rows rows' :
  (forall e, In e (trace w) -> In e (trace w')) ->
  Forall2 keeps_fields rows rows' ->
  Forall (origin t w) rows -> Forall (origin t w') rows'.
Proof.
  intros Htrace H2. induction H2 as [|r r' rows rows' Hr _ IH]; [done|].
  intros Hall. apply Forall_cons in Hall as [H1 Hrest].
  constructor; [by eapply origin_kept | by apply IH].
Qed.

Lemma keeps_refl rows : Forall2 keeps_fields rows rows.
Proof. induction rows; constructor; [apply keeps_fields_refl | done]. Qed.

Lemma resolve_principals_origin args h d t rows w rows' :
  (resolve_principals args h d rows w).1 = Ok rows' ->
  Forall (origin t w) rows ->
  Forall (origin t (resolve_principals args h d rows w).2) rows'.
Proof.
  unfold resolve_principals.
  destruct rows as [|r rows]; [by intros [= <-]|].
  destruct (negb _); [|by intros [= <-]].
  intros Hok. apply Forall_origin_kept.
  - intros e. apply keeps_trace_for_rows. intros. apply keeps_trace_resolve_assignment.
  - eapply for_rows_Forall2; [|exact Hok]. apply resolve_assignment_keeps.
Qed.

Lemma expand_groups_origin args h d t rows w rows' :
  (expand_groups args h d rows w).1 = Ok rows' ->
  Forall (origin t w) rows ->
  Forall (origin t (expand_groups args h d rows w).2) rows'.
Proof.
  unfold expand_groups.
  destruct rows as [|r rows]; [by intros [= <-]|].
  destruct (Args.expand_group_members args); [|by intros [= <-]].
  intros Hok. apply Forall_origin_kept.
  - intros e. apply keeps_trace_for_rows. intros. apply keeps_trace_expand_assignment.
  - eapply for_rows_Forall2; [|exact Hok]. apply expand_assignment_keeps.
Qed.

(** What reaches the emitters: rows that stand for provider assignments
    with the queried scope and the provider's [inherited], and empty lists
    of skipped scopes and errors. *)
Lemma collect_origin args h t d mgs subs rgs w c w' :
  collect args h t d mgs subs rgs w = (Ok c, w') ->
  Forall (origin t w') (all_role_assignments c)
  /\ scopes_skipped c = []
  /\ errors c = [].
Proof.
  unfold collect, bind.
  pose proof (aggregate_invariant args t mgs subs rgs w) as Hagg.
  destruct (aggregate args t mgs subs rgs w) as [c0 w0].
  destruct Hagg as (Hrows & Hskip & Herr & _). simpl in *.
  assert (H0 : Forall (origin t w0) (all_role_assignments c0)).
  { eapply Forall_impl; [exact Hrows|]. intros r. apply origin_of_provider. }
  pose proof (resolve_principals_origin args h d t (all_role_assignments c0) w0) as Hres.
  destruct (resolve_principals args h d (all_role_assignments c0) w0) as [[rows1|e] w1];
    [|discriminate].
  specialize (Hres rows1 eq_refl H0). simpl in Hres.
  pose proof (expand_groups_origin args h d t rows1 w1) as Hexp.
  destruct (expand_groups args h d rows1 w1) as [[rows2|e] w2]; [|discriminate].
  specialize (Hexp rows2 eq_refl Hres). simpl in Hexp.
  intros [= <- <-]. by repeat split.
Qed.

(** ** No exception escapes the later loops *)

Lemma from_provider_has_principal t w r : from_provider t w r -> has_principal r.
Proof.
  intros (scope & l & a & _ & _ & _ & ->).
  unfold has_principal, role_assignment_row.
  destruct (classify_scope scope) as [[ty sub] rg]. simpl. eauto.
Qed.

Lemma has_principal_kept r r' : keeps_fields r r' -> has_principal r -> has_principal r'.
Proof.
  intros Hk [Hid Hty]. split.
  - rewrite (keeps_fields_get r r' "principalId" Hk); [done | simpl; tauto].
  - rewrite (keeps_fields_get r r' "principalType" Hk); [done | simpl; tauto].
Qed.

Lemma resolve_assignment_returns args h d r w :
  has_principal r -> exists r', (resolve_assignment args h d r w).1 = Ok r'.
Proof.
  intros [[pid Hid] [ty Hty]]. unfold resolve_assignment, item_str, item.
  rewrite Hid, Hty. unfold bind.
  destruct (resolve_principal _ _ _ _ _ _ w). simpl. eauto.
Qed.

Lemma expand_assignment_returns args h d r w :
  has_principal r -> exists r', (expand_assignment args h d r w).1 = Ok r'.
Proof.
  intros [[pid Hid] [ty Hty]]. unfold expand_assignment, item_str, item.
  rewrite Hid, Hty. destruct (bool_decide _); [|simpl; eauto].
  unfold bind. destruct (expand_group_members _ _ _ _ _ w) as [[|m ms] w1]; simpl; eauto.
Qed.

Lemma for_rows_returns body rows w :
  (forall r w, has_principal r -> exists r', (body r w).1 = Ok r') ->
  Forall has_principal rows ->
  exists rows', (for_rows body rows w).1 = Ok rows'.
Proof.
  intros Hbody Hrows. revert w.
  induction Hrows as [|r rows Hr _ IH]; intros w; simpl; [by eexists|].
  unfold bind. destruct (Hbody r w Hr) as [r' Hr'].
  destruct (body r w) as [res w1]. simpl in Hr'. subst res.
  destruct (IH w1) as [rest Hrest].
  destruct (for_rows body rows w1) as [res w2]. simpl in Hrest. subst res.
  simpl. eauto.
Qed.

Lemma Forall_has_principal_kept rows rows' :
  Forall2 keeps_fields rows rows' -> Forall has_principal rows -> Forall has_principal rows'.
Proof.
  induction 1 as [|r r' rows rows' Hr _ IH]; [done|].
  intros Hall. apply Forall_cons in Hall as [H1 Hrest].
  constructor; [by eapply has_principal_kept | by apply IH].
Qed.

(** The rows of the traversal go through principal resolution and group
    expansion without raising: [collect] always produces its collection. *)
Lemma collect_returns args h t d mgs subs rgs w :
  exists c, (collect args h t d mgs subs rgs w).1 = Ok c.
Proof.
  unfold collect, bind.
  pose proof (aggregate_invariant args t mgs subs rgs w) as Hagg.
  destruct (aggregate args t mgs subs rgs w) as [c0 w0].
  destruct Hagg as (Hrows & _). simpl in Hrows.
  assert (H0 : Forall has_principal (all_role_assignments c0)).
  { eapply Forall_impl; [exact Hrows|]. intros r. apply from_provider_has_principal. }
  assert (H1 : exists rows1,
             (resolve_principals args h d (all_role_assignments c0) w0).1 = Ok rows1
             /\ Forall has_principal rows1).
  { unfold resolve_principals.
    destruct (all_role_assignments c0) as [|r rows] eqn:E; [by eexists|].
    destruct (negb _); [|by eexists].
    destruct (for_rows_returns (resolve_assignment args h d) (r :: rows) w0) as [rows1 Hok];
      [intros; by apply resolve_assignment_returns | done |].
    exists rows1. split; [done|].
    eapply Forall_has_principal_kept; [|exact H0].
    eapply for_rows_Forall2; [|exact Hok]. apply resolve_assignment_keeps. }
  destruct H1 as (rows1 & Hok1 & Hp1).
  destruct (resolve_principals args h d (all_role_assignments c0) w0) as [res w1].
  simpl in Hok1. subst res.
  assert (H2 : exists rows2, (expand_groups args h d rows1 w1).1 = Ok rows2).
  { unfold expand_groups.
    destruct rows1 as [|r rows]; [by eexists|].
    destruct (Args.expand_group_members args); [|by eexists].
    apply for_rows_returns; [intros; by apply expand_assignment_returns | done]. }
  destruct H2 as (rows2 & Hok2).
  destruct (expand_groups args h d rows1 w1) as [res w2].
  simpl in Hok2. subst res. simpl. eauto.
Qed.

(** ** The merged collection *)

(** C9. Every record [get_role_assignments] produces has the queried
    scope in its [scope] field, whatever scope the provider's assignment
    was made at; and [main] always gets to the merged collection it hands
    to the emitters, in which every record has in its [scope] field a
    scope whose assignments were queried during the run. *)
Theorem C9_scope_field_is_queried_scope :
  (forall t scope include_inherited w,
     Forall (fun r => Py.get "scope" r = Some (Py.VStr scope))
            (get_role_assignments t scope include_inherited w).1)
  /\ (forall args h t d mgs subs rgs w,
        let out := collect args h t d mgs subs rgs w in
        exists c,
          out.1 = Ok c
          /\ Forall (fun r => exists scope,
                        queried out.2 scope /\ Py.get "scope" r = Some (Py.VStr scope))
                    (all_role_assignments c)).
Proof.
  split.
  - intros t scope inc w. rewrite get_role_assignments_rows.
    destruct (role_assignments_list_for_scope t scope inc) as [l|e]; [|constructor].
    apply List.Forall_forall. intros r Hin. apply in_map_iff in Hin as (a & <- & _).
    apply role_assignment_row_scope.
  - intros args h t d mgs subs rgs w out.
    destruct (collect_returns args h t d mgs subs rgs w) as [c Hc].
    exists c. split; [exact Hc|].
    assert (Hout : collect args h t d mgs subs rgs w = (Ok c, out.2)).
    { subst out. destruct (collect args h t d mgs subs rgs w) as [res w']. simpl in *.
      by subst res. }
    destruct (collect_origin _ _ _ _ _ _ _ _ _ _ Hout) as (Hrows & _).
    eapply Forall_impl; [exact Hrows|].
    intros r (scope & l & a & Hq & _ & _ & Hs & _). by exists scope.
Qed.

(** The collection of the sample run: two records, both with the scope of
    the one query that was sent. *)
Example merged_scopes :
  let out := collect Sample.args_abc Sample.a_host Sample.small_tenant Sample.a_directory
               [] [Sample.sub_abc] [] empty_world in
  requests (trace out.2)
    = [ ListRoleDefinitions Sample.abc_scope; ListRoleAssignments Sample.abc_scope true;
        GraphUser "p-user" ]
  /\ exists c, out.1 = Ok c
       /\ map (Py.get "scope") (all_role_assignments c)
          = [Some (Py.VStr Sample.abc_scope); Some (Py.VStr Sample.abc_scope)].
Proof. vm_compute. split; [reflexivity|]. eexists. split; reflexivity. Qed.

(** The provider's object for the inherited assignment says it was made
    at the management group; the record built for the query at the
    subscription says the subscription. *)
Example native_scope_is_dropped :
  ra_scope Sample.inherited_assignment = Sample.mg1_scope
  /\ Py.get "scope" (role_assignment_row Sample.abc_scope Sample.inherited_assignment)
     = Some (Py.VStr Sample.abc_scope).
Proof. split; reflexivity. Qed.

(** ** The inherited flag *)

(** The marking loop of [main] never fires: in the collection handed to
    the emitters, the [inherited] field of every record is the value the
    provider supplied for the assignment the record stands for. *)
Lemma inherited_is_provider_supplied args h t d mgs subs rgs w c w' :
  collect args h t d mgs subs rgs w = (Ok c, w') ->
  Forall (origin t w') (all_role_assignments c).
Proof. intros Hc. by destruct (collect_origin _ _ _ _ _ _ _ _ _ _ Hc). Qed.

(** C1, on the code. The provider returns, for the query at
    [/subscriptions/abc], an assignment made at the management group above
    with no [inherited] property. The run ends with exit code 0 and the
    record written for that assignment has [inherited] equal to [False]:
    the loop that should mark it compares the [scope] field, which
    [get_role_assignments] has set to the queried scope, with the queried
    scope. *)
Theorem C1_inherited_is_not_recomputed :
  let run := main Sample.args_abc Sample.a_host Sample.small_tenant Sample.a_directory
               empty_world in
  role_assignments_list_for_scope Sample.small_tenant Sample.abc_scope true
    = Returned [Sample.native_assignment; Sample.inherited_assignment]
  /\ ra_scope Sample.inherited_assignment <> Sample.abc_scope
  /\ run.1 = Exit 0
  /\ exists r1 r2,
       files run.2 !! "out/role_assignments.json"%string = Some (JsonFile [r1; r2])
       /\ Py.get "assignmentId" r2 = Some (Py.VStr (ra_id Sample.inherited_assignment))
       /\ Py.get "scope" r2 = Some (Py.VStr Sample.abc_scope)
       /\ Py.get "inherited" r2 = Some (Py.VBool false).
Proof.
  repeat split; [discriminate|].
  vm_compute. do 2 eexists. repeat split.
Qed.

(** ** Failed fetches *)


(** C7, on the code. The listing of the role assignments of
    [/subscriptions/abc] raises. The failure is logged as a warning by
    [get_role_assignments] and the run goes on, but nothing is appended to
    the skipped scopes or to the errors: the summary lists no skipped
    scope, reports success, and the exit code is 0. *)
Theorem C7_failed_fetch_is_not_recorded :
  let run := main Sample.args_abc Sample.a_host Sample.failing_tenant Sample.a_directory
               empty_world in
  role_assignments_list_for_scope Sample.failing_tenant Sample.abc_scope true
    = Raised "(AuthorizationFailed)"
  /\ In (Log WARNING
           "Failed to list role assignments at /subscriptions/abc: (AuthorizationFailed)")
        (trace run.2)
  /\ run.1 = Exit 0
  /\ exists s, summary run.2 = Some s
               /\ sm_scopes_skipped s = []
               /\ sm_errors s = []
               /\ sm_success s = true.
Proof.
  repeat split.
  - vm_compute. tauto.
  - vm_compute. eexists. repeat split.
Qed.

(** The handler the failure should have reached, run by hand on the same
    scope, is what records the tag and the error. *)
Example skip_scope_records :
  let out := skip_scope "Failed to process subscription abc: (AuthorizationFailed)"
               "SUB:abc" nothing_collected empty_world in
  scopes_skipped out.1 = ["SUB:abc"]%string
  /\ errors out.1 = ["Failed to process subscription abc: (AuthorizationFailed)"]%string.
Proof. split; reflexivity. Qed.

(* ===================================================================== *)
(** * Further properties of the script *)
(* ===================================================================== *)

(** ** How a run ends *)

Lemma validate_arguments_code args code : validate_arguments args = inl code -> code = 1.
Proof.
  unfold validate_arguments.
  destruct (_ && _ && _); [by intros [= <-]|].
  destruct (bool_decide _ && _); [by intros [= <-]|].
  destruct (Args.subscriptions args) as [[|s l]|]; discriminate.
Qed.


Lemma bootstrap_stage args h st :
  bootstrap args h = Some st -> st = Aborted 1 \/ exists e, st = Crashed e /\ bootstrap_run h = Raised e.
Proof.
  unfold bootstrap. destruct (Args.bootstrap args); [|discriminate].
  destruct (which_pwsh h); [|intros [= <-]; by left].
  destruct (bootstrap_run h) as [rc|e]; [|intros [= <-]; right; eauto].
  destruct (negb _); [intros [= <-]; by left | discriminate].
Qed.


Lemma discover_stage args t cred w st w' :
  discover args t cred w = (st, w') ->
  st = Aborted 1 \/ exists mgs subs rgs, st = Discovered args cred mgs subs rgs.
Proof.
  unfold discover, bind.
  destruct (if Args.traverse_management_groups args then _ else _) as [m w2].
  destruct (if Args.has_subscriptions args then _ else _) as [[|s ss] w3].
  - simpl. intros [= <- _]. by left.
  - destruct (enumerate_resource_groups args t (s :: ss) w3) as [r w4].
    intros [= <- _]. right. eauto.
Qed.

Lemma main_until_rail_aborts_with_1 args h t w code w' :
  main_until_rail args h t w = (Aborted code, w') -> code = 1.
Proof.
  unfold main_until_rail.
  destruct (validate_arguments args) as [c|a] eqn:Hval.
  { intros [= <- _]. by eapply validate_arguments_code. }
  destruct (bootstrap a h) as [st|] eqn:Hboot.
  { intros [= -> _]. by destruct (bootstrap_stage _ _ _ Hboot) as [[= ->]|(e & [=] & _)]. }
  unfold bind.
  destruct (init_logging h script_name w) as [[paths|e] w1]; [|discriminate].
  destruct (preflight_check h w1) as [[c|] w2]; [|by intros [= <- _]].
  intros Hd. by destruct (discover_stage _ _ _ _ _ _ Hd) as [[= ->]|(? & ? & ? & [=])].
Qed.


(** What discovery has established when a run reaches the rail. *)
Lemma main_until_rail_discovered args h t w args' cred mgs subs rgs w' :
  main_until_rail args h t w = (Discovered args' cred mgs subs rgs, w') ->
  validate_arguments args = inr args'
  /\ subs <> []
  /\ (exists ids w0, (get_subscriptions t ids w0).1 = subs)
  /\ exists w0, enumerate_resource_groups args' t subs w0 = (rgs, w').
Proof.
  intros Hreach.
  apply main_until_rail_reached in Hreach as (Hval & _ & paths & w1 & w2 & _ & _ & Hd).
  split; [done|]. revert Hd. unfold discover, bind.
  destruct (if Args.traverse_management_groups args' then _ else _) as [m w3].
  destruct (if Args.has_subscriptions args' then _ else _) as [l w4] eqn:Hsubs.
  destruct l as [|s ss]; [simpl; discriminate|].
  destruct (enumerate_resource_groups args' t (s :: ss) w4) as [r w5] eqn:Hrg.
  unfold ret. intros [= _ <- <- <-].
  repeat split; try done.
  - destruct (Args.has_subscriptions args').
    + exists (Args.subscriptions args'), w3. by rewrite Hsubs.
    + destruct (_ || _).
      * exists None, w3. by rewrite Hsubs.
      * discriminate.
  - by exists w4.
Qed.


(** A run that ends on the exception of the output directory: the path
    given with [--output-path] is a file. *)
Example output_path_is_a_file :
  let h :=
    {| HAS_OPENPYXL := true; HAS_GRAPH := true;
       default_get_token := Returned tt; cli_get_token := Returned tt;
       which_pwsh := None; bootstrap_run := Returned 0;
       utc_date := "20240101"; run_id := "r1"; utc_timestamp := "20240101_000000";
       mkdir_error := fun p =>
         if String.eqb p "out" then Some "[Errno 17] File exists: 'out'" else None;
       open_error := fun _ => None;
       cell_error := fun _ => None;
       set_order := fun l => l |} in
  (main Sample.args_abc h Sample.small_tenant Sample.a_directory empty_world).1
  = Uncaught "[Errno 17] File exists: 'out'".
Proof. vm_compute. reflexivity. Qed.

(** X2. Without [--subscriptions], [--discover-subscriptions] and
    [--traverse-management-groups], [main] exits with code 1 before
    anything is sent or written. *)
Theorem X2_no_target_selection (args : Args.t) (h : host) (t : tenant) (d : directory)
  (w : world) :
  Args.has_subscriptions args = false ->
  Args.discover_subscriptions args = false ->
  Args.traverse_management_groups args = false ->
  main args h t d w = (Exit 1, w).
Proof.
  intros H1 H2 H3. unfold main, main_until_rail, validate_arguments.
  by rewrite H1, H2, H3.
Qed.

Lemma X2_no_target_selection_witness :
  main default_args Sample.a_host Sample.small_tenant Sample.a_directory empty_world
  = (Exit 1, empty_world).
Proof. apply (X2_no_target_selection default_args); reflexivity. Defined.

Lemma main_at_rail args h t d w args' cred mgs subs rgs w' :
  main_until_rail args h t w = (Discovered args' cred mgs subs rgs, w') ->
  if Args.confirm_large_scan args
     || negb ((25 <? Z.of_nat (length subs))
              || (200 <? total_rg_count rgs)
              || (Args.include_resources args && negb (Args.has_subscriptions args')))
  then main args h t d w = main_after_rail args' h t d cred mgs subs rgs w'
  else (main args h t d w).1 = Exit 2
       /\ files (main args h t d w).2 = files w
       /\ dirs (main args h t d w).2 = dirs w
       /\ summary (main args h t d w).2 = summary w.
Proof.
  intros Hreach.
  destruct (main_until_rail_discovered _ _ _ _ _ _ _ _ _ _ Hreach) as (Hval & _).
  destruct (validate_arguments_flags _ _ Hval) as (Hconfirm & _ & Hinc).
  pose proof (talks_only_main_until_rail args h t w) as Hext.
  rewrite Hreach in Hext. simpl in Hext.
  unfold main, bind. rewrite Hreach. unfold main_from_rail, bind.
  unfold check_large_tenant_thresholds,
    LARGE_SUBSCRIPTION_THRESHOLD, LARGE_RESOURCE_GROUP_THRESHOLD.
  rewrite Hconfirm, Hinc.
  destruct (_ || _ || _); destruct (Args.confirm_large_scan args); simpl; try reflexivity.
  rewrite <- (extends_files _ _ Hext), <- (extends_dirs _ _ Hext),
    <- (extends_summary _ _ Hext).
  repeat split.
Qed.

(** X3. [--include-resources] without explicit subscriptions never gets
    past the safety rail unless [--confirm-large-scan] is given, however
    small the tenant: the run writes no output file, no output directory
    and no summary and does not exit with code 0; when discovery has
    succeeded it exits with code 2. *)
Theorem X3_include_resources_needs_confirmation (args : Args.t) (h : host) (t : tenant)
  (d : directory) (w : world) :
  Args.include_resources args = true ->
  Args.has_subscriptions args = false ->
  Args.confirm_large_scan args = false ->
  let out := main args h t d w in
  out.1 <> Exit 0
  /\ files out.2 = files w /\ dirs out.2 = dirs w /\ summary out.2 = summary w
  /\ forall args' cred mgs subs rgs w',
       main_until_rail args h t w = (Discovered args' cred mgs subs rgs, w') ->
       out.1 = Exit 2.
Proof.
  intros Hinc Hsubs Hconfirm out.
  assert (Hrail : forall args' cred mgs subs rgs w',
             main_until_rail args h t w = (Discovered args' cred mgs subs rgs, w') ->
             out.1 = Exit 2
             /\ files out.2 = files w /\ dirs out.2 = dirs w /\ summary out.2 = summary w).
  { intros args' cred mgs subs rgs w' Hreach.
    pose proof (main_at_rail args h t d w _ _ _ _ _ _ Hreach) as H.
    assert (Hsubs' : Args.has_subscriptions args' = false).
    { apply main_until_rail_validated in Hreach. revert Hreach Hsubs.
      unfold validate_arguments, Args.has_subscriptions.
      destruct (_ && _ && _); [discriminate|].
      destruct (bool_decide _ && _); [discriminate|].
      destruct (Args.subscriptions args) as [[|s l]|] eqn:E;
        intros [= <-]; rewrite ?E; done. }
    rewrite Hinc, Hsubs', Hconfirm in H. cbn [negb andb orb] in H.
    by rewrite !orb_true_r in H. }
  subst out. unfold main, bind in *.
  pose proof (talks_only_main_until_rail args h t w) as Hext.
  destruct (main_until_rail args h t w) as [[code|e|a cred mgs subs rgs] w1] eqn:Hreach;
    simpl in Hext.
  - apply main_until_rail_aborts_with_1 in Hreach. subst code. simpl.
    rewrite (extends_files _ _ Hext), (extends_dirs _ _ Hext), (extends_summary _ _ Hext).
    by split_and!.
  - simpl.
    rewrite (extends_files _ _ Hext), (extends_dirs _ _ Hext), (extends_summary _ _ Hext).
    by split_and!.
  - destruct (Hrail _ _ _ _ _ _ eq_refl) as (Hexit & Hf & Hd & Hs).
    split_and!; try done. by rewrite Hexit.
Qed.

Lemma X3_include_resources_needs_confirmation_witness :
  let args :=
    Args.mk None true false false DEFAULT_MARKDOWN_TOP false false (Some "out"%string) true
            DEFAULT_MAX_CONCURRENCY None true false DEFAULT_GROUP_MEMBERS_TOP direct
            false false in
  let out := main args Sample.a_host Sample.small_tenant Sample.a_directory empty_world in
  out.1 <> Exit 0
  /\ files out.2 = files empty_world /\ dirs out.2 = dirs empty_world
  /\ summary out.2 = summary empty_world
  /\ forall args' cred mgs subs rgs w',
       main_until_rail args Sample.a_host Sample.small_tenant empty_world
       = (Discovered args' cred mgs subs rgs, w') ->
       out.1 = Exit 2.
Proof.
  exact (X3_include_resources_needs_confirmation
           (Args.mk None true false false DEFAULT_MARKDOWN_TOP false false
              (Some "out"%string) true DEFAULT_MAX_CONCURRENCY None true false
              DEFAULT_GROUP_MEMBERS_TOP direct false false)
           Sample.a_host Sample.small_tenant Sample.a_directory empty_world
           eq_refl eq_refl eq_refl).
Defined.

(** The run of the witness: one subscription, no resource group, and the
    rail stops it. *)
Example small_tenant_stopped_by_the_rail :
  (main (Args.mk None true false false DEFAULT_MARKDOWN_TOP false false
           (Some "out"%string) true DEFAULT_MAX_CONCURRENCY None true false
           DEFAULT_GROUP_MEMBERS_TOP direct false false)
        Sample.a_host Sample.small_tenant Sample.a_directory empty_world).1
  = Exit 2.
Proof. vm_compute. reflexivity. Qed.

(** ** What is sent *)

Lemma says_ret {A} P (a : A) : says P (ret a).
Proof. intros w. exists []. by rewrite app_nil_r. Qed.

Lemma says_bind {A B} P (m : M A) (k : A -> M B) :
  says P m -> (forall a, says P (k a)) -> says P (bind m k).
Proof.
  intros Hm Hk w. unfold bind. destruct (Hm w) as (e1 & H1 & HP1).
  destruct (m w) as [a w1]. destruct (Hk a w1) as (e2 & H2 & HP2). simpl in *.
  exists (e1 ++ e2). rewrite H2, H1, app_assoc. split; [done|]. by apply Forall_app.
Qed.

Lemma says_emit (P : event -> Prop) e : P e -> says P (emit e).
Proof. intros He w. exists [e]. split; [done|]. by constructor. Qed.

Lemma says_for_each {A S} P (body : A -> S -> M (S * ctl)) l :
  (forall x s, says P (body x s)) -> forall s, says P (for_each body l s).
Proof.
  intros Hbody. induction l as [|x l IH]; intros s; simpl.
  - apply says_ret.
  - apply says_bind; [apply Hbody|].
    intros [s' []]; simpl; [apply IH | apply says_ret].
Qed.

Lemma says_for_rows P body rows :
  (forall r, says P (body r)) -> says P (for_rows body rows).
Proof.
  intros Hbody. induction rows as [|r rows IH]; simpl; [apply says_ret|].
  apply says_bind; [apply Hbody|].
  intros [r'|e]; [|apply says_ret].
  apply says_bind; [apply IH|].
  intros [rest|e]; apply says_ret.
Qed.

Lemma says_weaken {A} (P Q : event -> Prop) (m : M A) :
  (forall e, P e -> Q e) -> says P m -> says Q m.
Proof.
  intros HPQ Hm w. destruct (Hm w) as (evs & H & HP). exists evs. split; [done|].
  eapply Forall_impl; eauto.
Qed.

Ltac says :=
  repeat first
    [ apply says_ret
    | apply says_emit; simpl; try done
    | apply says_bind; [|intros ?]
    | apply says_for_each; intros ? ?
    | progress unfold send, warning, error
    | match goal with
      | |- says _ (match ?x with _ => _ end) => destruct x
      | |- says _ (if ?b then _ else _) => destruct b
      end ].

Lemma validate_arguments_limit args args' :
  validate_arguments args = inr args' -> Args.limit args' = Args.limit args.
Proof.
  unfold validate_arguments.
  destruct (_ && _ && _); [discriminate|].
  destruct (_ && _); [discriminate|].
  destruct (Args.subscriptions args) as [[|s subs]|]; intros [= <-]; done.
Qed.

Lemma says_main_until_rail_no_resource_groups args h t :
  Args.include_resources args = false ->
  Py.limit_set (Args.limit args) = false ->
  says not_resource_groups (main_until_rail args h t).
Proof.
  intros Hinc Hlim. unfold main_until_rail.
  destruct (validate_arguments args) as [code|a] eqn:Hval; [apply says_ret|].
  destruct (validate_arguments_flags _ _ Hval) as (_ & _ & Hinc').
  pose proof (validate_arguments_limit _ _ Hval) as Hlim'.
  destruct (bootstrap a h); [apply says_ret|].
  apply says_bind; [unfold init_logging; says|].
  intros [paths|e]; [|apply says_ret].
  apply says_bind; [unfold preflight_check; says|].
  intros [cred|]; [|apply says_ret].
  unfold discover. apply says_bind.
  { destruct (Args.traverse_management_groups a); [|apply says_ret].
    unfold get_management_groups. says. }
  intros mgs. apply says_bind.
  { unfold get_subscriptions. says. }
  intros [|sub subs]; [says|].
  apply says_bind; [|intros; apply says_ret].
  unfold enumerate_resource_groups. rewrite Hinc', Hlim', Hinc, Hlim. apply says_ret.
Qed.

(** X4. Resource groups are listed only with [--include-resources] or a
    non-zero [--limit]. Without both, discovery sends no resource-group
    listing and ends with no resource group at all, so a tenant with at
    most 25 subscriptions passes the rail without confirmation however
    many resource groups it holds. *)
Theorem X4_resource_group_rail_needs_enumeration (args : Args.t) (h : host) (t : tenant)
  (d : directory) (w : world) (args' : Args.t) (cred : credential)
  (management_groups : list management_group) (subscriptions : list subscription)
  (resource_groups_per_sub : Py.dict (list resource_group)) (w' : world) :
  main_until_rail args h t w
    = (Discovered args' cred management_groups subscriptions resource_groups_per_sub, w') ->
  Args.include_resources args = false ->
  Py.limit_set (Args.limit args) = false ->
  resource_groups_per_sub = []
  /\ (exists evs, trace w' = trace w ++ evs /\ Forall not_resource_groups evs)
  /\ (Z.of_nat (length subscriptions) <= 25 ->
      main args h t d w
      = main_after_rail args' h t d cred management_groups subscriptions [] w').
Proof.
  intros Hreach Hinc Hlim.
  destruct (main_until_rail_discovered _ _ _ _ _ _ _ _ _ _ Hreach)
    as (Hval & _ & _ & w0 & Henum).
  destruct (validate_arguments_flags _ _ Hval) as (_ & _ & Hinc').
  pose proof (validate_arguments_limit _ _ Hval) as Hlim'.
  assert (Hrgs : resource_groups_per_sub = []).
  { revert Henum. unfold enumerate_resource_groups.
    rewrite Hinc', Hlim', Hinc, Hlim. by intros [= <- _]. }
  subst resource_groups_per_sub.
  split; [done|]. split.
  - pose proof (says_main_until_rail_no_resource_groups args h t Hinc Hlim w) as Hs.
    by rewrite Hreach in Hs.
  - intros Hfew.
    pose proof (main_at_rail args h t d w _ _ _ _ _ _ Hreach) as Hrail.
    rewrite Hinc in Hrail.
    replace (25 <? Z.of_nat (length subscriptions)) with false in Hrail
      by (symmetry; apply Z.ltb_ge; lia).
    simpl in Hrail. by rewrite orb_true_r in Hrail.
Qed.

Lemma X4_resource_group_rail_needs_enumeration_witness :
  ([] : Py.dict (list resource_group)) = []
  /\ (exists evs,
        trace discovered_abc = trace empty_world ++ evs
        /\ Forall not_resource_groups evs)
  /\ (Z.of_nat (length [Sample.sub_abc]) <= 25 ->
      main Sample.args_abc Sample.a_host Sample.small_tenant Sample.a_directory empty_world
      = main_after_rail
          (Args.with_subscriptions (Some ["abc"]%string) Sample.args_abc)
          Sample.a_host Sample.small_tenant Sample.a_directory DefaultAzureCredential []
          [Sample.sub_abc] [] discovered_abc).
Proof.
  exact (X4_resource_group_rail_needs_enumeration Sample.args_abc Sample.a_host
           Sample.small_tenant Sample.a_directory empty_world
           (Args.with_subscriptions (Some ["abc"]%string) Sample.args_abc)
           DefaultAzureCredential [] [Sample.sub_abc] [] discovered_abc
           eq_refl eq_refl eq_refl).
Defined.

(** ** Redaction of a row *)

Section DictMore.
Context {V : Type}.
Implicit Types (d : Py.dict V) (k : string) (v : V).

Lemma keys_set_present k v d :
  Py.has k d = true -> Py.keys (Py.set k v d) = Py.keys d.
Proof.
  unfold Py.has, Py.keys. induction d as [|[k' v'] d IH]; simpl; [discriminate|].
  destruct (String.eqb k' k) eqn:E; simpl; [done|].
  intros H. by rewrite IH.
Qed.

Lemma set_same k v d : Py.get k d = Some v -> Py.set k v d = d.
Proof.
  induction d as [|[k' v'] d IH]; simpl; [discriminate|].
  destruct (String.eqb k' k) eqn:E.
  - by intros [= ->].
  - intros H. by rewrite IH.
Qed.

Lemma has_set k k' v d : Py.has k' (Py.set k v d) = String.eqb k k' || Py.has k' d.
Proof.
  unfold Py.has. rewrite get_set. by destruct (String.eqb k k').
Qed.

End DictMore.

Lemma redact_key_keys r key : Py.keys (redact_key r key) = Py.keys r.
Proof.
  unfold redact_key. destruct (Py.has key r) eqn:E; [|done]. by apply keys_set_present.
Qed.

Lemma redact_key_get r key k :
  Py.get k (redact_key r key)
  = if String.eqb key k && Py.has key r then Some (Py.VStr REDACTED) else Py.get k r.
Proof.
  unfold redact_key. destruct (Py.has key r) eqn:E.
  - rewrite get_set. by destruct (String.eqb key k).
  - by rewrite andb_false_r.
Qed.

Lemma redact_key_fixed r key :
  match Py.get key r with Some v => v = Py.VStr REDACTED | None => True end ->
  redact_key r key = r.
Proof.
  unfold redact_key, Py.has. destruct (Py.get key r) as [v|] eqn:E; [|done].
  intros ->. by apply set_same.
Qed.

Lemma redact_row_unfold r :
  redact_row r = redact_key (redact_key r "principalUPNOrAppId") "memberUPN".
Proof. reflexivity. Qed.

Lemma redact_row_keys r : Py.keys (redact_row r) = Py.keys r.
Proof. by rewrite redact_row_unfold, !redact_key_keys. Qed.

Lemma redact_row_get r k :
  Py.get k (redact_row r)
  = if Py.mem k redacted_keys && Py.has k r then Some (Py.VStr REDACTED) else Py.get k r.
Proof.
  rewrite redact_row_unfold, !redact_key_get.
  unfold Py.mem, redacted_keys. cbn [existsb]. rewrite orb_false_r.
  rewrite (String.eqb_sym k "principalUPNOrAppId"), (String.eqb_sym k "memberUPN").
  assert (Hhas : Py.has "memberUPN" (redact_key r "principalUPNOrAppId")
                 = Py.has "memberUPN" r).
  { unfold Py.has. rewrite redact_key_get.
    by replace (String.eqb "principalUPNOrAppId" "memberUPN") with false by reflexivity. }
  rewrite Hhas.
  destruct (String.eqb_spec "memberUPN" k) as [<-|Hm].
  - replace (String.eqb "principalUPNOrAppId" "memberUPN") with false by reflexivity.
    cbn [orb andb]. by destruct (Py.has "memberUPN" r).
  - cbn [orb andb]. rewrite orb_false_r.
    destruct (String.eqb_spec "principalUPNOrAppId" k) as [<-|Hp]; done.
Qed.

(** X5. Redaction of a row keeps its columns, in order; it puts the
    sentinel in [principalUPNOrAppId] and [memberUPN] when the row has
    them and changes no other field (among them [principalDisplayName]
    and [memberDisplayName]); and redacting twice is redacting once. *)
Theorem X5_redact_row (r : row) :
  Py.keys (redact_row r) = Py.keys r
  /\ (forall k,
        Py.get k (redact_row r)
        = if Py.mem k redacted_keys && Py.has k r
          then Some (Py.VStr REDACTED) else Py.get k r)
  /\ redact_row (redact_row r) = redact_row r.
Proof.
  split; [apply redact_row_keys|]. split; [apply redact_row_get|].
  rewrite (redact_row_unfold (redact_row r)).
  assert (Hfixed : forall key, In key redacted_keys ->
            match Py.get key (redact_row r) with
            | Some v => v = Py.VStr REDACTED
            | None => True
            end).
  { intros key Hkey. rewrite redact_row_get.
    replace (Py.mem key redacted_keys) with true
      by (destruct Hkey as [<-|[<-|[]]]; reflexivity).
    cbn [andb]. unfold Py.has. by destruct (Py.get key r). }
  rewrite (redact_key_fixed (redact_row r) "principalUPNOrAppId")
    by (apply Hfixed; simpl; tauto).
  apply redact_key_fixed, Hfixed. simpl. tauto.
Qed.

Example redaction_keeps_display_names :
  redact_row [ ("principalDisplayName", Py.VStr "Ada");
               ("principalUPNOrAppId", Py.VStr "ada@example.org");
               ("memberDisplayName", Py.VStr "Bob");
               ("memberUPN", Py.VStr "bob@example.org") ]%string
  = [ ("principalDisplayName", Py.VStr "Ada");
      ("principalUPNOrAppId", Py.VStr "[REDACTED]");
      ("memberDisplayName", Py.VStr "Bob");
      ("memberUPN", Py.VStr "[REDACTED]") ]%string.
Proof. reflexivity. Qed.

(** ** What an emitter touches *)

Lemma requests_app t1 t2 : requests (t1 ++ t2) = requests t1 ++ requests t2.
Proof. unfold requests. apply omap_app. Qed.

Lemma touches_only_ret filename : touches_only filename (ret tt).
Proof. by intros w. Qed.

Lemma touches_only_log filename l msg : touches_only filename (emit (Log l msg)).
Proof.
  intros w. repeat split. simpl. rewrite requests_app. simpl. by rewrite app_nil_r.
Qed.

Lemma touches_only_put_file filename a : touches_only filename (put_file filename a).
Proof. intros w. repeat split. simpl. apply delete_insert_eq. Qed.

Lemma touches_only_bind filename (m : M unit) (k : unit -> M unit) :
  touches_only filename m -> (forall u, touches_only filename (k u)) ->
  touches_only filename (bind m k).
Proof.
  intros Hm Hk w. unfold bind. destruct (Hm w) as (H1 & H2 & H3 & H4 & H5).
  destruct (m w) as [u w1]. destruct (Hk u w1) as (K1 & K2 & K3 & K4 & K5). simpl in *.
  repeat split; congruence.
Qed.

Ltac touches :=
  repeat first
    [ apply touches_only_ret
    | apply touches_only_log
    | apply touches_only_put_file
    | apply touches_only_bind; [|intros ?]
    | progress unfold warning, error
    | match goal with
      | |- touches_only _ (match ?x with _ => _ end) => destruct x
      | |- touches_only _ (if ?b then _ else _) => destruct b
      | |- touches_only _ (let (_, _) := ?x in _) => destruct x
      end ].

(** X6. Each writer ([write_csv], [write_xlsx], [write_markdown],
    [write_json], [write_index_file]) changes at most the file it is
    given: every other file, the directories, the principal cache and the
    summary are as before, and it sends no request. (It may log.) *)
Theorem X6_emitters_touch_one_file (h : host) (data : list row) (filename : string)
  (top : Z) (redact : bool) (ix : index_data) :
  touches_only filename (write_csv h data filename redact)
  /\ touches_only filename (write_xlsx h data filename redact)
  /\ touches_only filename (write_markdown h data filename top redact)
  /\ touches_only filename (write_json h data filename redact)
  /\ touches_only filename (write_index_file h ix filename).
Proof.
  split_and!.
  - unfold write_csv. touches.
  - unfold write_xlsx. touches.
  - unfold write_markdown. touches.
  - unfold write_json. touches.
  - unfold write_index_file. touches.
Qed.

(** ** CSV files and rows with different keys *)








(** ** The spreadsheet *)

Lemma first_error_accepts {A} (f : A -> option string) (l : list A) :
  match first_error f l with None => true | Some _ => false end
  = forallb (fun x => match f x with None => true | Some _ => false end) l.
Proof.
  induction l as [|x l IH]; [done|].
  cbn [first_error fold_right forallb]. fold (first_error f l).
  by destruct (f x).
Qed.

Lemma append_error_accepts h (sheet : list (list Py.value)) :
  match first_error (append_error h) sheet with None => true | Some _ => false end
  = forallb (forallb (accepted h)) sheet.
Proof.
  rewrite first_error_accepts.
  induction sheet as [|cells sheet IH]; [done|].
  cbn [forallb]. rewrite IH. f_equal. apply first_error_accepts.
Qed.

(** X8. With [openpyxl] present, [write_xlsx] on a non-empty collection
    builds one header row and one row per record, all of the width of the
    first record's keys: a record with other keys is cut to the header's
    columns, a missing key is an empty cell. The sheet is saved, with no
    warning and no error logged, exactly when [openpyxl] accepts every
    cell and the path can be written; otherwise no file is written and
    one error is logged. Without [openpyxl] the call does nothing at
    all. *)
Theorem X8_write_xlsx_rectangular (h : host) (r0 : row) (rest : list row)
  (filename : string) (redact : bool) (w : world) :
  let data := r0 :: rest in
  let rows := if redact then redact_rows data else data in
  let headers := Py.keys r0 in
  let sheet :=
    map Py.VStr headers
    :: map (fun r => map (fun header => Py.get_or header (Py.VStr "") r) headers) rows in
  let out := write_xlsx h data filename redact w in
  if HAS_OPENPYXL h
  then length sheet = S (length data)
       /\ Forall (fun cells => length cells = length headers) sheet
       /\ if forallb (forallb (accepted h)) sheet && writable h filename
          then files out.2 !! filename = Some (XlsxFile sheet) /\ trace out.2 = trace w
          else files out.2 = files w /\ exists msg, trace out.2 = trace w ++ [Log ERROR msg]
  else out.2 = w.
Proof.
  intros data rows headers sheet out. subst out. unfold write_xlsx.
  destruct (HAS_OPENPYXL h); [|done]. cbn [negb]. subst data. cbv iota.
  fold rows.
  assert (Hkeys : match rows with r1 :: _ => Py.keys r1 | [] => [] end = headers).
  { subst rows headers. destruct redact; [apply redact_row_keys | done]. }
  assert (Hrows : length rows = length (r0 :: rest)).
  { subst rows. destruct redact; [apply length_map | done]. }
  rewrite Hkeys. fold sheet.
  split; [subst sheet; simpl; rewrite List.length_map; f_equal; exact Hrows|].
  split.
  { subst sheet. constructor; [by rewrite length_map|].
    apply List.Forall_forall. intros cells Hin.
    apply in_map_iff in Hin as (r & <- & _). by rewrite length_map. }
  rewrite <- append_error_accepts. unfold writable. clearbody sheet.
  destruct (first_error (append_error h) sheet) as [e|]; cbn [andb].
  { split; [done|]. by eexists. }
  destruct (open_error h filename) as [e|].
  { split; [done|]. by eexists. }
  cbn [put_file snd files set_files trace]. by rewrite lookup_insert_eq.
Qed.

(** A vertical tab in a display name: the sheet is not written, the CSV
    is. *)
Example control_character_in_a_cell :
  let data := [ [ ("principalDisplayName", Py.VStr (String (ascii_of_nat 11) "Ada")) ] ]%string in
  let out := (write_csv Sample.a_host data "a.csv" false ;;;
              write_xlsx Sample.a_host data "a.xlsx" false) empty_world in
  files out.2 !! "a.xlsx"%string = None
  /\ is_Some (files out.2 !! "a.csv"%string)
  /\ exists msg, trace out.2 = [Log ERROR msg].
Proof. vm_compute. split_and!; [done | by eexists | by eexists]. Qed.

(** ** Principal resolution *)

Lemma directory_lookup_trace h d pid ty w :
  let out := directory_lookup h d pid ty w in
  (out.2 = w
   \/ out.2 = set_trace (trace w ++ [Request (GraphUser pid)]) w
   \/ out.2 = set_trace (trace w ++ [Request (GraphApplication pid)]) w)
  /\ (HAS_GRAPH h = false \/ (ty <> "User" /\ ty <> "ServicePrincipal")%string ->
      out = ((pid, pid), w)).
Proof.
  unfold directory_lookup. destruct (HAS_GRAPH h); simpl.
  2:{ split; [by left | done]. }
  unfold Py.mem. cbn [existsb].
  destruct (String.eqb_spec ty "User") as [->|Hu].
  - cbn [orb]. unfold bind, send, emit.
    replace (String.eqb "User" "User") with true by reflexivity.
    split; [right; left; by destruct (users_get d pid)|].
    intros [|[]]; done.
  - destruct (String.eqb_spec ty "ServicePrincipal") as [->|Hs].
    + cbn [orb]. replace (String.eqb "ServicePrincipal" "User") with false by reflexivity.
      replace (String.eqb "ServicePrincipal" "ServicePrincipal") with true by reflexivity.
      unfold bind, send, emit.
      split; [right; right; by destruct (applications_get d pid)|].
      intros [|[]]; done.
    + cbn [orb]. split; [by left | done].
Qed.

Lemma or_else_nonempty o dflt : dflt <> EmptyString -> Py.or_else o dflt <> EmptyString.
Proof.
  intros Hd. unfold Py.or_else, Py.str_truthy.
  destruct o as [s|]; [|done].
  destruct (String.eqb_spec s ""); simpl; done.
Qed.

Lemma directory_lookup_nonempty h d pid ty w :
  pid <> EmptyString ->
  (directory_lookup h d pid ty w).1.1 <> EmptyString
  /\ (directory_lookup h d pid ty w).1.2 <> EmptyString.
Proof.
  intros Hpid. unfold directory_lookup.
  destruct (HAS_GRAPH h && _); [|done].
  destruct (String.eqb ty "User").
  - unfold bind, send, emit. destruct (users_get d pid); simpl; [|done].
    split; by apply or_else_nonempty.
  - destruct (String.eqb ty "ServicePrincipal"); [|done].
    unfold bind, send, emit. destruct (applications_get d pid); simpl; [|done].
    split; by apply or_else_nonempty.
Qed.

(** X9. The first resolution of a principal (not yet in the cache,
    without redaction) sends at most one request, to the directory and for
    that principal; it sends none, and answers with the id for both
    fields, when resolution is off, when the Graph client is missing, or
    when the type is neither [User] nor [ServicePrincipal]. Whatever the
    directory answers or raises, neither field of the result is empty,
    provided the id is not. *)
Theorem X9_first_resolution (h : host) (d : directory) (principal_id principal_type : string)
  (no_resolve : bool) (w : world) :
  principal_cache w !! principal_id = None ->
  principal_id <> EmptyString ->
  let out := resolve_principal h d principal_id principal_type no_resolve false w in
  (trace out.2 = trace w
   \/ trace out.2 = trace w ++ [Request (GraphUser principal_id)]
   \/ trace out.2 = trace w ++ [Request (GraphApplication principal_id)])
  /\ (if no_resolve || negb (HAS_GRAPH h)
         || negb (Py.mem principal_type ["User"; "ServicePrincipal"]%string)
      then out.1 = (principal_id, principal_id) /\ trace out.2 = trace w
      else True)
  /\ out.1.1 <> EmptyString /\ out.1.2 <> EmptyString.
Proof.
  intros Hmiss Hpid out. subst out. unfold resolve_principal. rewrite Hmiss.
  destruct no_resolve; [simpl; repeat split; tauto|].
  cbn [orb]. unfold bind.
  pose proof (directory_lookup_trace h d principal_id principal_type w) as [Htr Hfb].
  pose proof (directory_lookup_nonempty h d principal_id principal_type w Hpid)
    as [Hn1 Hn2].
  destruct (directory_lookup h d principal_id principal_type w) as [resolved w1].
  simpl in *. split; [|split; [|done]].
  - destruct Htr as [->|[->| ->]]; tauto.
  - destruct (HAS_GRAPH h) eqn:Hg; simpl.
    + destruct (String.eqb_spec principal_type "User") as [->|Hu]; [done|].
      destruct (String.eqb_spec principal_type "ServicePrincipal") as [->|Hs]; [done|].
      simpl. specialize (Hfb (or_intror (conj Hu Hs))). by injection Hfb as -> ->.
    + specialize (Hfb (or_introl eq_refl)). by injection Hfb as -> ->.
Qed.

Lemma X9_first_resolution_witness :
  let out := resolve_principal Sample.a_host Sample.a_directory "p-group" "Group" false
               false empty_world in
  (trace out.2 = trace empty_world
   \/ trace out.2 = trace empty_world ++ [Request (GraphUser "p-group")]
   \/ trace out.2 = trace empty_world ++ [Request (GraphApplication "p-group")])
  /\ (out.1 = ("p-group", "p-group")%string /\ trace out.2 = trace empty_world)
  /\ out.1.1 <> EmptyString /\ out.1.2 <> EmptyString.
Proof.
  exact (X9_first_resolution Sample.a_host Sample.a_directory "p-group" "Group" false
           empty_world eq_refl ltac:(discriminate)).
Defined.

Lemma for_rows_world_invariant (I : world -> Prop) body :
  (forall r w, I w -> I (body r w).2) ->
  forall rows w, I w -> I (for_rows body rows w).2.
Proof.
  intros Hbody. induction rows as [|r rows IH]; intros w Hw; simpl; [done|].
  unfold bind. specialize (Hbody r w Hw).
  destruct (body r w) as [[r'|e] w1]; simpl in *; [|done].
  specialize (IH w1 Hbody).
  by destruct (for_rows body rows w1) as [[rest|e] w2].
Qed.

Lemma lookup_ids_app evs1 evs2 : lookup_ids (evs1 ++ evs2) = lookup_ids evs1 ++ lookup_ids evs2.
Proof. unfold lookup_ids. apply omap_app. Qed.

Lemma lookups_once_refl w : lookups_once w w.
Proof.
  exists []. rewrite app_nil_r. repeat split; [constructor | constructor | done].
Qed.

Lemma lookups_once_store w0 w pid result :
  lookups_once w0 w ->
  lookups_once w0 (set_principal_cache (<[pid := result]> (principal_cache w)) w).
Proof.
  intros (evs & Htr & Hnd & Hall & Hmono). exists evs. simpl. repeat split; try done.
  - eapply Forall_impl; [exact Hall|]. intros id [Hs Hn]. split; [|done].
    rewrite lookup_insert. by case_decide.
  - intros id Hid. rewrite lookup_insert. case_decide; [done | by apply Hmono].
Qed.

Lemma lookups_once_request w0 w pid req :
  principal_cache w !! pid = None ->
  lookup_ids [Request req] = [pid] ->
  lookups_once w0 w ->
  forall result,
    lookups_once w0
      (set_principal_cache (<[pid := result]> (principal_cache w))
         (set_trace (trace w ++ [Request req]) w)).
Proof.
  intros Hmiss Hreq (evs & Htr & Hnd & Hall & Hmono) result.
  exists (evs ++ [Request req]). simpl. rewrite lookup_ids_app, Hreq.
  repeat split.
  - by rewrite Htr, app_assoc.
  - apply NoDup_app. split; [done|]. split; [|apply NoDup_singleton].
    intros id Hin ->%list_elem_of_singleton.
    rewrite Forall_forall in Hall. destruct (Hall _ Hin) as [[v Hv] _]. congruence.
  - apply Forall_app. split.
    + eapply Forall_impl; [exact Hall|]. intros id [Hs Hn]. split; [|done].
      rewrite lookup_insert. by case_decide.
    + constructor; [|constructor]. split; [by rewrite lookup_insert_eq|].
      destruct (principal_cache w0 !! pid) eqn:E; [|done].
      destruct (Hmono pid) as [v Hv]; [by eexists | congruence].
  - intros id Hid. rewrite lookup_insert. case_decide; [done | by apply Hmono].
Qed.

Lemma resolve_principal_lookups_once h d pid ty nr rd w0 w :
  lookups_once w0 w -> lookups_once w0 (resolve_principal h d pid ty nr rd w).2.
Proof.
  intros Hw. unfold resolve_principal.
  destruct (principal_cache w !! pid) eqn:Hmiss; [done|].
  destruct nr.
  - unfold bind, cache_store, ret. simpl. by apply lookups_once_store.
  - unfold bind.
    pose proof (directory_lookup_trace h d pid ty w) as [Htr _].
    destruct (directory_lookup h d pid ty w) as [resolved w1]. simpl in *.
    unfold cache_store, ret. simpl.
    destruct Htr as [->|[->| ->]].
    + by apply lookups_once_store.
    + by apply (lookups_once_request w0 w pid (GraphUser pid)).
    + by apply (lookups_once_request w0 w pid (GraphApplication pid)).
Qed.

(** X10. In the pass that resolves the principals of the merged
    collection, no principal is looked up in the directory twice, however
    many assignments name it, and a principal already in the cache when
    the pass starts is not looked up at all; every principal looked up is
    in the cache when the pass ends. *)
Theorem X10_one_lookup_per_principal (args : Args.t) (h : host) (d : directory)
  (assignments : list row) (w : world) :
  let out := resolve_principals args h d assignments w in
  exists evs,
    trace out.2 = trace w ++ evs
    /\ NoDup (lookup_ids evs)
    /\ Forall (fun id => is_Some (principal_cache out.2 !! id)
                         /\ principal_cache w !! id = None) (lookup_ids evs).
Proof.
  intros out.
  assert (H : lookups_once w out.2).
  { subst out. unfold resolve_principals.
    destruct assignments as [|r rows]; [apply lookups_once_refl|].
    destruct (negb _); [|apply lookups_once_refl].
    apply (for_rows_world_invariant (lookups_once w)); [|apply lookups_once_refl].
    intros r' w' Hw'. unfold resolve_assignment.
    destruct (item_str "principalId" r'); [|done].
    destruct (item_str "principalType" r'); [|done].
    unfold bind.
    pose proof (resolve_principal_lookups_once h d a a0
                  (Args.no_resolve_principals args) (Args.redact args) w w' Hw') as Hr.
    by destruct (resolve_principal h d a a0 _ _ w'). }
  destruct H as (evs & Htr & Hnd & Hall & _). by exists evs.
Qed.

(** Two assignments of the same user: one request. *)
Example same_principal_twice :
  let rows := map (role_assignment_row Sample.abc_scope)
                [Sample.native_assignment; Sample.native_assignment] in
  trace (resolve_principals Sample.args_abc Sample.a_host Sample.a_directory rows
           empty_world).2
  = [Request (GraphUser "p-user")].
Proof. vm_compute. reflexivity. Qed.

Lemma resolve_principal_redacted h d pid ty nr w :
  cache_redacted w ->
  let out := resolve_principal h d pid ty nr true w in
  out.1 = (REDACTED, REDACTED) /\ cache_redacted out.2.
Proof.
  intros Hw. unfold resolve_principal.
  destruct (principal_cache w !! pid) as [cached|] eqn:Hc.
  - split; [|done]. by apply (Hw pid).
  - assert (Hstore : forall w1, principal_cache w1 = principal_cache w ->
              cache_redacted
                (set_principal_cache (<[pid := (REDACTED, REDACTED)]> (principal_cache w1)) w1)).
    { intros w1 Hw1. unfold cache_redacted. simpl. rewrite Hw1.
      by apply map_Forall_insert_2. }
    destruct nr.
    + unfold bind, cache_store, ret. simpl. split; [done | by apply Hstore].
    + unfold bind.
      pose proof (talks_only_directory_lookup h d pid ty w) as Hext.
      destruct (directory_lookup h d pid ty w) as [resolved w1]. simpl in *.
      unfold cache_store, ret. simpl. split; [done|].
      apply Hstore. by apply extends_cache.
Qed.

Lemma resolve_assignment_redacted args h d r w :
  Args.redact args = true ->
  Args.no_resolve_principals args = false ->
  cache_redacted w ->
  has_principal r ->
  let out := resolve_assignment args h d r w in
  exists r', out.1 = Ok r'
    /\ Py.get "principalDisplayName" r' = Some (Py.VStr REDACTED)
    /\ Py.get "principalUPNOrAppId" r' = Some (Py.VStr REDACTED)
    /\ cache_redacted out.2.
Proof.
  intros Hred Hres Hw [[pid Hid] [ty Hty]].
  unfold resolve_assignment, item_str, item. rewrite Hid, Hty, Hres, Hred.
  unfold bind.
  destruct (resolve_principal_redacted h d (Py.str pid) (Py.str ty) false w Hw)
    as [Hpair Hw1].
  destruct (resolve_principal h d (Py.str pid) (Py.str ty) false true w) as [pair w1].
  simpl in Hpair, Hw1. subst pair. simpl. eexists. split; [reflexivity|].
  split; [|split; [apply get_set_eq | done]].
  rewrite get_set_ne by discriminate. apply get_set_eq.
Qed.

(** X11. With [--redact] and principal resolution on, starting from a
    cache that holds no unredacted pair (an empty one at the start of a
    run), the resolution pass leaves [[REDACTED]] in both
    [principalDisplayName] and [principalUPNOrAppId] of every assignment,
    and in every entry of the cache. *)
Theorem X11_resolution_redacts_names (args : Args.t) (h : host) (d : directory)
  (assignments : list row) (w : world) :
  Args.redact args = true ->
  Args.no_resolve_principals args = false ->
  cache_redacted w ->
  Forall has_principal assignments ->
  let out := resolve_principals args h d assignments w in
  exists resolved,
    out.1 = Ok resolved
    /\ length resolved = length assignments
    /\ Forall (fun r => Py.get "principalDisplayName" r = Some (Py.VStr REDACTED)
                        /\ Py.get "principalUPNOrAppId" r = Some (Py.VStr REDACTED))
              resolved
    /\ cache_redacted out.2.
Proof.
  intros Hred Hres Hw Hrows out. subst out. unfold resolve_principals.
  rewrite Hres. cbn [negb].
  assert (Hloop : forall rows w',
            cache_redacted w' -> Forall has_principal rows ->
            exists resolved,
              (for_rows (resolve_assignment args h d) rows w').1 = Ok resolved
              /\ length resolved = length rows
              /\ Forall (fun r => Py.get "principalDisplayName" r = Some (Py.VStr REDACTED)
                                  /\ Py.get "principalUPNOrAppId" r
                                     = Some (Py.VStr REDACTED)) resolved
              /\ cache_redacted (for_rows (resolve_assignment args h d) rows w').2).
  { induction rows as [|r rows IH]; intros w' Hw' Hall.
    - exists []. repeat split; [constructor | done].
    - apply Forall_cons in Hall as [Hr Hall].
      cbn [for_rows]. unfold bind.
      destruct (resolve_assignment_redacted args h d r w' Hred Hres Hw' Hr)
        as (r' & Hok & Hdn & Hupn & Hw1).
      destruct (resolve_assignment args h d r w') as [res w1].
      simpl in Hok, Hw1. subst res.
      destruct (IH w1 Hw1 Hall) as (rest & Hok & Hlen & Hrest & Hw2).
      destruct (for_rows (resolve_assignment args h d) rows w1) as [res w2].
      simpl in Hok, Hw2. subst res.
      exists (r' :: rest).
      split; [reflexivity|]. split; [simpl; f_equal; exact Hlen|]. split; [|done].
      by constructor. }
  destruct assignments as [|r rows].
  - exists []. repeat split; [constructor | done].
  - by apply Hloop.
Qed.

Lemma X11_resolution_redacts_names_witness :
  exists resolved,
    (resolve_principals
       (Args.mk (Some ["abc"]%string) false false true DEFAULT_MARKDOWN_TOP false false
          (Some "out") true DEFAULT_MAX_CONCURRENCY None false false
          DEFAULT_GROUP_MEMBERS_TOP direct true false)
       Sample.a_host Sample.a_directory
       [role_assignment_row Sample.abc_scope Sample.native_assignment] empty_world).1
    = Ok resolved
    /\ length resolved = 1%nat
    /\ Forall (fun r => Py.get "principalDisplayName" r = Some (Py.VStr REDACTED)
                        /\ Py.get "principalUPNOrAppId" r = Some (Py.VStr REDACTED))
              resolved
    /\ cache_redacted
         (resolve_principals
            (Args.mk (Some ["abc"]%string) false false true DEFAULT_MARKDOWN_TOP false false
               (Some "out") true DEFAULT_MAX_CONCURRENCY None false false
               DEFAULT_GROUP_MEMBERS_TOP direct true false)
            Sample.a_host Sample.a_directory
            [role_assignment_row Sample.abc_scope Sample.native_assignment] empty_world).2.
Proof.
  apply X11_resolution_redacts_names.
  - reflexivity.
  - reflexivity.
  - unfold cache_redacted. simpl. apply map_Forall_empty.
  - constructor; [|constructor]. split; vm_compute; eauto.
Defined.

(** ** Group expansion *)

(** X12. [expand_group_members] never returns more than [top] members
    when [top] is not negative, in either mode; with the Graph client it
    sends exactly one request, the members or the transitive-members
    query of that group, and without it none; and it changes nothing but
    the trace. *)
Theorem X12_expansion_is_capped (h : host) (d : directory) (group_id : string) (top : Z)
  (mode : membership_mode) (w : world) :
  0 <= top ->
  let out := expand_group_members h d group_id top mode w in
  (length out.1 <= Z.to_nat top)%nat
  /\ requests (trace out.2)
     = requests (trace w)
       ++ (if HAS_GRAPH h then [members_request mode group_id] else [])
  /\ extends w out.2.
Proof.
  intros Htop out. subst out. unfold expand_group_members.
  destruct (HAS_GRAPH h); simpl.
  2:{ unfold bind, warning, emit, ret. simpl. split; [lia|]. split.
      - rewrite requests_app. simpl. done.
      - by eexists. }
  assert (Hcap : forall l : list member_obj,
            (length (map member_of (Py.slice_to top l)) <= Z.to_nat top)%nat).
  { intros l. rewrite List.length_map. unfold Py.slice_to.
    destruct (0 <=? top) eqn:E; [|lia]. rewrite length_take. lia. }
  unfold bind, send, warning, emit, ret.
  destruct mode; simpl.
  - destruct (members_get d group_id) as [[l|]|e]; simpl;
      (split; [first [apply Hcap | lia]|]);
      (split; [rewrite ?requests_app; simpl; by rewrite ?app_nil_r, <- ?app_assoc
              | eexists; simpl; by rewrite <- ?app_assoc]).
  - destruct (transitive_members_get d group_id) as [[l|]|e]; simpl;
      (split; [first [apply Hcap | lia]|]);
      (split; [rewrite ?requests_app; simpl; by rewrite ?app_nil_r, <- ?app_assoc
              | eexists; simpl; by rewrite <- ?app_assoc]).
Qed.

Lemma X12_expansion_is_capped_witness :
  let out := expand_group_members Sample.a_host Sample.a_directory "g1" 0 direct
               empty_world in
  (length out.1 <= Z.to_nat 0)%nat
  /\ requests (trace out.2) = requests (trace empty_world) ++ [GraphMembers "g1"]
  /\ extends empty_world out.2.
Proof.
  exact (X12_expansion_is_capped Sample.a_host Sample.a_directory "g1" 0 direct
           empty_world ltac:(lia)).
Defined.

(** A negative [--group-members-top] is no cap: the slice drops members
    from the end instead. *)
Example negative_top_is_no_cap :
  length (Py.slice_to (-1) [1; 2; 3; 4]) = 3%nat.
Proof. reflexivity. Qed.

(** ** A run without principal resolution *)

Lemma says_directory_calls {A} (m : M A) w :
  says not_directory m -> directory_calls (m w).2 = directory_calls w.
Proof.
  intros Hm. destruct (Hm w) as (evs & Htr & Hall).
  unfold directory_calls. rewrite Htr, requests_app, filter_app, length_app.
  assert (Hnone : filter (fun r => is_directory_request r = true) (requests evs) = []).
  { clear Htr. induction Hall as [|e evs He _ IH]; [done|].
    destruct e as [r|l msg|p|p]; simpl in *; [|exact IH..].
    change (requests (Request r :: evs)) with (r :: requests evs).
    rewrite filter_cons. case_decide; [congruence | exact IH]. }
  rewrite Hnone. simpl. lia.
Qed.

Lemma says_get_role_definitions P t scope :
  P (Request (ListRoleDefinitions scope)) -> (forall msg, P (Log WARNING msg)) ->
  says P (get_role_definitions t scope).
Proof. intros H1 H2. unfold get_role_definitions. says. Qed.

Lemma says_get_role_assignments P t scope inc :
  P (Request (ListRoleAssignments scope inc)) -> (forall msg, P (Log WARNING msg)) ->
  says P (get_role_assignments t scope inc).
Proof. intros H1 H2. unfold get_role_assignments. says. Qed.

Lemma says_aggregate_not_directory args t mgs subs rgs :
  says not_directory (aggregate args t mgs subs rgs).
Proof.
  assert (Hskip : forall msg tag c, says not_directory (skip_scope msg tag c)).
  { intros. unfold skip_scope. says. }
  assert (Hrg : forall sub_id rg c,
            says not_directory (process_resource_group args t sub_id rg c)).
  { intros. unfold process_resource_group.
    apply says_bind; [by apply says_get_role_assignments|]. intros rows.
    destruct (mark_inherited _ rows); [says|].
    apply says_bind; [apply Hskip | intros; apply says_ret]. }
  unfold aggregate. apply says_bind.
  - destruct (Args.traverse_management_groups args); [|apply says_ret].
    apply says_for_each. intros mg c. unfold process_management_group.
    apply says_bind; [by apply says_get_role_definitions|]. intros defs.
    apply says_bind; [by apply says_get_role_assignments|]. intros rows.
    destruct (mark_inherited _ rows); [says|].
    apply says_bind; [apply Hskip | intros; apply says_ret].
  - intros c0. apply says_for_each. intros sub c. unfold process_subscription.
    apply says_bind; [by apply says_get_role_definitions|]. intros defs.
    apply says_bind; [by apply says_get_role_assignments|]. intros rows.
    destruct (mark_inherited _ rows).
    + apply says_bind.
      * destruct (Py.get _ rgs); [|apply says_ret].
        destruct (Args.include_resources args); [|apply says_ret].
        apply says_for_each. intros. apply Hrg.
      * intros c1. says.
    + apply says_bind; [apply Hskip | intros; apply says_ret].
Qed.

(** X13. With [--no-resolve-principals] (and no group expansion) the
    resolution pass is skipped altogether: the merged collection is the
    traversal's, every assignment keeps the empty [principalDisplayName]
    and [principalUPNOrAppId] it was built with, and the directory is
    never called. *)
Theorem X13_no_resolve_leaves_names_empty (args : Args.t) (h : host) (t : tenant)
  (d : directory) (mgs : list management_group) (subs : list subscription)
  (rgs : Py.dict (list resource_group)) (w : world) :
  Args.no_resolve_principals args = true ->
  Args.expand_group_members args = false ->
  let out := collect args h t d mgs subs rgs w in
  out = (Ok (aggregate args t mgs subs rgs w).1, (aggregate args t mgs subs rgs w).2)
  /\ Forall (fun r => Py.get "principalDisplayName" r = Some (Py.VStr "")
                      /\ Py.get "principalUPNOrAppId" r = Some (Py.VStr ""))
            (all_role_assignments (aggregate args t mgs subs rgs w).1)
  /\ directory_calls out.2 = directory_calls w.
Proof.
  intros Hres Hexp out.
  pose proof (aggregate_invariant args t mgs subs rgs w) as (Hrows & _).
  pose proof (says_directory_calls (aggregate args t mgs subs rgs) w
                (says_aggregate_not_directory args t mgs subs rgs)) as Hcalls.
  assert (Hout : out = (Ok (aggregate args t mgs subs rgs w).1,
                        (aggregate args t mgs subs rgs w).2)).
  { subst out. unfold collect, bind.
    destruct (aggregate args t mgs subs rgs w) as [c w1]. simpl.
    unfold resolve_principals, expand_groups. rewrite Hres, Hexp. simpl.
    destruct (all_role_assignments c) eqn:E; unfold ret; simpl;
      rewrite <- E; by destruct c. }
  split; [exact Hout|]. split.
  - eapply Forall_impl; [exact Hrows|].
    intros r (scope & l & a & _ & _ & _ & ->). unfold role_assignment_row.
    by destruct (classify_scope scope) as [[ty sub] rg].
  - by rewrite Hout.
Qed.

Lemma X13_no_resolve_leaves_names_empty_witness :
  let args := Args.mk (Some ["abc"]%string) false false false DEFAULT_MARKDOWN_TOP true
                false (Some "out") true DEFAULT_MAX_CONCURRENCY None false false
                DEFAULT_GROUP_MEMBERS_TOP direct true false in
  let agg := aggregate args Sample.small_tenant [] [Sample.sub_abc] [] empty_world in
  collect args Sample.a_host Sample.small_tenant Sample.a_directory [] [Sample.sub_abc] []
    empty_world = (Ok agg.1, agg.2)
  /\ Forall (fun r => Py.get "principalDisplayName" r = Some (Py.VStr "")
                      /\ Py.get "principalUPNOrAppId" r = Some (Py.VStr ""))
            (all_role_assignments agg.1)
  /\ directory_calls
       (collect args Sample.a_host Sample.small_tenant Sample.a_directory []
          [Sample.sub_abc] [] empty_world).2
     = directory_calls empty_world.
Proof.
  intros args agg.
  exact (X13_no_resolve_leaves_names_empty args Sample.a_host Sample.small_tenant
           Sample.a_directory [] [Sample.sub_abc] [] empty_world eq_refl eq_refl).
Defined.

(** ** The processing limit *)

Section Limited.
Context {A B : Type}.
Variables (g : event -> option B) (r : A -> list B) (count : collected -> Z)
  (Q : collected -> Prop) (n : Z) (body : A -> collected -> M (collected * ctl)).

(** A turn adds events that [g] reads as [r x], counts one more, breaks
    exactly when the count has reached [n], and keeps [Q]. *)
Hypothesis Hbody : forall x s w,
  Q s ->
  (exists evs, trace (body x s w).2 = trace w ++ evs /\ omap g evs = r x)
  /\ count (body x s w).1.1 = count s + 1
  /\ ((body x s w).1.2 = Break <-> n <= count s + 1)
  /\ Q (body x s w).1.1.

(** Such a loop takes the turns of the first elements of the list, as
    many as the count leaves room for, and no other. *)
Lemma for_each_limited l :
  forall s w,
    Q s -> 0 <= count s < Z.max n 1 ->
    let taken := take (Z.to_nat (Z.max n 1 - count s)) l in
    (exists evs,
       trace (for_each body l s w).2 = trace w ++ evs
       /\ omap g evs = flat_map r taken)
    /\ count (for_each body l s w).1 = count s + Z.of_nat (length taken)
    /\ Q (for_each body l s w).1.
Proof.
  induction l as [|x l IH]; intros s w HQ Hc taken.
  - subst taken. rewrite take_nil. cbn [for_each ret fst snd flat_map length].
    split; [exists []; by rewrite app_nil_r|]. split; [lia | done].
  - cbn [for_each]. unfold bind.
    destruct (Hbody x s w HQ) as ((e1 & T1 & G1) & C1 & B1 & Q1).
    destruct (body x s w) as [[s' c] w1]. cbn [fst snd] in *.
    assert (Hm : exists m, Z.to_nat (Z.max n 1 - count s) = S m).
    { exists (Z.to_nat (Z.max n 1 - count s) - 1)%nat. lia. }
    destruct Hm as [m Hm]. subst taken. rewrite Hm. cbn [firstn flat_map length].
    destruct c.
    + assert (Hlt : count s + 1 < n).
      { destruct (Z.le_gt_cases n (count s + 1)) as [Hle|Hgt]; [|lia].
        by apply B1 in Hle. }
      destruct (IH s' w1 Q1) as ((e2 & T2 & G2) & C2 & Q2); [lia|].
      replace (Z.to_nat (Z.max n 1 - count s')) with m in * by lia.
      split.
      { exists (e1 ++ e2). rewrite T2, T1, <- app_assoc. split; [done|].
        by rewrite omap_app, G1, G2. }
      split; [rewrite C2; lia | done].
    + assert (Hle : n <= count s + 1) by (by apply B1).
      assert (m = 0%nat) as -> by lia. rewrite take_0.
      cbn [ret fst snd flat_map length app].
      split; [exists e1; by rewrite app_nil_r|]. split; [lia | done].
Qed.

End Limited.

Lemma flat_map_map {X Y Z} (f : Y -> list Z) (g : X -> Y) (l : list X) :
  flat_map f (map g l) = flat_map (fun x => f (g x)) l.
Proof. induction l as [|x l IH]; [done|]. cbn. by rewrite IH. Qed.

Lemma flat_map_singleton {X Y} (f : X -> Y) (l : list X) :
  flat_map (fun x => [f x]) l = map f l.
Proof. induction l as [|x l IH]; [done|]. cbn. by rewrite IH. Qed.

Lemma definitions_of_scope_requests (scopes : list string) :
  omap (fun r => match r with ListRoleDefinitions scope => Some scope | _ => None end)
       (flat_map scope_requests scopes)
  = scopes.
Proof. induction scopes as [|x l IH]; [done|]. cbn. by rewrite IH. Qed.

Lemma get_role_definitions_requests t scope w :
  exists evs,
    trace (get_role_definitions t scope w).2 = trace w ++ evs
    /\ requests evs = [ListRoleDefinitions scope].
Proof.
  unfold get_role_definitions, bind, send, warning, emit, ret.
  destruct (role_definitions_list t scope) as [l|e]; cbn [trace set_trace snd].
  - by eexists.
  - eexists. rewrite <- app_assoc. split; [reflexivity | done].
Qed.

Lemma get_role_assignments_requests t scope inc w :
  exists evs,
    trace (get_role_assignments t scope inc w).2 = trace w ++ evs
    /\ requests evs = [ListRoleAssignments scope inc].
Proof.
  unfold get_role_assignments, bind, send, warning, emit, ret.
  destruct (role_assignments_list_for_scope t scope inc) as [l|e]; cbn [trace set_trace snd].
  - by eexists.
  - eexists. rewrite <- app_assoc. split; [reflexivity | done].
Qed.

Lemma definition_queries_app e1 e2 :
  definition_queries (e1 ++ e2) = definition_queries e1 ++ definition_queries e2.
Proof. apply omap_app. Qed.

Lemma definition_queries_of_requests evs :
  definition_queries evs
  = omap (fun r => match r with ListRoleDefinitions scope => Some scope | _ => None end)
      (requests evs).
Proof.
  unfold definition_queries, requests.
  induction evs as [|e evs IH]; [done|].
  destruct e as [[]| | |]; simpl; try done.
  f_equal. exact IH.
Qed.

Lemma definition_queries_none evs :
  Forall (fun e => definition_query e = None) evs -> definition_queries evs = [].
Proof.
  induction 1 as [|e evs He _ IH]; [done|].
  unfold definition_queries in *. cbn. by rewrite He.
Qed.

(** The loop over the resource groups of a subscription asks for no role
    definitions and leaves the two other counters alone. *)
Lemma resource_groups_loop args t sub_id rgs c w :
  let o := for_each (process_resource_group args t sub_id) rgs c w in
  (exists evs, trace o.2 = trace w ++ evs /\ definition_queries evs = [])
  /\ processed_subscriptions o.1 = processed_subscriptions c
  /\ processed_management_groups o.1 = processed_management_groups c.
Proof.
  assert (Hsays : says (fun e => definition_query e = None)
                    (for_each (process_resource_group args t sub_id) rgs c)).
  { apply says_for_each. intros rg c0. unfold process_resource_group.
    apply says_bind; [by apply says_get_role_assignments|]. intros rows.
    destruct (mark_inherited _ rows); [says|].
    apply says_bind; [unfold skip_scope; says | intros; apply says_ret]. }
  split.
  { destruct (Hsays w) as (evs & Htr & Hall). exists evs.
    split; [done | by apply definition_queries_none]. }
  apply (for_each_invariant
           (fun c' _ => processed_subscriptions c' = processed_subscriptions c
                        /\ processed_management_groups c' = processed_management_groups c));
    [|done].
  intros rg s w' [H1 H2]. unfold process_resource_group, bind.
  destruct (get_role_assignments t _ true w') as [rows w1].
  destruct (mark_inherited _ rows); simpl; [by destruct (Py.limit_reached _ _) | done].
Qed.

Lemma limit_reached_iff n count :
  n <> 0 -> Py.limit_reached (Some n) count = true <-> n <= count.
Proof.
  intros Hn. unfold Py.limit_reached.
  destruct (Z.eqb_spec n 0); [done|]. cbn [negb andb]. apply Z.leb_le.
Qed.

(** One turn of the loop over the management groups. *)
Lemma process_management_group_turn args t mg c w n :
  Args.limit args = Some n -> n <> 0 ->
  let o := process_management_group args t mg c w in
  (exists evs, trace o.2 = trace w ++ evs /\ requests evs = scope_requests (mg_scope mg))
  /\ processed_management_groups o.1.1 = processed_management_groups c + 1
  /\ (o.1.2 = Break <-> n <= processed_management_groups c + 1)
  /\ processed_subscriptions o.1.1 = processed_subscriptions c.
Proof.
  intros Hlim Hn. unfold process_management_group, bind. cbv zeta.
  change ("/providers/Microsoft.Management/managementGroups/" +:+ mg_name mg)
    with (mg_scope mg).
  destruct (get_role_definitions_requests t (mg_scope mg) w) as (e1 & T1 & R1).
  destruct (get_role_definitions t (mg_scope mg) w) as [defs w1]. cbn [snd] in T1.
  destruct (get_role_assignments_requests t (mg_scope mg) true w1) as (e2 & T2 & R2).
  pose proof (mark_inherited_get_role_assignments t (mg_scope mg) true w1) as Hmark.
  destruct (get_role_assignments t (mg_scope mg) true w1) as [rows w2].
  cbn [fst snd] in *. rewrite Hmark, Hlim.
  set (c1 := count_management_group _).
  assert (Hc1 : processed_management_groups c1 = processed_management_groups c + 1) by done.
  pose proof (limit_reached_iff n (processed_management_groups c1) Hn) as Hreach.
  unfold ret. destruct (Py.limit_reached (Some n) (processed_management_groups c1));
    cbn [fst snd]; rewrite <- Hc1.
  - split; [exists (e1 ++ e2); by rewrite T2, T1, <- app_assoc, requests_app, R1, R2|].
    split; [done|]. split; [|done]. split; [intros _; by apply Hreach | done].
  - split; [exists (e1 ++ e2); by rewrite T2, T1, <- app_assoc, requests_app, R1, R2|].
    split; [done|]. split; [|done].
    split; [discriminate | intros H; by apply Hreach in H].
Qed.

(** One turn of the loop over the subscriptions. *)
Lemma process_subscription_turn args t rgs sub c w n :
  Args.limit args = Some n -> n <> 0 ->
  let o := process_subscription args t rgs sub c w in
  (exists evs,
     trace o.2 = trace w ++ evs
     /\ definition_queries evs = [sub_scope sub]
     /\ (Args.include_resources args = false ->
         requests evs = scope_requests (sub_scope sub)))
  /\ processed_subscriptions o.1.1 = processed_subscriptions c + 1
  /\ (o.1.2 = Break <-> n <= processed_subscriptions c + 1)
  /\ processed_management_groups o.1.1 = processed_management_groups c.
Proof.
  intros Hlim Hn. unfold process_subscription, bind. cbv zeta.
  change ("/subscriptions/" +:+ sub_subscription_id sub) with (sub_scope sub).
  destruct (get_role_definitions_requests t (sub_scope sub) w) as (e1 & T1 & R1).
  destruct (get_role_definitions t (sub_scope sub) w) as [defs w1]. cbn [snd] in T1.
  destruct (get_role_assignments_requests t (sub_scope sub) true w1) as (e2 & T2 & R2).
  pose proof (mark_inherited_get_role_assignments t (sub_scope sub) true w1) as Hmark.
  destruct (get_role_assignments t (sub_scope sub) true w1) as [rows w2].
  cbn [fst snd] in *. rewrite Hmark, Hlim.
  set (c1 := count_subscription _).
  assert (Hrg : forall m : M collected,
            (m = ret c1 /\ (Args.include_resources args = false -> True)
             \/ Args.include_resources args = true
                /\ exists l, m = for_each
                     (process_resource_group args t (sub_subscription_id sub)) l c1) ->
            (exists e3, trace (m w2).2 = trace w2 ++ e3
                        /\ definition_queries e3 = []
                        /\ (Args.include_resources args = false -> e3 = []))
            /\ processed_subscriptions (m w2).1 = processed_subscriptions c + 1
            /\ processed_management_groups (m w2).1 = processed_management_groups c).
  { intros m [[-> _] | [Hinc [l ->]]].
    - split; [exists []; by rewrite app_nil_r | done].
    - destruct (resource_groups_loop args t (sub_subscription_id sub) l c1 w2)
        as ((e3 & T3 & D3) & K1 & K2).
      split; [exists e3; split_and!; [done | done | by rewrite Hinc] |].
      by rewrite K1, K2. }
  match goal with
  | |- context [let (a, w') := ?m w2 in _] =>
      specialize (Hrg m); destruct (m w2) as [c2 w3]
  end.
  cbn [fst snd] in Hrg. destruct Hrg as ((e3 & T3 & D3 & N3) & K1 & K2).
  { destruct (Py.get _ rgs); [|by left].
    destruct (Args.include_resources args); [right; eauto | by left]. }
  pose proof (limit_reached_iff n (processed_subscriptions c2) Hn) as Hreach.
  assert (Hevs : trace w3 = trace w ++ (e1 ++ e2 ++ e3)
                 /\ definition_queries (e1 ++ e2 ++ e3) = [sub_scope sub]
                 /\ (Args.include_resources args = false ->
                     requests (e1 ++ e2 ++ e3) = scope_requests (sub_scope sub))).
  { split; [by rewrite T3, T2, T1, <- !app_assoc|]. split.
    - rewrite !definition_queries_app, D3, !definition_queries_of_requests, R1, R2.
      reflexivity.
    - intros Hinc. rewrite (N3 Hinc), app_nil_r, requests_app, R1, R2. reflexivity. }
  unfold ret. destruct (Py.limit_reached (Some n) (processed_subscriptions c2));
    cbn [fst snd]; rewrite <- K1.
  - split; [by exists (e1 ++ e2 ++ e3)|].
    split; [done|]. split; [|done]. split; [intros _; by apply Hreach | done].
  - split; [by exists (e1 ++ e2 ++ e3)|].
    split; [done|]. split; [|done].
    split; [discriminate | intros H; by apply Hreach in H].
Qed.

(** X14. With a non-zero [--limit N] the traversal works on the first
    [max N 1] management groups (when they are traversed) and the first
    [max N 1] subscriptions, and on no other: the role definitions it asks
    for are those of these scopes, in order; without
    [--include-resources] the requests it sends are the two of each of
    these scopes and nothing else; and the two counters are the numbers
    of these scopes. *)
Theorem X14_limit_bounds_traversal (args : Args.t) (t : tenant)
  (mgs : list management_group) (subs : list subscription)
  (rgs : Py.dict (list resource_group)) (w : world) (n : Z) :
  Args.limit args = Some n ->
  n <> 0 ->
  let out := aggregate args t mgs subs rgs w in
  let scopes :=
    map mg_scope (if Args.traverse_management_groups args then take (stop_after n) mgs else [])
    ++ map sub_scope (take (stop_after n) subs) in
  (exists evs,
     trace out.2 = trace w ++ evs
     /\ definition_queries evs = scopes
     /\ (Args.include_resources args = false ->
         requests evs = flat_map scope_requests scopes))
  /\ processed_management_groups out.1
     = Z.of_nat (length (if Args.traverse_management_groups args
                         then take (stop_after n) mgs else []))
  /\ processed_subscriptions out.1 = Z.of_nat (length (take (stop_after n) subs)).
Proof.
  intros Hlim Hn out scopes. subst out scopes. unfold aggregate, bind.
  (* the loop over the management groups *)
  assert (Hmg : forall m : M collected,
            (Args.traverse_management_groups args = false /\ m = ret nothing_collected
             \/ Args.traverse_management_groups args = true
                /\ m = for_each (process_management_group args t) mgs nothing_collected) ->
            let taken :=
              if Args.traverse_management_groups args then take (stop_after n) mgs else [] in
            (exists evs, trace (m w).2 = trace w ++ evs
                         /\ requests evs = flat_map scope_requests (map mg_scope taken))
            /\ processed_management_groups (m w).1 = Z.of_nat (length taken)
            /\ processed_subscriptions (m w).1 = 0).
  { intros m [[-> ->] | [-> ->]]; cbv zeta.
    { split; [exists []; by rewrite app_nil_r | done]. }
    destruct (for_each_limited
                (fun e => match e with Request r => Some r | _ => None end)
                (fun mg => scope_requests (mg_scope mg))
                processed_management_groups
                (fun c => processed_subscriptions c = 0) n
                (process_management_group args t)) with (l := mgs) (s := nothing_collected)
                (w := w) as ((evs & T & R) & C & Q); [| done | simpl; lia |].
    { intros x s w0 Hs.
      destruct (process_management_group_turn args t x s w0 n Hlim Hn)
        as (E & C & B & K).
      split; [exact E|]. split; [exact C|]. split; [exact B|]. by rewrite K. }
    change (Z.to_nat (Z.max n 1 - processed_management_groups nothing_collected))
      with (Z.to_nat (Z.max n 1 - 0)) in *.
    rewrite Z.sub_0_r in *. fold (stop_after n) in *.
    split; [exists evs; split; [done|]|].
    { unfold requests. rewrite R. by rewrite flat_map_map. }
    split; [rewrite C; simpl; lia | done]. }
  match goal with
  | |- context [let (a, w') := ?m w in _] =>
      specialize (Hmg m); destruct (m w) as [c1 w1]
  end.
  cbv zeta in Hmg. cbn [fst snd] in Hmg.
  destruct Hmg as ((e1 & T1 & R1) & C1 & S1).
  { destruct (Args.traverse_management_groups args); [right | left]; done. }
  (* the loop over the subscriptions *)
  destruct (for_each_limited definition_query (fun sub => [sub_scope sub])
              processed_subscriptions
              (fun c => processed_management_groups c = processed_management_groups c1) n
              (process_subscription args t rgs)) with (l := subs) (s := c1) (w := w1)
    as ((e2 & T2 & D2) & C2 & Q2); [| done | rewrite S1; lia |].
  { intros x s w0 Hs.
    destruct (process_subscription_turn args t rgs x s w0 n Hlim Hn)
      as ((evs & T & D & _) & C & B & K).
    split; [by exists evs|]. split; [exact C|]. split; [exact B|]. by rewrite K. }
  rewrite S1, Z.sub_0_r in *. fold (stop_after n) in *.
  assert (Hreq : Args.include_resources args = false ->
                 requests e2 = flat_map scope_requests (map sub_scope (take (stop_after n) subs))).
  { intros Hinc.
    destruct (for_each_limited
                (fun e => match e with Request r => Some r | _ => None end)
                (fun sub => scope_requests (sub_scope sub))
                processed_subscriptions
                (fun c => processed_management_groups c = processed_management_groups c1) n
                (process_subscription args t rgs)) with (l := subs) (s := c1) (w := w1)
      as ((e2' & T2' & R2') & _ & _); [| done | rewrite S1; lia |].
    { intros x s w0 Hs.
      destruct (process_subscription_turn args t rgs x s w0 n Hlim Hn)
        as ((evs & T & _ & R) & C & B & K).
      split; [exists evs; split; [done | by apply R]|].
      split; [exact C|]. split; [exact B|]. by rewrite K. }
    rewrite S1, Z.sub_0_r in *. fold (stop_after n) in *.
    rewrite T2 in T2'. apply app_inv_head in T2'. subst e2'.
    unfold requests. rewrite R2'. by rewrite flat_map_map. }
  split.
  { exists (e1 ++ e2). split; [by rewrite T2, T1, <- app_assoc|]. split.
    - rewrite definition_queries_app. fold (definition_queries e2) in D2.
      by rewrite D2, definition_queries_of_requests, R1, definitions_of_scope_requests,
        flat_map_singleton.
    - intros Hinc. by rewrite requests_app, R1, (Hreq Hinc), flat_map_app. }
  split; [by rewrite Q2, C1 | by rewrite C2].
Qed.

Lemma X14_limit_bounds_traversal_witness :
  let args := Args.mk None false false false DEFAULT_MARKDOWN_TOP false true
                (Some "out") true DEFAULT_MAX_CONCURRENCY (Some 2) true false
                DEFAULT_GROUP_MEMBERS_TOP direct false false in
  let out := aggregate args (Sample.wide_tenant 5) [] (map Sample.numbered_sub (seq 0 5)) []
              empty_world in
  (exists evs,
     trace out.2 = trace empty_world ++ evs
     /\ definition_queries evs = ["/subscriptions/s0"; "/subscriptions/s1"]%string
     /\ (Args.include_resources args = false ->
         requests evs
         = [ ListRoleDefinitions "/subscriptions/s0";
             ListRoleAssignments "/subscriptions/s0" true;
             ListRoleDefinitions "/subscriptions/s1";
             ListRoleAssignments "/subscriptions/s1" true ]))
  /\ processed_management_groups out.1 = 0
  /\ processed_subscriptions out.1 = 2.
Proof.
  intros args out.
  exact (X14_limit_bounds_traversal args (Sample.wide_tenant 5) []
           (map Sample.numbered_sub (seq 0 5)) [] empty_world 2 eq_refl ltac:(lia)).
Defined.

(** Five subscriptions and [--limit 2]: two are processed, with four
    requests; a negative limit stops each loop after one scope. *)
Example limit_two_of_five :
  let args n := Args.mk None false false false DEFAULT_MARKDOWN_TOP false true
                  (Some "out") true DEFAULT_MAX_CONCURRENCY (Some n) true false
                  DEFAULT_GROUP_MEMBERS_TOP direct false false in
  let run n := aggregate (args n) (Sample.wide_tenant 5) []
                 (map Sample.numbered_sub (seq 0 5)) [] empty_world in
  processed_subscriptions (run 2).1 = 2
  /\ length (requests (trace (run 2).2)) = 4%nat
  /\ processed_subscriptions (run (-3)).1 = 1
  /\ length (requests (trace (run (-3)).2)) = 2%nat.
Proof. vm_compute. by split_and!. Qed.

(** ** Per-subscription files *)

Section DictKeys.
Context {V : Type}.
Implicit Types (d : Py.dict V) (k : string) (v : V).

Lemma not_has_not_in_keys k d : Py.has k d = false -> ~ In k (Py.keys d).
Proof.
  unfold Py.has, Py.keys. induction d as [|[k' v'] d IH]; simpl; [tauto|].
  destruct (String.eqb_spec k' k) as [->|Hne]; [discriminate|].
  intros H [Heq|Hin]; [done | by apply IH].
Qed.

Lemma keys_set_absent k v d :
  Py.has k d = false -> Py.keys (Py.set k v d) = Py.keys d ++ [k].
Proof.
  unfold Py.has, Py.keys. induction d as [|[k' v'] d IH]; simpl; [done|].
  destruct (String.eqb k' k) eqn:E; [discriminate|].
  intros H. simpl. by rewrite IH.
Qed.

Lemma NoDup_keys_set k v d :
  List.NoDup (Py.keys d) -> List.NoDup (Py.keys (Py.set k v d)).
Proof.
  intros Hnd. destruct (Py.has k d) eqn:E.
  - by rewrite keys_set_present.
  - rewrite keys_set_absent by done.
    apply NoDup_ListNoDup, NoDup_app. apply NoDup_ListNoDup in Hnd.
    split; [done|]. split; [|apply NoDup_singleton].
    intros x Hx ->%list_elem_of_singleton.
    apply list_elem_of_In in Hx. by apply (not_has_not_in_keys k d).
Qed.

End DictKeys.

Lemma group_by_subscription_unfold assignments :
  group_by_subscription assignments = fold_left group_step assignments [].
Proof. reflexivity. Qed.

Lemma truthy_str_nonempty v : Py.truthy v = true -> Py.str v <> EmptyString.
Proof.
  destruct v as [|[]|n|s]; simpl; try done.
  - intros _. unfold Py.str_of_Z. by destruct (Z.to_int n) as [[]|[]].
  - unfold Py.str_truthy. by intros H ->.
Qed.

Lemma group_step_spec acc r k :
  let acc' := group_step acc r in
  Py.get k acc'
  = (if of_subscription k r then Some (Py.get_or k [] acc ++ [r]) else Py.get k acc)
  /\ (List.NoDup (Py.keys acc) -> List.NoDup (Py.keys acc'))
  /\ (Forall (fun kv : string * list row => kv.1 <> EmptyString) acc ->
      Forall (fun kv : string * list row => kv.1 <> EmptyString) acc').
Proof.
  unfold group_step, of_subscription.
  set (sid := Py.get_or "subscriptionId" (Py.VStr "") r).
  destruct (Py.truthy sid) eqn:Ht; cbn [andb]; [|done].
  split; [|split].
  - rewrite get_set. destruct (String.eqb_spec (Py.str sid) k) as [->|]; done.
  - apply NoDup_keys_set.
  - pose proof (truthy_str_nonempty _ Ht) as Hne.
    generalize (Py.get_or (Py.str sid) [] acc ++ [r]). intros v Hacc.
    induction Hacc as [|[k' v'] acc Hk Hacc IHacc]; simpl.
    + by repeat constructor.
    + destruct (String.eqb k' (Py.str sid)); constructor; done.
Qed.

Lemma group_by_subscription_fold (l : list row) :
  forall (acc : Py.dict (list row)) (k : string),
    List.NoDup (Py.keys acc) ->
    Forall (fun kv : string * list row => kv.1 <> EmptyString) acc ->
    let g := fold_left group_step l acc in
    List.NoDup (Py.keys g)
    /\ Forall (fun kv : string * list row => kv.1 <> EmptyString) g
    /\ Py.get k g
       = match List.filter (of_subscription k) l with
         | [] => Py.get k acc
         | rows => Some (Py.get_or k [] acc ++ rows)
         end.
Proof.
  induction l as [|r l IH]; intros acc k Hnd Hne; [done|].
  cbn [fold_left List.filter].
  destruct (group_step_spec acc r k) as (Hget & Hnd' & Hne').
  destruct (IH (group_step acc r) k (Hnd' Hnd) (Hne' Hne)) as (H1 & H2 & H3).
  split; [exact H1|]. split; [exact H2|]. rewrite H3. clear H3.
  unfold Py.get_or at 1. rewrite Hget.
  destruct (of_subscription k r).
  - destruct (List.filter (of_subscription k) l) as [|r' rows]; [done|].
    by rewrite <- app_assoc.
  - done.
Qed.

(** X15. The per-subscription partition puts under each subscription id
    exactly the assignments whose [subscriptionId] is that id, in their
    order in the merged collection; an id appears once and is never
    empty, so assignments with an empty [subscriptionId] (those of
    management groups) are in no per-subscription file. *)
Theorem X15_group_by_subscription (assignments : list row) :
  let sub_assignments := group_by_subscription assignments in
  List.NoDup (Py.keys sub_assignments)
  /\ Forall (fun kv => kv.1 <> EmptyString) sub_assignments
  /\ (forall sub_id,
        Py.get sub_id sub_assignments
        = match List.filter (of_subscription sub_id) assignments with
          | [] => None
          | rows => Some rows
          end).
Proof.
  intros g. subst g. rewrite group_by_subscription_unfold.
  destruct (group_by_subscription_fold assignments [] "") as (H1 & H2 & _);
    [constructor | constructor |].
  split; [exact H1|]. split; [exact H2|].
  intros k.
  destruct (group_by_subscription_fold assignments [] k) as (_ & _ & ->);
    [constructor | constructor |].
  by destruct (List.filter (of_subscription k) assignments).
Qed.

Example per_subscription_partition :
  let mg_row := role_assignment_row Sample.mg1_scope Sample.inherited_assignment in
  let sub_row := role_assignment_row Sample.abc_scope Sample.native_assignment in
  group_by_subscription [mg_row; sub_row; mg_row; sub_row]
  = [("abc"%string, [sub_row; sub_row])].
Proof. vm_compute. reflexivity. Qed.

(** ** Searching and splitting strings *)

Section Strings.
Implicit Types (p s x y cur : string) (a b c : ascii).

Lemma prefix_same a p s : String.prefix (String a p) (String a s) = String.prefix p s.
Proof. simpl. by destruct (ascii_dec a a). Qed.

Lemma prefix_diff a b p s : a <> b -> String.prefix (String a p) (String b s) = false.
Proof. intros H. simpl. by destruct (ascii_dec a b). Qed.

Lemma prefix_app p s : String.prefix p (p +:+ s) = true.
Proof.
  induction p as [|a p IH]; [by destruct s|].
  change (String a p +:+ s) with (String a (p +:+ s)). by rewrite prefix_same.
Qed.

Lemma no_char_cons c b s :
  no_char c (String b s) = true <-> b <> c /\ no_char c s = true.
Proof.
  simpl. rewrite andb_true_iff, negb_true_iff.
  destruct (Ascii.eqb_spec b c); split; intros [? ?]; done.
Qed.

Lemma no_char_app c x y :
  no_char c (x +:+ y) = no_char c x && no_char c y.
Proof.
  induction x as [|b x IH]; [done|].
  change (String b x +:+ y) with (String b (x +:+ y)). simpl.
  by rewrite IH, andb_assoc.
Qed.

(** A pattern with a [c] in it is no prefix of a string without. *)
Lemma prefix_needs_char c p s :
  no_char c s = true -> no_char c p = false -> String.prefix p s = false.
Proof.
  revert s. induction p as [|a p IH]; intros s Hs Hp; [discriminate|].
  destruct s as [|b s]; [done|].
  apply no_char_cons in Hs as [Hb Hs].
  destruct (ascii_dec a b) as [->|Hab]; [|by apply prefix_diff].
  rewrite prefix_same. apply IH; [done|].
  simpl in Hp. destruct (Ascii.eqb_spec b c); [done|]. by simpl in Hp.
Qed.

Lemma str_contains_cons p b s :
  Py.str_contains p (String b s) = String.prefix p (String b s) || Py.str_contains p s.
Proof. reflexivity. Qed.

(** A pattern that starts with [c] is not found in a string without
    [c], and is found after a [c]-free stretch or not at all. *)
Lemma str_contains_needs_char c p s :
  no_char c s = true -> Py.str_contains (String c p) s = false.
Proof.
  induction s as [|b s IH]; intros Hs; [done|].
  apply no_char_cons in Hs as [Hb Hs].
  rewrite str_contains_cons, IH by done.
  rewrite prefix_diff; [done | congruence].
Qed.

Lemma str_contains_skip c p x y :
  no_char c x = true ->
  Py.str_contains (String c p) (x +:+ String c y)
  = Py.str_contains (String c p) (String c y).
Proof.
  induction x as [|b x IH]; intros Hx; [done|].
  apply no_char_cons in Hx as [Hb Hx].
  change (String b x +:+ String c y) with (String b (x +:+ String c y)).
  rewrite str_contains_cons, IH by done.
  rewrite prefix_diff; [done | congruence].
Qed.

(** Matching a pattern [q1/q2] against [x/y], the first segments free of
    [/]: the segments must be equal and the rest must match. *)
Lemma prefix_through_segment c q1 q2 x y :
  no_char c q1 = true -> no_char c x = true ->
  String.prefix (q1 +:+ String c q2) (x +:+ String c y)
  = String.eqb q1 x && String.prefix q2 y.
Proof.
  revert x. induction q1 as [|a q1 IH]; intros x Hq Hx.
  - destruct x as [|b x].
    + change (String.prefix (String c q2) (String c y) = String.prefix q2 y).
      apply prefix_same.
    + apply no_char_cons in Hx as [Hb Hx].
      change (String.prefix (String c q2) (String b (x +:+ String c y)) = false).
      apply prefix_diff. congruence.
  - apply no_char_cons in Hq as [Ha Hq].
    change (String a q1 +:+ String c q2) with (String a (q1 +:+ String c q2)).
    destruct x as [|b x].
    + change (String.prefix (String a (q1 +:+ String c q2)) (String c y) = false).
      by apply prefix_diff.
    + apply no_char_cons in Hx as [Hb Hx].
      change (String b x +:+ String c y) with (String b (x +:+ String c y)).
      simpl String.eqb.
      destruct (Ascii.eqb_spec a b) as [->|Hab].
      * rewrite prefix_same. by apply IH.
      * by rewrite prefix_diff.
Qed.

(** [split] on a separator that does not occur. *)
Lemma split_go_absent p s cur :
  Py.str_contains p s = false -> Py.split_go p 0 cur s = [cur +:+ s].
Proof.
  revert cur. induction s as [|b s IH]; intros cur Hs.
  - simpl. by rewrite append_empty_r.
  - rewrite str_contains_cons in Hs. apply orb_false_iff in Hs as [Hp Hs].
    cbn [Py.split_go]. rewrite Hp, IH by done.
    by rewrite <- append_assoc.
Qed.

Lemma split_go_skip p x y cur :
  Py.split_go p (String.length x) cur (x +:+ y) = Py.split_go p 0 cur y.
Proof.
  induction x as [|b x IH]; [done|].
  change (String b x +:+ y) with (String b (x +:+ y)). exact IH.
Qed.

(** [split] at an occurrence of the separator, and across a stretch free
    of the separator's first character. *)
Lemma split_go_at c p y cur :
  Py.split_go (String c p) 0 cur (String c p +:+ y)
  = cur :: Py.split_go (String c p) 0 EmptyString y.
Proof.
  change (String c p +:+ y) with (String c (p +:+ y)).
  cbn [Py.split_go].
  change (String c (p +:+ y)) with (String c p +:+ y). rewrite prefix_app.
  f_equal.
  replace (String.length (String c p) - 1)%nat with (String.length p)
    by (simpl; lia).
  apply split_go_skip.
Qed.

Lemma split_go_stretch c p x y cur :
  no_char c x = true ->
  Py.split_go (String c p) 0 cur (x +:+ y) = Py.split_go (String c p) 0 (cur +:+ x) y.
Proof.
  revert cur. induction x as [|b x IH]; intros cur Hx.
  - by rewrite append_empty_r.
  - apply no_char_cons in Hx as [Hb Hx].
    change (String b x +:+ y) with (String b (x +:+ y)).
    cbn [Py.split_go]. rewrite prefix_diff by congruence.
    rewrite IH by done. by rewrite <- append_assoc.
Qed.

End Strings.

(** ** The classifier on the scopes [main] builds *)

Lemma str_contains_prefix p s : String.prefix p s = true -> Py.str_contains p s = true.
Proof.
  intros H. destruct s as [|b s]; [|by rewrite str_contains_cons, H].
  change (String.prefix p EmptyString || false = true). by rewrite H.
Qed.

(** Unrolling the search through a path, one segment at a time. *)
Lemma str_contains_segment c p seg rest :
  no_char c seg = true ->
  Py.str_contains (String c p) (String c (seg +:+ String c rest))
  = String.prefix p (seg +:+ String c rest) || Py.str_contains (String c p) (String c rest).
Proof.
  intros Hseg. by rewrite str_contains_cons, prefix_same, str_contains_skip.
Qed.

Lemma str_contains_last_segment c p seg :
  no_char c seg = true ->
  Py.str_contains (String c p) (String c seg) = String.prefix p seg.
Proof.
  intros Hseg.
  by rewrite str_contains_cons, prefix_same, str_contains_needs_char, orb_false_r.
Qed.

Lemma prefix_head_diff a b p x y :
  a <> b -> String.prefix (String a p) (String b x +:+ y) = false.
Proof. intros H. change (String b x +:+ y) with (String b (x +:+ y)). by apply prefix_diff. Qed.

Lemma prefix_segment_literal c q q1 q2 x y :
  q = q1 +:+ String c q2 -> no_char c q1 = true -> no_char c x = true ->
  String.prefix q (x +:+ String c y) = String.eqb q1 x && String.prefix q2 y.
Proof. intros ->. apply prefix_through_segment. Qed.

Lemma classify_subscription_scope sub_id :
  no_char slash sub_id = true ->
  classify_scope ("/subscriptions/" +:+ sub_id) = ("Subscription", sub_id, "")%string.
Proof.
  intros Hsub. unfold classify_scope.
  assert (Hmg : Py.str_contains "/providers/Microsoft.Management/managementGroups/"
                  ("/subscriptions/" +:+ sub_id) = false).
  { change ("/subscriptions/" +:+ sub_id)
      with (String slash ("subscriptions" +:+ String slash sub_id)).
    rewrite (str_contains_segment slash) by reflexivity.
    rewrite (str_contains_last_segment slash) by done.
    rewrite (prefix_needs_char slash _ sub_id) by done.
    reflexivity. }
  assert (Hsubs : Py.str_contains "/subscriptions/" ("/subscriptions/" +:+ sub_id) = true).
  { apply str_contains_prefix, prefix_app. }
  assert (Hrg : Py.str_contains "/resourceGroups/" ("/subscriptions/" +:+ sub_id) = false).
  { change ("/subscriptions/" +:+ sub_id)
      with (String slash ("subscriptions" +:+ String slash sub_id)).
    rewrite (str_contains_segment slash) by reflexivity.
    rewrite (str_contains_last_segment slash) by done.
    rewrite (prefix_needs_char slash _ sub_id) by done.
    reflexivity. }
  rewrite Hmg, Hsubs, Hrg. cbn [andb].
  unfold Py.split. rewrite (split_go_at slash).
  rewrite split_go_absent by (by apply (str_contains_needs_char slash)).
  change (EmptyString +:+ sub_id) with sub_id. cbv iota.
  rewrite split_go_absent by (by apply (str_contains_needs_char slash)).
  reflexivity.
Qed.

Lemma classify_resource_group_scope sub_id rg :
  no_char slash sub_id = true ->
  no_char slash rg = true ->
  classify_scope ("/subscriptions/" +:+ sub_id +:+ "/resourceGroups/" +:+ rg)
  = ("ResourceGroup", sub_id, rg)%string.
Proof.
  intros Hsub Hrg. unfold classify_scope.
  set (scope := "/subscriptions/" +:+ sub_id +:+ "/resourceGroups/" +:+ rg).
  set (tail := String slash ("resourceGroups" +:+ String slash rg)).
  assert (Hscope : scope = String slash ("subscriptions" +:+ String slash (sub_id +:+ tail)))
    by reflexivity.
  assert (Hmg : Py.str_contains "/providers/Microsoft.Management/managementGroups/" scope
                = false).
  { rewrite Hscope. subst tail.
    rewrite (str_contains_segment slash) by reflexivity.
    rewrite (str_contains_segment slash) by done.
    rewrite (str_contains_segment slash) by reflexivity.
    rewrite (str_contains_last_segment slash) by done.
    rewrite (prefix_needs_char slash _ rg) by done.
    rewrite !prefix_head_diff by discriminate.
    rewrite (prefix_segment_literal slash _ "providers"
               "Microsoft.Management/managementGroups/" sub_id _ eq_refl) by done.
    rewrite prefix_head_diff by discriminate.
    by rewrite andb_false_r. }
  assert (Hsubs : Py.str_contains "/subscriptions/" scope = true).
  { apply str_contains_prefix, prefix_app. }
  assert (Hrgs : Py.str_contains "/resourceGroups/" scope = true).
  { rewrite Hscope. subst tail.
    rewrite (str_contains_segment slash) by reflexivity.
    rewrite (str_contains_segment slash) by done.
    assert (Hfound : Py.str_contains (String slash "resourceGroups/")
                       (String slash ("resourceGroups" +:+ String slash rg)) = true).
    { apply str_contains_prefix. apply (prefix_app "/resourceGroups/" rg). }
    rewrite Hfound. by rewrite !orb_true_r. }
  rewrite Hmg, Hsubs, Hrgs. cbn [andb].
  assert (Hnone : Py.str_contains "/subscriptions/" (sub_id +:+ tail) = false).
  { subst tail. rewrite (str_contains_skip slash) by done.
    rewrite (str_contains_segment slash) by reflexivity.
    rewrite (str_contains_last_segment slash) by done.
    rewrite (prefix_needs_char slash _ rg) by done.
    reflexivity. }
  unfold Py.split. subst scope. rewrite (split_go_at slash).
  change (sub_id +:+ "/resourceGroups/" +:+ rg) with (sub_id +:+ tail).
  rewrite split_go_absent by exact Hnone.
  change (EmptyString +:+ sub_id +:+ tail) with (sub_id +:+ tail). cbv iota.
  rewrite (split_go_stretch slash) by done.
  subst tail. change (String slash ("resourceGroups" +:+ String slash rg))
    with ("/resourceGroups/" +:+ rg).
  rewrite (split_go_at slash).
  rewrite split_go_absent by (by apply (str_contains_needs_char slash)).
  reflexivity.
Qed.

(** X16. On the scopes [main] queries, the classifier recovers what the
    scope was built from: a management-group scope is [ManagementGroup]
    whatever the group's name, and, for a subscription id and a resource
    group name without [/], the subscription scope is [Subscription] with
    that id and the resource-group scope is [ResourceGroup] with that id
    and that name. The [subscriptionId] column of every assignment found
    at a subscription is therefore the subscription's id. *)
Theorem X16_classifier_on_built_scopes (mg_id sub_id rg : string)
  (assignment : role_assignment_obj) :
  no_char slash sub_id = true ->
  no_char slash rg = true ->
  classify_scope ("/providers/Microsoft.Management/managementGroups/" +:+ mg_id)
    = ("ManagementGroup", "", "")%string
  /\ classify_scope ("/subscriptions/" +:+ sub_id) = ("Subscription", sub_id, "")%string
  /\ classify_scope ("/subscriptions/" +:+ sub_id +:+ "/resourceGroups/" +:+ rg)
     = ("ResourceGroup", sub_id, rg)%string
  /\ Py.get "subscriptionId"
       (role_assignment_row ("/subscriptions/" +:+ sub_id) assignment)
     = Some (Py.VStr sub_id).
Proof.
  intros Hsub Hrg. split_and!.
  - unfold classify_scope.
    by rewrite (str_contains_prefix _ _
                  (prefix_app "/providers/Microsoft.Management/managementGroups/" mg_id)).
  - by apply classify_subscription_scope.
  - by apply classify_resource_group_scope.
  - unfold role_assignment_row. by rewrite classify_subscription_scope.
Qed.

Lemma X16_classifier_on_built_scopes_witness :
  classify_scope ("/providers/Microsoft.Management/managementGroups/" +:+ "root")
    = ("ManagementGroup", "", "")%string
  /\ classify_scope ("/subscriptions/" +:+ "0000-1111")
     = ("Subscription", "0000-1111", "")%string
  /\ classify_scope ("/subscriptions/" +:+ "0000-1111" +:+ "/resourceGroups/" +:+ "rg-web")
     = ("ResourceGroup", "0000-1111", "rg-web")%string
  /\ Py.get "subscriptionId"
       (role_assignment_row ("/subscriptions/" +:+ "0000-1111") Sample.native_assignment)
     = Some (Py.VStr "0000-1111").
Proof.
  exact (X16_classifier_on_built_scopes "root" "0000-1111" "rg-web"
           Sample.native_assignment eq_refl eq_refl).
Defined.

(** With a [/] in the id the hypothesis fails and so does the
    conclusion: the part after the [/] is lost. *)
Example classifier_cuts_at_slash :
  classify_scope ("/subscriptions/" +:+ "abc/def") = ("Subscription", "abc", "")%string.
Proof. reflexivity. Qed.

(** ** The subscription list after validation *)

Lemma split_go_pieces c s cur :
  no_char c cur = true ->
  Forall (fun piece => no_char c piece = true)
         (Py.split_go (String c EmptyString) 0 cur s).
Proof.
  revert cur. induction s as [|b s IH]; intros cur Hcur.
  - by repeat constructor.
  - cbn [Py.split_go].
    destruct (ascii_dec c b) as [<-|Hcb].
    + rewrite prefix_same. replace (String.prefix EmptyString s) with true by (by destruct s).
      constructor; [done|]. by apply IH.
    + rewrite prefix_diff by done. apply IH.
      rewrite no_char_app, Hcur. simpl.
      destruct (Ascii.eqb_spec b c); [congruence | done].
Qed.

Lemma no_char_lstrip c s : no_char c s = true -> no_char c (Py.lstrip s) = true.
Proof.
  induction s as [|b s IH]; [done|]. intros H. simpl.
  destruct (Py.is_space b); [|done]. apply IH. by apply no_char_cons in H as [_ H].
Qed.

Lemma no_char_rstrip c s : no_char c s = true -> no_char c (Py.rstrip s) = true.
Proof.
  induction s as [|b s IH]; [done|]. intros H.
  apply no_char_cons in H as [Hb Hs]. specialize (IH Hs). simpl.
  destruct (Py.rstrip s) as [|b' r] eqn:E.
  - destruct (Py.is_space b); [done|]. by apply no_char_cons.
  - by apply no_char_cons.
Qed.

Lemma rstrip_idempotent s : Py.rstrip (Py.rstrip s) = Py.rstrip s.
Proof.
  induction s as [|b s IH]; [done|]. simpl.
  destruct (Py.rstrip s) as [|b' r] eqn:E.
  - destruct (Py.is_space b) eqn:Hb; [done|]. simpl. by rewrite Hb.
  - simpl. simpl in IH. rewrite IH. done.
Qed.

(** [rstrip] keeps a first character that is not a space. *)
Lemma lstrip_rstrip_clean s :
  Py.lstrip s = s -> Py.lstrip (Py.rstrip s) = Py.rstrip s.
Proof.
  destruct s as [|b s]; [done|]. simpl.
  destruct (Py.is_space b) eqn:Hb.
  - intros H. exfalso.
    assert (Hlen : forall t, (String.length (Py.lstrip t) <= String.length t)%nat).
    { induction t as [|a t IHt]; [done|]. simpl. destruct (Py.is_space a); simpl; lia. }
    specialize (Hlen s). rewrite H in Hlen. simpl in Hlen. lia.
  - intros _. destruct (Py.rstrip s); simpl; by rewrite Hb.
Qed.

Lemma lstrip_idempotent s : Py.lstrip (Py.lstrip s) = Py.lstrip s.
Proof.
  induction s as [|b s IH]; [done|]. simpl.
  destruct (Py.is_space b) eqn:Hb; [done|]. simpl. by rewrite Hb.
Qed.

Lemma strip_idempotent s : Py.strip (Py.strip s) = Py.strip s.
Proof.
  unfold Py.strip.
  rewrite (lstrip_rstrip_clean (Py.lstrip s)) by apply lstrip_idempotent.
  apply rstrip_idempotent.
Qed.

(** X17. When an invocation with [--subscriptions] passes validation, the
    list the run works with holds only ids that are non-empty, free of
    commas and free of surrounding white space: values are split on
    commas, trimmed, and blanks are dropped. *)
Theorem X17_validated_subscriptions (args args' : Args.t) :
  validate_arguments args = inr args' ->
  Args.has_subscriptions args = true ->
  exists ids,
    Args.subscriptions args' = Some ids
    /\ Forall (fun id => id <> EmptyString
                         /\ no_char comma id = true
                         /\ Py.strip id = id) ids.
Proof.
  unfold validate_arguments, Args.has_subscriptions.
  destruct (_ && _ && _); [discriminate|].
  destruct (_ && _); [discriminate|].
  destruct (Args.subscriptions args) as [[|s subs]|]; [discriminate| |discriminate].
  intros [= <-] _. eexists. split; [reflexivity|].
  apply List.Forall_forall. intros id Hin.
  apply in_map_iff in Hin as (piece & <- & Hin).
  apply filter_In in Hin as [Hin Htruthy].
  split; [|split].
  - unfold Py.str_truthy in Htruthy. intros Heq. rewrite Heq in Htruthy. done.
  - unfold Py.strip. apply no_char_rstrip, no_char_lstrip.
    change (In piece (flat_map (Py.split ",") (s :: subs))) in Hin.
    apply in_flat_map in Hin as (sub & _ & Hin).
    pose proof (split_go_pieces comma sub EmptyString eq_refl) as Hall.
    rewrite List.Forall_forall in Hall. by apply Hall.
  - apply strip_idempotent.
Qed.

Lemma X17_validated_subscriptions_witness :
  exists ids,
    Args.subscriptions
      (Args.with_subscriptions (Some ["a"; "b"; "c"]%string)
         (Args.with_subscriptions (Some ["a, b ,"; " c "]%string) default_args))
    = Some ids
    /\ Forall (fun id => id <> EmptyString
                         /\ no_char comma id = true
                         /\ Py.strip id = id) ids.
Proof.
  exact (X17_validated_subscriptions
           (Args.with_subscriptions (Some ["a, b ,"; " c "]%string) default_args)
           (Args.with_subscriptions (Some ["a"; "b"; "c"]%string)
              (Args.with_subscriptions (Some ["a, b ,"; " c "]%string) default_args))
           eq_refl eq_refl).
Defined.

(** A list of blanks passes validation and leaves the run with no
    subscription to look for: it ends with exit code 1 after the
    credential check, without listing anything. *)
Example blank_subscriptions :
  let args := Args.with_subscriptions (Some [" , "]%string) default_args in
  let out := main args Sample.a_host Sample.small_tenant Sample.a_directory empty_world in
  validate_arguments args = inr (Args.with_subscriptions (Some []) args)
  /\ out.1 = Exit 1
  /\ requests (trace out.2) = [GetToken DefaultAzureCredential]
  /\ last (trace out.2) = Some (Log ERROR "No subscriptions found or accessible").
Proof. vm_compute. by split_and!. Qed.

(** ** The names of the derived files *)

Section Replace.
Implicit Types (p new s x y : string) (a b c : ascii).




End Replace.








(** With [.csv] in the directory's path the JSON file is sent to another
    directory. *)
Example json_leaves_the_directory :
  exists paths w',
    new_output_paths Sample.a_host (Some "exports.csv.d"%string) empty_world = (Ok paths, w')
    /\ op_role_definitions paths = "exports.csv.d/role_definitions.csv"%string
    /\ Py.replace ".csv" ".json" (op_role_definitions paths)
       = "exports.json.d/role_definitions.json"%string.
Proof. do 2 eexists. split; [reflexivity|]. split; reflexivity. Qed.

(** In the current directory the names carry no directory at all. *)
Example current_directory :
  exists paths w',
    new_output_paths Sample.a_host (Some "."%string) empty_world = (Ok paths, w')
    /\ op_base paths = "."%string
    /\ op_role_definitions paths = "role_definitions.csv"%string
    /\ Py.replace ".csv" ".json" (op_role_definitions paths) = "role_definitions.json"%string.
Proof. do 2 eexists. split; [reflexivity|]. by split_and!. Qed.

(** ** Authentication and the listing of subscriptions *)




(** The same run when the log directory cannot be made: the exception
    ends it before any token is asked for. *)
Example log_directory_cannot_be_made :
  let h :=
    {| HAS_OPENPYXL := true; HAS_GRAPH := true;
       default_get_token := Returned tt; cli_get_token := Returned tt;
       which_pwsh := None; bootstrap_run := Returned 0;
       utc_date := "20240101"; run_id := "r1"; utc_timestamp := "20240101_000000";
       mkdir_error := fun p =>
         if String.eqb p "logs/20240101" then Some "[Errno 13] Permission denied: 'logs'"
         else None;
       open_error := fun _ => None;
       cell_error := fun _ => None;
       set_order := fun l => l |} in
  main Sample.args_abc h Sample.small_tenant Sample.a_directory empty_world
  = (Uncaught "[Errno 13] Permission denied: 'logs'", empty_world).
Proof. vm_compute. reflexivity. Qed.


(** An id the tenant does not list is only dropped. *)
Example unknown_subscription_is_dropped :
  (get_subscriptions Sample.small_tenant (Some ["abc"; "zzz"]%string) empty_world).1
  = (get_subscriptions Sample.small_tenant (Some ["abc"]%string) empty_world).1
  /\ trace (get_subscriptions Sample.small_tenant (Some ["abc"; "zzz"]%string) empty_world).2
     = [Request ListSubscriptions].
Proof. split; reflexivity. Qed.

(** ** The doctor script *)

Lemma doctor_probed :
  Doctor.probed
  = ["azure_identity"; "azure_mgmt_authorization"; "azure_mgmt_resource";
     "azure_mgmt_managementgroups"]%string.
Proof. reflexivity. Qed.

Lemma doctor_required_loop (py : Doctor.interpreter) (pkgs out miss : list string) :
  fold_left (Doctor.check_required py) pkgs (out, miss)
  = (out ++ map (fun p => if Doctor.imports py (Doctor.module_name p)
                          then "  ✓ " +:+ p
                          else "  ✗ " +:+ p +:+ " (MISSING)") pkgs,
     miss ++ List.filter (fun p => negb (Doctor.imports py (Doctor.module_name p))) pkgs).
Proof.
  revert out miss. induction pkgs as [|p pkgs IH]; intros out miss.
  - by rewrite !app_nil_r.
  - cbn [fold_left map List.filter Doctor.check_required].
    destruct (Doctor.imports py (Doctor.module_name p)); cbn [negb];
      rewrite IH, <- ?app_assoc; reflexivity.
Qed.

Lemma filter_negb_nil {A B} (f : B -> bool) (g : A -> B) (l : list A) :
  List.filter (fun p => negb (f (g p))) l = [] <-> forallb f (map g l) = true.
Proof.
  induction l as [|x l IH]; [done|].
  cbn [List.filter map forallb]. destruct (f (g x)); cbn [negb andb]; [exact IH|done].
Qed.

Lemma last_snoc_map {A} (f : A -> string) (l : list string) (x : A) (m : list A) (d : string) :
  exists z, List.last (l ++ map f (x :: m)) d = f z.
Proof.
  destruct (exists_last (l := x :: m)) as [m' [z Hz]]; [done|].
  exists z. rewrite Hz, map_app, app_assoc. apply last_last.
Qed.

(** X21. The doctor's exit status is 0 when each of the modules
    [azure_identity], [azure_mgmt_authorization], [azure_mgmt_resource]
    and [azure_mgmt_managementgroups] can be imported, and 1 otherwise;
    the optional packages, the virtual environment and the requirements
    file have no part in it.  The last line printed is the [Status: OK]
    line exactly when the status is 0. *)
Theorem X21_doctor_exit_status (py : Doctor.interpreter) :
  Doctor.probed
  = ["azure_identity"; "azure_mgmt_authorization"; "azure_mgmt_resource";
     "azure_mgmt_managementgroups"]%string
  /\ (Doctor.main py).2 = (if forallb (Doctor.imports py) Doctor.probed then 0 else 1)
  /\ ((Doctor.main py).2 = 0
      <-> List.last (Doctor.main py).1 EmptyString
          = "Status: OK - All required packages found"%string).
Proof.
  split; [reflexivity|].
  unfold Doctor.main, Doctor.probed. rewrite doctor_required_loop.
  cbn [app]. cbv zeta.
  pose proof (filter_negb_nil (Doctor.imports py) Doctor.module_name
                Doctor.required_packages) as Hnil.
  destruct (List.filter _ Doctor.required_packages) as [|x miss].
  - rewrite (proj1 Hnil eq_refl). cbn [snd fst]. split; [done|].
    split; [intros _; apply last_last|done].
  - destruct (forallb (Doctor.imports py) (map Doctor.module_name Doctor.required_packages)).
    + by destruct Hnil as [_ Hnil]; specialize (Hnil eq_refl).
    + cbn [snd fst]. split; [done|]. split; [done|].
      intros Hlast. exfalso.
      match type of Hlast with
      | List.last (?l ++ ?a :: ?b :: map ?f _) _ = _ =>
          destruct (last_snoc_map f (l ++ [a; b]) x miss EmptyString) as [z Hz];
          rewrite <- app_assoc in Hz; cbn [app] in Hz; rewrite Hz in Hlast
      end.
      discriminate Hlast.
Qed.

(** An interpreter in which [azure] and [openpyxl] can be imported, but no
    module of an underscored name: the doctor reports four missing
    packages. *)
Example doctor_wants_underscored_modules :
  let py :=
    {| Doctor.version := "3.11.4";
       Doctor.imports := fun name => Py.mem name ["azure"; "openpyxl"]%string;
       Doctor.real_prefix := false;
       Doctor.base_prefix := Some "/usr"%string;
       Doctor.prefix := "/home/user/.venv";
       Doctor.requirements_file := "scripts/azure/python/requirements.txt";
       Doctor.requirements_file_exists := true |} in
  (Doctor.main py).2 = 1
  /\ In "Status: FAILED - 4 required packages missing"%string (Doctor.main py).1
  /\ In "  ✓ openpyxl"%string (Doctor.main py).1
  /\ In (nl +:+ "Virtual environment: Yes")%string (Doctor.main py).1.
Proof. vm_compute. intuition. Qed.
